(** * Profile recorder of the security-profiles-operator: a shallow embedding

    Source: [internal/pkg/daemon/profilerecorder/profilerecorder.go].

    Go strings are byte sequences; they are modelled by [string] (one
    [ascii] per byte).  Go errors built with [github.com/pkg/errors] are
    modelled by the inductive [error], one constructor per way the source
    builds them.  A Go function returning [(T, error)] returns [result T]. *)

From Stdlib Require Import String Ascii List ZArith Lia Bool.
From stdpp Require Import gmap strings sorting.

Local Open Scope string_scope.

(** ** Errors and results *)

Inductive error : Type :=
| errors_New (msg : string)
| errors_Errorf (format : string) (args : list string)
| errors_Wrap (err : error) (msg : string)
| errors_Wrapf (err : error) (format : string) (args : list string).

Inductive result (A : Type) : Type :=
| Ok (a : A)
| Err (e : error).
Arguments Ok {A} a.
Arguments Err {A} e.

Definition is_ok {A} (r : result A) : bool :=
  match r with Ok _ => true | Err _ => false end.

(** ** The functions of Go's [strings] package the recorder calls *)

(** The line feed, Go's "\n". *)
Definition LF : string := String "010"%char EmptyString.

(** [strings.HasPrefix(s, prefix)]. *)
Definition HasPrefix (s prefix : string) : bool := String.prefix prefix s.

(** [strings.TrimPrefix(s, prefix)]. *)
Definition TrimPrefix (s prefix : string) : string :=
  if HasPrefix s prefix
  then substring (String.length prefix) (String.length s - String.length prefix) s
  else s.

(** [strings.LastIndex(s, substr)]: the byte index of the last occurrence
    of [substr] in [s], or [-1]. *)
Fixpoint LastIndex (s substr : string) : Z :=
  match s with
  | EmptyString => if String.prefix substr EmptyString then 0 else (-1)
  | String _ s' =>
      let r := LastIndex s' substr in
      if (0 <=? r)%Z then (r + 1)%Z
      else if String.prefix substr s then 0%Z else (-1)%Z
  end.

(** [strings.Split(s, sep)] for a separator of one byte, which is how the
    source calls it (":" and " "): the fields between the separators, in
    order; never the empty list. *)
Fixpoint Split (s : string) (sep : ascii) : list string :=
  match s with
  | EmptyString => [EmptyString]
  | String c s' =>
      if Ascii.eqb c sep then EmptyString :: Split s' sep
      else match Split s' sep with
           | [] => [String c EmptyString]
           | field :: fields => String c field :: fields
           end
  end.

(** [strings.Join(elems, sep)]. *)
Definition Join (elems : list string) (sep : string) : string :=
  String.concat sep elems.

(** Number of occurrences of the byte [c] in [s]. *)
Fixpoint count_byte (c : ascii) (s : string) : nat :=
  match s with
  | EmptyString => 0
  | String c' s' => (if Ascii.eqb c' c then 1 else 0) + count_byte c s'
  end.

(** [sort.Strings(x)]: [x] in increasing order, the order of Go's [<] on
    strings being the bytewise lexicographic one ([String.le]). *)
Definition sort_Strings (x : list string) : list string :=
  merge_sort String.le x.

(** ** [extractProfileName] *)

Definition extractProfileName (s : string) : result string :=
  let lastIndex := LastIndex s "-" in
  if (lastIndex =? -1)%Z
  then Err (errors_Errorf "malformed profile path: %s" [s])
  else Ok (substring 0 (Z.to_nat lastIndex) s).

(** ** [ctxt2type] *)

Definition seContextRequiredParts : nat := 3.

Definition ctxt2type (ctx : string) : result string :=
  let elems := Split ctx ":" in
  if (List.length elems <? seContextRequiredParts)%nat
  then Err (errors_New "Malformed SELinux context")
  else Ok (nth 2 elems EmptyString).

(** ** A monad for state and errors

    A Go method that mutates its receiver and may return an error maps a
    state to an outcome and the state it leaves behind: an error does not
    roll back what was written before it. *)

Definition M (St A : Type) : Type := St -> result A * St.

Definition ret {St A} (a : A) : M St A := fun st => (Ok a, st).

Definition fail {St A} (e : error) : M St A := fun st => (Err e, st).

Definition bind {St A B} (m : M St A) (k : A -> M St B) : M St B :=
  fun st =>
    match m st with
    | (Ok a, st') => k a st'
    | (Err e, st') => (Err e, st')
    end.

Definition get {St} : M St St := fun st => (Ok st, st).

Definition modify {St} (f : St -> St) : M St unit := fun st => (Ok tt, f st).

(** A pure [(T, error)] value used inside a method. *)
Definition lift {St A} (r : result A) : M St A := fun st => (r, st).

(** [if err != nil { return errors.Wrap(err, msg) }]. *)
Definition wrap {St A} (m : M St A) (msg : string) : M St A :=
  fun st =>
    match m st with
    | (Ok a, st') => (Ok a, st')
    | (Err e, st') => (Err (errors_Wrap e msg), st')
    end.

Declare Scope go_scope.
Delimit Scope go_scope with go.
Notation "x <- m ;; k" := (bind m (fun x => k))
  (at level 100, m at next level, right associativity) : go_scope.
Notation "m ;;; k" := (bind m (fun _ => k))
  (at level 100, right associativity) : go_scope.

(** [for _, x := range l { body }], leaving at the first error. *)
Fixpoint for_range {St B} (l : list B) (body : B -> M St unit) : M St unit :=
  match l with
  | [] => ret tt
  | x :: l' => bind (body x) (fun _ => for_range l' body)
  end.

(** ** The SELinux policy builder *)

(** [enricherapi.AvcResponse_SelinuxAvc]. *)
Record AvcResponse_SelinuxAvc : Type := {
  Perm : string;
  Tclass : string;
  Scontext : string;
  Tcontext : string;
}.

(** [seProfileBuilder]; [permMap] is a [map[string]sets.String],
    [policyBuilder] the text written to the [strings.Builder] so far.  The
    logger is left out. *)
Record seProfileBuilder : Type := {
  permMap : gmap string (gset string);
  keys : list string;
  usageCtx : string;
  policyBuilder : string;
}.

Definition newSeProfileBuilder (usageCtx : string) : seProfileBuilder :=
  {| permMap := ∅; keys := []; usageCtx := usageCtx; policyBuilder := "" |}.

Definition set_permMap (f : gmap string (gset string) -> gmap string (gset string))
    (sb : seProfileBuilder) : seProfileBuilder :=
  {| permMap := f (permMap sb); keys := keys sb;
     usageCtx := usageCtx sb; policyBuilder := policyBuilder sb |}.

Definition set_keys (f : list string -> list string)
    (sb : seProfileBuilder) : seProfileBuilder :=
  {| permMap := permMap sb; keys := f (keys sb);
     usageCtx := usageCtx sb; policyBuilder := policyBuilder sb |}.

(** [sb.policyBuilder.WriteString(s)]. *)
Definition WriteString (s : string) (sb : seProfileBuilder) : seProfileBuilder :=
  {| permMap := permMap sb; keys := keys sb;
     usageCtx := usageCtx sb; policyBuilder := policyBuilder sb ++ s |}.

(** [sets.String.List]: the elements, sorted. *)
Definition sets_List (s : gset string) : list string :=
  sort_Strings (elements s).

Definition addAvc (avc : AvcResponse_SelinuxAvc) : M seProfileBuilder unit :=
  (ctxType <- wrap (lift (ctxt2type (Tcontext avc))) "converting context to type" ;;
   let key := Tclass avc ++ " " ++ ctxType in
   modify (set_keys (fun ks => (ks ++ [key])%list)) ;;;
   sb <- get ;;
   match permMap sb !! key with
   | Some perms => modify (set_permMap <[key := perms ∪ {[Perm avc]}]>)
   | None => modify (set_permMap <[key := {[Perm avc]}]>)
   end)%go.

Definition AddAvcList (avcs : list AvcResponse_SelinuxAvc) : M seProfileBuilder unit :=
  for_range avcs (fun avc => wrap (addAvc avc) "adding AVC").

(** [perms] is [None] for Go's nil map. *)
Definition policyLine (tclass tcontext : string) (perms : option (gset string))
    : result string :=
  match perms with
  | None => Err (errors_New "nil permissions set or no permissions")
  | Some perms =>
      if (size perms =? 0)%nat
      then Err (errors_New "nil permissions set or no permissions")
      else
        let permsList := sets_List perms in
        let permsList := sort_Strings permsList in
        Ok ("(allow process " ++ tcontext ++ " ( " ++ tclass ++ " ( "
              ++ Join permsList " " ++ " )))" ++ LF)
  end.

(** *** The builder as a function of the AVCs *)

(** The builder after [addAvc] of an AVC, whether it succeeded or not. *)
Definition added (sb : seProfileBuilder) (avc : AvcResponse_SelinuxAvc)
    : seProfileBuilder :=
  snd (addAvc avc sb).

(** Two builders that differ in the order of their keys only. *)
Definition same_content (a b : seProfileBuilder) : Prop :=
  permMap a = permMap b /\ keys a ≡ₚ keys b /\
  usageCtx a = usageCtx b /\ policyBuilder a = policyBuilder b.

(** The builder after the AVCs of [avcs], one after the other. *)
Definition added_all (sb : seProfileBuilder) (avcs : list AvcResponse_SelinuxAvc)
    : seProfileBuilder :=
  fold_left added avcs sb.

(** Whether every AVC of the list has a well-formed target context. *)
Definition well_formed (avcs : list AvcResponse_SelinuxAvc) : bool :=
  forallb (fun avc => is_ok (ctxt2type (Tcontext avc))) avcs.

Definition errAddAvc : error :=
  errors_Wrap
    (errors_Wrap (errors_New "Malformed SELinux context")
       "converting context to type")
    "adding AVC".

Definition mkAvc (perm tclass tcontext : string) : AvcResponse_SelinuxAvc :=
  {| Perm := perm; Tclass := tclass; Scontext := ""; Tcontext := tcontext |}.

(** The AVCs of the aggregation-and-formatting scenario, the target
    context of the third being a parameter, and the lines of its policy. *)
Definition scenario_avcs (tcontext : string) : list AvcResponse_SelinuxAvc :=
  [mkAvc "read" "file" "system_u:object_r:bin_t:s0";
   mkAvc "execute" "file" "system_u:object_r:bin_t:s0";
   mkAvc "write" "file" tcontext].

Definition line_header : string := "(blockinherit container)" ++ LF.
Definition line_bin_t : string :=
  "(allow process bin_t ( file ( execute read )))" ++ LF.
Definition line_my_usage_t : string :=
  "(allow process my_usage_t ( file ( write )))" ++ LF.

(** ** The recorder's data *)

(** [profilerecording1alpha1.ProfileRecordingKind], a Go string type with
    two named constants; any other string is [ProfileRecordingKindOther]. *)
Inductive ProfileRecordingKind : Type :=
| ProfileRecordingKindSeccompProfile
| ProfileRecordingKindSelinuxProfile
| ProfileRecordingKindOther (k : string).

(** [profilerecording1alpha1.ProfileRecorder]. *)
Inductive ProfileRecorder : Type :=
| ProfileRecorderHook
| ProfileRecorderLogs.

Record profileToCollect : Type := {
  kind : ProfileRecordingKind;
  name : string;
}.

(** A profile of kind [SeccompProfile]. *)
Definition is_seccomp (prf : profileToCollect) : Prop :=
  kind prf = ProfileRecordingKindSeccompProfile.

Record podToWatch : Type := {
  recorder : ProfileRecorder;
  profiles : list profileToCollect;
}.

(** Every pod watched in hook mode has seccomp profiles only. *)
Definition hook_entries_seccomp (pods : gmap string podToWatch) : Prop :=
  forall (key : string) (p : podToWatch),
    pods !! key = Some p -> recorder p = ProfileRecorderHook ->
    Forall is_seccomp (profiles p).

(** *** Annotations, entry by entry

    What one annotation contributes to a parse: nothing, an error that
    ends the parse, or a profile.  These serve to show that the outcome of
    a parse does not depend on the order of the entries. *)
Fixpoint range_entries (entry : string * string -> option (result profileToCollect))
    (annotations : list (string * string)) (res : list profileToCollect)
    : result (list profileToCollect) :=
  match annotations with
  | [] => Ok res
  | kv :: annotations' =>
      match entry kv with
      | None => range_entries entry annotations' res
      | Some (Err e) => Err e
      | Some (Ok p) => range_entries entry annotations' (res ++ [p])%list
      end
  end.

(** Two parses that both fail, or give the same profiles in some order. *)
Definition same_profiles (a b : result (list profileToCollect)) : Prop :=
  match a, b with
  | Ok x, Ok y => x ≡ₚ y
  | Err _, Err _ => True
  | _, _ => False
  end.

(** [types.NamespacedName] and its [String()]. *)
Record NamespacedName : Type := {
  Namespace : string;
  Name : string;
}.

Definition NamespacedName_String (n : NamespacedName) : string :=
  Namespace n ++ "/" ++ Name n.

(** [corev1.PodPhase]; [PodPhaseNone] is the phase of the zero [Pod]. *)
Inductive PodPhase : Type :=
| PodPhaseNone
| PodPending
| PodRunning
| PodSucceeded
| PodFailed
| PodUnknown.

(** The part of [corev1.Pod] the recorder reads.  [Annotations] is a Go
    map; the list gives its entries in the order a [range] visits them,
    which the runtime chooses: the theorems hold for every list, and
    whether a parse succeeds and which profiles it gives does not depend
    on the order (lemmas [parseHookAnnotations_Permutation] and
    [parseLogAnnotations_Permutation]). *)
Record Pod : Type := {
  Annotations : list (string * string);
  Phase : PodPhase;
}.

Definition zeroPod : Pod := {| Annotations := []; Phase := PodPhaseNone |}.

(** What [client.Get] of a pod gives: the pod, a not-found error, or
    another error. *)
Inductive GetPodResult : Type :=
| GetFound (pod : Pod)
| GetNotFound (err : error)
| GetError (err : error).

(** The part of the [SecurityProfilesOperatorDaemon] spec that is read. *)
Record SecurityProfilesOperatorDaemon : Type := {
  EnableLogEnricher : bool;
}.

(** The objects handed to [controllerutil.CreateOrUpdate], with what the
    mutate function sets: the hook recorder unmarshals the file's JSON
    into the spec; the log recorder sets default action errno and one
    allow rule with the recorded names, or the formatted policy. *)
Inductive Object : Type :=
| SeccompProfileOfJSON (name namespace data : string)
| SeccompProfileOfSyscalls (name namespace : string) (names : list string)
| SelinuxProfileOfPolicy (name namespace policy : string).

Inductive EventType : Type := Normal | Warning.

(** What the recorder does to the outside, as it appears in the trace. *)
Inductive Call : Type :=
| CallGetPod (n : NamespacedName)
| CallGetSPOD
| CallReadFile (path : string)
| CallCreateOrUpdate (obj : Object)
| CallDial
| CallSyscalls (profile : string)
| CallResetSyscalls (profile : string)
| CallAvcs (profile : string)
| CallResetAvcs (profile : string)
| CallRecordEvent (typ : EventType) (reason : string).

(** The collaborators of the recorder (cluster client, file system, event
    recorder, enricher connection), as functions of the state of the
    outside, which they may change. *)
Class Outside (World : Type) : Type := {
  client_Get_Pod : NamespacedName -> World -> GetPodResult * World;
  client_Get_SPOD : World -> result SecurityProfilesOperatorDaemon * World;
  ioutil_ReadFile : string -> World -> result string * World;
  controllerutil_CreateOrUpdate : Object -> World -> result unit * World;
  record_Event : EventType -> string -> World -> World;
  enricher_Dial : World -> result unit * World;
  enricherClient_Syscalls : string -> World -> result (list string) * World;
  enricherClient_ResetSyscalls : string -> World -> result unit * World;
  enricherClient_Avcs : string -> World -> result (list AvcResponse_SelinuxAvc) * World;
  enricherClient_ResetAvcs : string -> World -> result unit * World;
}.

(** [RecorderReconciler]: the pods being watched ([sync.Map] keyed by the
    pod's namespaced name), the outside, and the calls made so far with
    whether each succeeded.  Logging is left out. *)
Record RecorderReconciler (World : Type) : Type := {
  podsToWatch : gmap string podToWatch;
  world : World;
  trace : list (Call * bool);
}.
Arguments podsToWatch {World} _.
Arguments world {World} _.
Arguments trace {World} _.

Definition errGetPod : string := "cannot get pod".
Definition errInvalidAnnotation : string := "invalid Annotation".
Definition reasonProfileRecording : string := "SeccompProfileRecording".
Definition reasonProfileCreated : string := "SeccompProfileCreated".
Definition reasonProfileCreationFailed : string := "CannotCreateSeccompProfile".
Definition reasonAnnotationParsing : string := "SeccompAnnotationParsing".

(** *** Reading a trace *)

Definition is_reset (c : Call) : bool :=
  match c with
  | CallResetSyscalls _ | CallResetAvcs _ => true
  | _ => false
  end.

Definition is_snapshot (c : Call) : bool :=
  match c with
  | CallSyscalls _ | CallAvcs _ => true
  | _ => false
  end.

Definition is_write (c : Call) : bool :=
  match c with
  | CallCreateOrUpdate _ => true
  | _ => false
  end.

(** The object [obj] is the profile object of the recording that the call
    [c] resets: of the same kind, and named as the recording without its
    last "-" and what follows. *)
Definition written_for (obj : Object) (c : Call) : Prop :=
  match c, obj with
  | CallResetSyscalls profile, SeccompProfileOfSyscalls name _ _ =>
      extractProfileName profile = Ok name
  | CallResetAvcs profile, SelinuxProfileOfPolicy name _ _ =>
      extractProfileName profile = Ok name
  | _, _ => False
  end.

(** A trace without a reset. *)
Definition quiet (t : list (Call * bool)) : Prop :=
  Forall (fun x => is_reset (fst x) = false) t.

(** The shape of the traces of log-mode collection: calls other than
    snapshots, writes and resets; rounds of a snapshot, a write that
    succeeded, its event and the reset; and a last part without a reset. *)
Inductive rounds : list (Call * bool) -> Prop :=
| rounds_quiet (t : list (Call * bool)) :
    quiet t -> rounds t
| rounds_other (c : Call) (ok : bool) (t : list (Call * bool)) :
    is_reset c = false -> is_snapshot c || is_write c = false ->
    rounds t -> rounds ((c, ok) :: t)
| rounds_round (snapshot reset : Call) (obj : Object) (ok : bool)
    (t : list (Call * bool)) :
    is_snapshot snapshot = true -> is_reset reset = true ->
    written_for obj reset ->
    rounds t ->
    rounds ((snapshot, true) :: (CallCreateOrUpdate obj, true)
            :: (CallRecordEvent Normal reasonProfileCreated, true)
            :: (reset, ok) :: t).

(** What one profile adds to the trace: on success a full round, on
    failure a round whose reset failed or a part without a reset. *)
Definition adds_round (res : result unit) (before after : list (Call * bool)) : Prop :=
  exists seg : list (Call * bool),
    after = (before ++ seg)%list /\
    match res with
    | Ok _ => forall t, rounds t -> rounds (seg ++ t)
    | Err _ => rounds seg
    end.

(** *** A scripted outside

    Every call answers from the script and leaves it as it is. *)
Record Script : Type := {
  script_pod : GetPodResult;
  script_spod : result SecurityProfilesOperatorDaemon;
  script_file : result string;
  script_createOrUpdate : result unit;
  script_dial : result unit;
  script_syscalls : result (list string);
  script_avcs : result (list AvcResponse_SelinuxAvc);
  script_reset : result unit;
}.

#[global] Instance scripted : Outside Script := {|
  client_Get_Pod _ w := (script_pod w, w);
  client_Get_SPOD w := (script_spod w, w);
  ioutil_ReadFile _ w := (script_file w, w);
  controllerutil_CreateOrUpdate _ w := (script_createOrUpdate w, w);
  record_Event _ _ w := w;
  enricher_Dial w := (script_dial w, w);
  enricherClient_Syscalls _ w := (script_syscalls w, w);
  enricherClient_ResetSyscalls _ w := (script_reset w, w);
  enricherClient_Avcs _ w := (script_avcs w, w);
  enricherClient_ResetAvcs _ w := (script_reset w, w);
|}.

(** *** What a builder is expected to hold *)

(** The key [addAvc] files an AVC under, when its context has a type. *)
Definition avc_key (avc : AvcResponse_SelinuxAvc) : option string :=
  match ctxt2type (Tcontext avc) with
  | Ok ctxType => Some (Tclass avc ++ " " ++ ctxType)
  | Err _ => None
  end.

(** The permissions of the AVCs of [avcs] filed under [key]. *)
Definition perms_of (avcs : list AvcResponse_SelinuxAvc) (key : string)
    : gset string :=
  list_to_set (Perm <$> filter (fun avc => avc_key avc = Some key) avcs).

(** The error [Format] returns when a key lacks its class or its type. *)
Definition errEmptyContextOrClass : error :=
  errors_Wrap (errors_New "empty context or class")
    "writing policy line from key-value pair".

(** The allow rule of a class and a context, with the permissions of a
    set in increasing order. *)
Definition allow_line (tcontext tclass : string) (perms : gset string) : string :=
  "(allow process " ++ tcontext ++ " ( " ++ tclass ++ " ( "
    ++ Join (sort_Strings (elements perms)) " " ++ " )))" ++ LF.

(** A field that is not empty and holds no space. *)
Definition plain (s : string) : bool :=
  negb (String.eqb s "") && (count_byte " " s =? 0)%nat.

(** An AVC whose context has a type, class and type being plain. *)
Definition plain_avc (avc : AvcResponse_SelinuxAvc) : bool :=
  match ctxt2type (Tcontext avc) with
  | Ok ctxType => plain (Tclass avc) && plain ctxType
  | Err _ => false
  end.

(** The key of an AVC, empty when its context has no type. *)
Definition key_of (avc : AvcResponse_SelinuxAvc) : string :=
  default "" (avc_key avc).

(** AVCs in the order of their keys. *)
Definition avc_le : relation AvcResponse_SelinuxAvc :=
  fun a b => String.le (key_of a) (key_of b).

#[global] Instance avc_le_dec : RelDecision avc_le.
Proof. intros a b. unfold avc_le. apply _. Defined.

#[global] Instance avc_le_total : Total avc_le.
Proof. intros a b. unfold avc_le. apply (total String.le). Qed.

(** Every key of the list has permissions in the map. *)
Definition keys_have_perms (ks : list string) (m : gmap string (gset string)) : Prop :=
  forall key, key ∈ ks -> exists perms, m !! key = Some perms /\ perms <> ∅.

(** *** The event filters and [Setup] *)

(** A [runtime.Object] as the event filters see it: a pod, with the host
    IP of its status, or an object of another type. *)
Inductive runtime_Object : Type :=
| Object_Pod (p : Pod) (HostIP : string)
| Object_other.

(** [corev1.NodeAddress]. *)
Record NodeAddress : Type := {
  Type_ : string;
  Address : string;
}.

Definition errGetClient : string := "cannot get client connection".
Definition errGetNode : string := "cannot get node object".

(** [errors.Wrap] on an error that may be nil: it returns nil for nil. *)
Definition errors_Wrap_nil (err : option error) (msg : string) : option error :=
  match err with
  | Some e => Some (errors_Wrap e msg)
  | None => None
  end.

(** What the manager and the cluster answer during [Setup]: the error of
    [client.New], the addresses of the node or the error of [c.Get], and
    the error of [Complete]. *)
Record SetupEnv : Type := {
  client_New : option error;
  client_Get_Node : result (list NodeAddress);
  Complete : option error;
}.

(** What [Setup] leaves: the error returned, [r.nodeAddresses] if it was
    assigned, and whether the controller was built with the event
    filters. *)
Record SetupResult : Type := {
  setup_error : option error;
  nodeAddresses : option (list string);
  controller_built : bool;
}.

(** *** What the recorder holds about a pod *)

(** A profile the log-mode collection handles: of one of the two kinds,
    with a name. *)
Definition is_log_profile (prf : profileToCollect) : Prop :=
  (kind prf = ProfileRecordingKindSeccompProfile \/
   kind prf = ProfileRecordingKindSelinuxProfile) /\ name prf <> "".

(** Every pod watched has a profile to collect, seccomp profiles only in
    hook mode and profiles the log-mode collection handles in log mode. *)
Definition entries_sound (pods : gmap string podToWatch) : Prop :=
  forall (key : string) (p : podToWatch),
    pods !! key = Some p ->
    profiles p <> [] /\
    match recorder p with
    | ProfileRecorderHook => Forall is_seccomp (profiles p)
    | ProfileRecorderLogs => Forall is_log_profile (profiles p)
    end.



(** * The log enricher: dispatching audit lines

    Source: [internal/pkg/daemon/enricher/enricher.go].  The enricher
    reads audit lines, finds the container of each and hands the line to
    [dispatchAuditLine], which sends a metric and, for a container that
    records a profile, adds to what the recorder will later collect. *)

Module enricher.

(** The fields of [auditLine] that the dispatch reads. *)
Record auditLine : Type := {
  type_ : string;
  timestampID : string;
  systemCallID : Z;
  processID : Z;
  executable : string;
  perm : string;
  scontext : string;
  tcontext : string;
  tclass : string;
}.

Record containerInfo : Type := {
  podName : string;
  containerName : string;
  namespace : string;
  recordProfile : string;
}.

(** [apimetrics.AuditRequest]; its type is always [AuditRequest_SECCOMP]. *)
Record AuditRequest : Type := {
  Node : string;
  Namespace : string;
  Pod : string;
  Container : string;
  Executable : string;
  Syscall : string;
}.

(** What the dispatch takes from elsewhere: the two audit line types,
    the table of syscall names, and [protojson.Marshal], which returns
    bytes and an error. *)
Class Deps : Type := {
  auditTypeSelinux : string;
  auditTypeSeccomp : string;
  syscallName : Z -> result string;
  protojson_Marshal : AvcResponse_SelinuxAvc -> string * option error;
}.

(** [Enricher]: the two [sync.Map]s from a recording to its set of
    syscall names and to its set of AVCs, and the metrics sent so far on
    the stream to the metrics server.  Caches and logging are left out. *)
Record Enricher : Type := {
  syscalls : gmap string (gset string);
  avcs : gmap string (gset string);
  sent : list AuditRequest;
}.

Definition New : Enricher := {| syscalls := ∅; avcs := ∅; sent := [] |}.

(** [s, _ := m.LoadOrStore(key, sets.NewString()); s.Insert(elem)]: the
    set is shared with the map, so the insertion is seen there. *)
Definition LoadOrStore_Insert (key elem : string) (m : gmap string (gset string))
    : gmap string (gset string) :=
  <[key := {[elem]} ∪ default ∅ (m !! key)]> m.

Definition avc_of (line : auditLine) : AvcResponse_SelinuxAvc :=
  {| Perm := perm line; Tclass := tclass line;
     Scontext := scontext line; Tcontext := tcontext line |}.

(** The error of [Marshal] is logged; the bytes are stored all the same. *)
Definition dispatchSelinuxLine `{!Deps} (nodeName : string) (line : auditLine)
    (info : containerInfo) (e : Enricher) : Enricher :=
  if negb (String.eqb (recordProfile info) "")
  then
    let '(jsonBytes, _) := protojson_Marshal (avc_of line) in
    {| syscalls := syscalls e;
       avcs := LoadOrStore_Insert (recordProfile info) jsonBytes (avcs e);
       sent := sent e |}
  else e.

(** The error of [SendMetric] is logged and nothing else. *)
Definition dispatchSeccompLine `{!Deps} (nodeName : string) (line : auditLine)
    (info : containerInfo) (e : Enricher) : Enricher :=
  match syscallName (systemCallID line) with
  | Err _ => e
  | Ok name =>
      let request :=
        {| Node := nodeName; Namespace := namespace info; Pod := podName info;
           Container := containerName info; Executable := executable line;
           Syscall := name |} in
      let e := {| syscalls := syscalls e; avcs := avcs e;
                  sent := sent e ++ [request] |} in
      if negb (String.eqb (recordProfile info) "")
      then {| syscalls := LoadOrStore_Insert (recordProfile info) name (syscalls e);
              avcs := avcs e; sent := sent e |}
      else e
  end.

Definition dispatchAuditLine `{!Deps} (nodeName : string) (line : auditLine)
    (info : containerInfo) : M Enricher unit :=
  if String.eqb (type_ line) auditTypeSelinux
  then modify (dispatchSelinuxLine nodeName line info)
  else if String.eqb (type_ line) auditTypeSeccomp
  then modify (dispatchSeccompLine nodeName line info)
  else fail (errors_Errorf "unknown audit line type %s" [type_ line]).

(** The enricher after the lines that reach [dispatchAuditLine] in the
    loop of [Run], one after the other; an error is logged there and the
    loop goes on. *)
Definition dispatched `{!Deps} (nodeName : string)
    (lines : list (auditLine * containerInfo)) (e : Enricher) : Enricher :=
  fold_left (fun e l => snd (dispatchAuditLine nodeName (fst l) (snd l) e)) lines e.

(** A line that [dispatchAuditLine] handles as a seccomp line, or as an
    SELinux line. *)
Definition is_seccomp_line `{!Deps} (line : auditLine) : bool :=
  negb (String.eqb (type_ line) auditTypeSelinux)
  && String.eqb (type_ line) auditTypeSeccomp.

Definition is_selinux_line `{!Deps} (line : auditLine) : bool :=
  String.eqb (type_ line) auditTypeSelinux.

(** The syscall a line adds to the recording [profile], if any. *)
Definition syscall_for `{!Deps} (profile : string) (l : auditLine * containerInfo)
    : option string :=
  if is_seccomp_line (fst l) && String.eqb (recordProfile (snd l)) profile
  then match syscallName (systemCallID (fst l)) with
       | Ok name => Some name
       | Err _ => None
       end
  else None.

(** The AVC a line adds to the recording [profile], if any. *)
Definition avc_for `{!Deps} (profile : string) (l : auditLine * containerInfo)
    : option string :=
  if is_selinux_line (fst l) && String.eqb (recordProfile (snd l)) profile
  then Some (fst (protojson_Marshal (avc_of (fst l))))
  else None.

(** The metric a line sends, if any. *)
Definition metric_of `{!Deps} (nodeName : string) (l : auditLine * containerInfo)
    : option AuditRequest :=
  if is_seccomp_line (fst l)
  then match syscallName (systemCallID (fst l)) with
       | Ok name =>
           Some {| Node := nodeName; Namespace := namespace (snd l);
                   Pod := podName (snd l); Container := containerName (snd l);
                   Executable := executable (fst l); Syscall := name |}
       | Err _ => None
       end
  else None.

(** What a map from recordings to sets holds when the recording
    [profile] has the elements of [elems]. *)
Definition holds (elems : list string) : option (gset string) :=
  match elems with
  | [] => None
  | _ => Some (list_to_set elems)
  end.

End enricher.

Section Recorder.

Set Default Proof Using "Type".

(** Constants of the [config] package, which is not part of the sources at
    hand: every theorem holds whatever their values. *)
Variable SelinuxPermissiveProfile : string.

(** [splitkey[0]] and [splitkey[1]]; every key the builder stores holds a
    space (lemmas [keys_have_two_fields], [added_all_keys_two_fields]), so
    index 1 is in range. *)
Definition targetClassCtx (sb : seProfileBuilder) (key : string) : string * string :=
  let splitkey := Split key " " in
  let tclass := nth 0 splitkey EmptyString in
  let tcontext := nth 1 splitkey EmptyString in
  if String.eqb tcontext SelinuxPermissiveProfile
  then (tclass, usageCtx sb)
  else (tclass, tcontext).

Definition writeLineFromKeyVal (key : string) (val : option (gset string))
    : M seProfileBuilder unit :=
  (sb <- get ;;
   let '(tclass, tcontext) := targetClassCtx sb key in
   if String.eqb tclass "" || String.eqb tcontext ""
   then fail (errors_New "empty context or class")
   else
     policyLine <- wrap (lift (policyLine tclass tcontext val)) "writing policy line" ;;
     modify (WriteString policyLine))%go.

(** The body of the loop of [Format]. *)
Definition Format_body (key : string) : M seProfileBuilder unit :=
  (sb <- get ;;
   let val := permMap sb !! key in
   wrap (writeLineFromKeyVal key val) "writing policy line from key-value pair")%go.

Definition Format : M seProfileBuilder string :=
  (modify (WriteString ("(blockinherit container)" ++ LF)) ;;;
   modify (set_keys sort_Strings) ;;;
   sb <- get ;;
   for_range (keys sb) Format_body ;;;
   sb <- get ;;
   ret (policyBuilder sb))%go.

(** [formatSelinuxProfile], given the profile's [GetPolicyUsage()] and the
    AVCs of the response. *)
Definition formatSelinuxProfile (policyUsage : string)
    (avcs : list AvcResponse_SelinuxAvc) : result string :=
  let seBuilder := newSeProfileBuilder policyUsage in
  match AddAvcList avcs seBuilder with
  | (Err err, _) => Err (errors_Wrap err "consuming AVCs")
  | (Ok _, seBuilder) =>
      match Format seBuilder with
      | (Err err, _) => Err (errors_Wrap err "building policy")
      | (Ok sePol, _) => Ok sePol
      end
  end.

(** *** Annotation parsing *)

Variable SeccompProfileRecordHookAnnotationKey : string.
Variable SeccompProfileRecordLogsAnnotationKey : string.
Variable SelinuxProfileRecordLogsAnnotationKey : string.
Variable ProfileRecordingOutputPath : string.

(** [strings.TrimSpace], [filepath.IsAbs] and [filepath.Base] of Go's
    standard library: every theorem holds whatever they compute. *)
Variable TrimSpace : string -> string.
Variable IsAbs : string -> bool.
Variable Base : string -> string.

(** [SelinuxProfile.GetPolicyUsage] of the API package, from the profile's
    name and namespace. *)
Variable GetPolicyUsage : string -> string -> string.

(** The loop of [parseHookAnnotations], [res] being the profiles appended
    so far. *)
Fixpoint parseHookAnnotations_range (annotations : list (string * string))
    (res : list profileToCollect) : result (list profileToCollect) :=
  let prefix := "of:" in
  match annotations with
  | [] => Ok res
  | (key, value) :: annotations' =>
      if negb (HasPrefix key SeccompProfileRecordHookAnnotationKey)
      then parseHookAnnotations_range annotations' res
      else if negb (HasPrefix value prefix)
      then Err (errors_Wrapf (errors_New errInvalidAnnotation)
                  "must start with %q prefix" [prefix])
      else
        let outputFile := TrimSpace (TrimPrefix value prefix) in
        if negb (IsAbs outputFile)
        then Err (errors_Wrapf (errors_New errInvalidAnnotation)
                    "output file path must be absolute: %q" [outputFile])
        else if String.eqb outputFile ""
        then Err (errors_Wrap (errors_New errInvalidAnnotation)
                    "providing output file is mandatory")
        else if negb (HasPrefix outputFile ProfileRecordingOutputPath)
        then parseHookAnnotations_range annotations' res
        else parseHookAnnotations_range annotations'
               (res ++ [{| kind := ProfileRecordingKindSeccompProfile;
                           name := outputFile |}])%list
  end.

Definition parseHookAnnotations (annotations : list (string * string))
    : result (list profileToCollect) :=
  parseHookAnnotations_range annotations [].

Fixpoint parseLogAnnotations_range (annotations : list (string * string))
    (res : list profileToCollect) : result (list profileToCollect) :=
  match annotations with
  | [] => Ok res
  | (key, profile) :: annotations' =>
      let collect (k : ProfileRecordingKind) :=
        if String.eqb profile ""
        then Err (errors_Wrap (errors_New errInvalidAnnotation)
                    "providing output profile is mandatory")
        else parseLogAnnotations_range annotations'
               (res ++ [{| kind := k; name := profile |}])%list in
      if HasPrefix key SeccompProfileRecordLogsAnnotationKey
      then collect ProfileRecordingKindSeccompProfile
      else if HasPrefix key SelinuxProfileRecordLogsAnnotationKey
      then collect ProfileRecordingKindSelinuxProfile
      else parseLogAnnotations_range annotations' res
  end.

Definition parseLogAnnotations (annotations : list (string * string))
    : result (list profileToCollect) :=
  parseLogAnnotations_range annotations [].

(** One entry of the map as [parseHookAnnotations] reads it. *)
Definition hook_entry (kv : string * string) : option (result profileToCollect) :=
  let prefix := "of:" in
  let '(key, value) := kv in
  if negb (HasPrefix key SeccompProfileRecordHookAnnotationKey) then None
  else if negb (HasPrefix value prefix)
  then Some (Err (errors_Wrapf (errors_New errInvalidAnnotation)
                    "must start with %q prefix" [prefix]))
  else
    let outputFile := TrimSpace (TrimPrefix value prefix) in
    if negb (IsAbs outputFile)
    then Some (Err (errors_Wrapf (errors_New errInvalidAnnotation)
                      "output file path must be absolute: %q" [outputFile]))
    else if String.eqb outputFile ""
    then Some (Err (errors_Wrap (errors_New errInvalidAnnotation)
                      "providing output file is mandatory"))
    else if negb (HasPrefix outputFile ProfileRecordingOutputPath) then None
    else Some (Ok {| kind := ProfileRecordingKindSeccompProfile;
                     name := outputFile |}).

(** One entry of the map as [parseLogAnnotations] reads it. *)
Definition log_entry (kv : string * string) : option (result profileToCollect) :=
  let '(key, profile) := kv in
  let collect (k : ProfileRecordingKind) :=
    if String.eqb profile ""
    then Some (Err (errors_Wrap (errors_New errInvalidAnnotation)
                      "providing output profile is mandatory"))
    else Some (Ok {| kind := k; name := profile |}) in
  if HasPrefix key SeccompProfileRecordLogsAnnotationKey
  then collect ProfileRecordingKindSeccompProfile
  else if HasPrefix key SelinuxProfileRecordLogsAnnotationKey
  then collect ProfileRecordingKindSelinuxProfile
  else None.

(** *** The reconciler *)

Context {World : Type} `{!Outside World}.

Definition set_podsToWatch (f : gmap string podToWatch -> gmap string podToWatch)
    (r : RecorderReconciler World) : RecorderReconciler World :=
  {| podsToWatch := f (podsToWatch r); world := world r; trace := trace r |}.

(** One call to the outside: the outside moves on, the trace grows. *)
Definition call {A} (c : Call) (op : World -> result A * World)
    : M (RecorderReconciler World) A :=
  fun r =>
    let '(res, w) := op (world r) in
    (res, {| podsToWatch := podsToWatch r; world := w;
             trace := trace r ++ [(c, is_ok res)] |}).

(** [r.record.Event(obj, event.Normal(reason, _))] and the like. *)
Definition recordEvent (typ : EventType) (reason : string)
    : M (RecorderReconciler World) unit :=
  fun r =>
    (Ok tt, {| podsToWatch := podsToWatch r;
               world := record_Event typ reason (world r);
               trace := trace r ++ [(CallRecordEvent typ reason, true)] |}).

(** [controllerutil.CreateOrUpdate] with the event the source records on
    either outcome and the wrapped error it returns on failure. *)
Definition createOrUpdate (profile : Object) (wrapMsg createdMsg : string)
    : M (RecorderReconciler World) unit :=
  fun r =>
    match call (CallCreateOrUpdate profile)
            (controllerutil_CreateOrUpdate profile) r with
    | (Err err, r') =>
        (Err (errors_Wrap err wrapMsg),
         snd (recordEvent Warning reasonProfileCreationFailed r'))
    | (Ok _, r') => recordEvent Normal reasonProfileCreated r'
    end.

Definition collectLocalProfiles (n : NamespacedName)
    (profiles : list profileToCollect) : M (RecorderReconciler World) unit :=
  for_range profiles (fun prf =>
    let profilePath := name prf in
    match kind prf with
    | ProfileRecordingKindSeccompProfile =>
        (data <- wrap (call (CallReadFile profilePath)
                         (ioutil_ReadFile profilePath)) "read profile" ;;
         profileName <- wrap (lift (extractProfileName (Base profilePath)))
                          "extract profile name" ;;
         createOrUpdate (SeccompProfileOfJSON profileName (Namespace n) data)
           "create seccompProfile resource" "seccomp profile created")%go
    | _ => fail (errors_New "only seccomp profiles supported via a hook")
    end).

Definition collectLogSeccompProfile (profileName namespace profileID : string)
    : M (RecorderReconciler World) unit :=
  fun r =>
    match call (CallSyscalls profileID) (enricherClient_Syscalls profileID) r with
    | (Err err, r) =>
        (Err (errors_Wrapf err "retrieve syscalls for profile %s" [profileID]), r)
    | (Ok response, r) =>
        match createOrUpdate
                (SeccompProfileOfSyscalls profileName namespace response)
                "create seccompProfile resource" "seccomp profile created" r with
        | (Err err, r) => (Err err, r)
        | (Ok _, r) =>
            match call (CallResetSyscalls profileID)
                    (enricherClient_ResetSyscalls profileID) r with
            | (Err err, r) =>
                (Err (errors_Wrapf err "reset syscalls for profile %s" [profileID]), r)
            | (Ok _, r) => (Ok tt, r)
            end
        end
    end.

Definition collectLogSelinuxProfile (profileName namespace profileID : string)
    : M (RecorderReconciler World) unit :=
  fun r =>
    match call (CallAvcs profileID) (enricherClient_Avcs profileID) r with
    | (Err err, r) =>
        (Err (errors_Wrapf err "retrieve avcs for profile %s" [profileID]), r)
    | (Ok response, r) =>
        match formatSelinuxProfile (GetPolicyUsage profileName namespace) response with
        | Err err =>
            (Err (errors_Wrap err "format selinuxprofile resource"),
             snd (recordEvent Warning reasonProfileCreationFailed r))
        | Ok policy =>
            match createOrUpdate
                    (SelinuxProfileOfPolicy profileName namespace policy)
                    "create selinuxprofile resource"
                    "selinuxprofile profile created" r with
            | (Err err, r) => (Err err, r)
            | (Ok _, r) =>
                match call (CallResetAvcs profileID)
                        (enricherClient_ResetAvcs profileID) r with
                | (Err err, r) =>
                    (Err (errors_Wrapf err "reset selinuxprofile for profile %s"
                            [profileName]), r)
                | (Ok _, r) => (Ok tt, r)
                end
            end
        end
    end.

(** The body of the loop of [collectLogProfiles]. *)
Definition collectLogProfiles_body (n : NamespacedName) (prf : profileToCollect)
    : M (RecorderReconciler World) unit :=
  (profileName <- wrap (lift (extractProfileName (name prf)))
                    "extract profile name" ;;
   match kind prf with
   | ProfileRecordingKindSeccompProfile =>
       collectLogSeccompProfile profileName (Namespace n) (name prf)
   | ProfileRecordingKindSelinuxProfile =>
       collectLogSelinuxProfile profileName (Namespace n) (name prf)
   | ProfileRecordingKindOther k =>
       fail (errors_Errorf "unrecognized kind %s" [k])
   end)%go.

(** Closing the connection when the function returns is left out. *)
Definition collectLogProfiles (n : NamespacedName)
    (profiles : list profileToCollect) : M (RecorderReconciler World) unit :=
  (spod <- wrap (call CallGetSPOD client_Get_SPOD) "getting SPOD config" ;;
   if negb (EnableLogEnricher spod)
   then fail (errors_New "log enricher not enabled")
   else
     wrap (call CallDial enricher_Dial) "connecting to local GRPC server" ;;;
     for_range profiles (collectLogProfiles_body n))%go.

(** The [sync.Map] only ever holds [podToWatch] values, so the type
    assertion of the source cannot fail. *)
Definition collectProfile (n : NamespacedName) : M (RecorderReconciler World) unit :=
  (r <- get ;;
   match podsToWatch r !! NamespacedName_String n with
   | None => ret tt
   | Some podToWatch =>
       match recorder podToWatch with
       | ProfileRecorderHook =>
           wrap (collectLocalProfiles n (profiles podToWatch)) "collect local profile"
       | _ => ret tt
       end ;;;
       match recorder podToWatch with
       | ProfileRecorderLogs =>
           wrap (collectLogProfiles n (profiles podToWatch)) "collect log profile"
       | _ => ret tt
       end ;;;
       modify (set_podsToWatch (delete (NamespacedName_String n)))
   end)%go.

(** What [Reconcile] does for a pod in Pending phase. *)
Definition reconcilePending (req : NamespacedName) (pod : Pod)
    : M (RecorderReconciler World) unit :=
  (r <- get ;;
   match podsToWatch r !! NamespacedName_String req with
   | Some _ => ret tt
   | None =>
       match parseHookAnnotations (Annotations pod) with
       | Err err => recordEvent Warning reasonAnnotationParsing
       | Ok hookProfiles =>
           match parseLogAnnotations (Annotations pod) with
           | Err err => recordEvent Warning reasonAnnotationParsing
           | Ok logProfiles =>
               let store (recorder : ProfileRecorder) (profiles : list profileToCollect) :=
                 modify (set_podsToWatch
                           <[NamespacedName_String req :=
                               {| recorder := recorder; profiles := profiles |}]>) ;;;
                 recordEvent Normal reasonProfileRecording in
               if (0 <? List.length hookProfiles)%nat
               then store ProfileRecorderHook hookProfiles
               else if (0 <? List.length logProfiles)%nat
               then store ProfileRecorderLogs logProfiles
               else ret tt
           end
       end
   end)%go.

(** [Reconcile].  The two tests of [pod.Status.Phase] read the same value,
    so they are one case distinction; every early return of the Pending
    block returns nil, as falling through does. *)
Definition Reconcile (req : NamespacedName) : M (RecorderReconciler World) unit :=
  fun r =>
    let '(got, w) := client_Get_Pod req (world r) in
    let found := match got with GetFound _ => true | _ => false end in
    let r := {| podsToWatch := podsToWatch r; world := w;
                trace := trace r ++ [(CallGetPod req, found)] |} in
    let after (pod : Pod) : M (RecorderReconciler World) unit :=
      match Phase pod with
      | PodPending => reconcilePending req pod
      | PodSucceeded => wrap (collectProfile req) "collect profile for succeeded pod"
      | _ => ret tt
      end in
    match got with
    | GetFound pod => after pod r
    | GetNotFound _ =>
        bind (wrap (collectProfile req) "collect profile for removed pod")
          (fun _ => after zeroPod) r
    | GetError err => (Err (errors_Wrap err errGetPod), r)
    end.

(** The recorder after [Reconcile] of each request of the list in turn,
    whether they return errors or not. *)
Definition reconciled (r : RecorderReconciler World) (reqs : list NamespacedName)
    : RecorderReconciler World :=
  fold_left (fun r req => snd (Reconcile req r)) reqs r.

(** The line of the policy for the key of [avc], with the permissions
    that the AVCs of [avcs] file under that key. *)
Definition avc_line (policyUsage : string) (avcs : list AvcResponse_SelinuxAvc)
    (avc : AvcResponse_SelinuxAvc) : string :=
  match ctxt2type (Tcontext avc) with
  | Ok ctxType =>
      allow_line
        (if String.eqb ctxType SelinuxPermissiveProfile then policyUsage else ctxType)
        (Tclass avc) (perms_of avcs (Tclass avc ++ " " ++ ctxType))
  | Err _ => ""
  end.

(** The line [Format] writes for a key of the builder. *)
Definition key_line (sb : seProfileBuilder) (key : string) : string :=
  allow_line (snd (targetClassCtx sb key)) (fst (targetClassCtx sb key))
    (default ∅ (permMap sb !! key)).

(** *** The event filters and [Setup] *)

Definition isPodWithTraceAnnotation (obj : runtime_Object) : bool :=
  match obj with
  | Object_other => false
  | Object_Pod p _ =>
      existsb (fun kv =>
                 HasPrefix (fst kv) SeccompProfileRecordHookAnnotationKey
                 || HasPrefix (fst kv) SelinuxProfileRecordLogsAnnotationKey
                 || HasPrefix (fst kv) SeccompProfileRecordLogsAnnotationKey)
        (Annotations p)
  end.

(** [isPodOnLocalNode], given [r.nodeAddresses]. *)
Definition isPodOnLocalNode (nodeAddresses : list string) (obj : runtime_Object)
    : bool :=
  match obj with
  | Object_other => false
  | Object_Pod _ HostIP => existsb (String.eqb HostIP) nodeAddresses
  end.

(** [corev1.NodeInternalIP]. *)
Variable NodeInternalIP : string.

(** The loop of [Setup] over the addresses of the node, which leaves at
    the first internal one. *)
Fixpoint Setup_range (addresses : list NodeAddress) (nodeAddresses : list string)
    : list string :=
  match addresses with
  | [] => nodeAddresses
  | addr :: addresses' =>
      if String.eqb (Type_ addr) NodeInternalIP
      then (nodeAddresses ++ [Address addr])%list
      else Setup_range addresses' nodeAddresses
  end.

(** [Setup].  After [client.New] succeeded [err] is nil, and it is this
    [err] that the source wraps when the node cannot be read. *)
Definition Setup (env : SetupEnv) : SetupResult :=
  match client_New env with
  | Some err =>
      {| setup_error := Some (errors_Wrap err errGetClient);
         nodeAddresses := None; controller_built := false |}
  | None =>
      let err : option error := None in
      match client_Get_Node env with
      | Err _ =>
          {| setup_error := errors_Wrap_nil err errGetNode;
             nodeAddresses := None; controller_built := false |}
      | Ok addresses =>
          let addrs := Setup_range addresses [] in
          if (List.length addrs =? 0)%nat
          then {| setup_error :=
                    Some (errors_New "Unable to get node's internal Address");
                  nodeAddresses := None; controller_built := false |}
          else {| setup_error := Complete env;
                  nodeAddresses := Some addrs; controller_built := true |}
      end
  end.

(** ** Facts about the string functions *)

Lemma append_cons (a : ascii) (s t : string) :
  String a s ++ t = String a (s ++ t).
Proof. reflexivity. Qed.

Lemma append_nil_l (s : string) : "" ++ s = s.
Proof. reflexivity. Qed.

Lemma count_byte_append (c : ascii) (s t : string) :
  count_byte c (s ++ t) = count_byte c s + count_byte c t.
Proof.
  induction s as [|a s IH]; [reflexivity|].
  rewrite append_cons. simpl. rewrite IH. lia.
Qed.

Lemma prefix_byte (c a : ascii) (s : string) :
  String.prefix (String c "") (String a s) = Ascii.eqb a c.
Proof.
  simpl. destruct (ascii_dec c a) as [->|Hne].
  - rewrite Ascii.eqb_refl. now destruct s.
  - symmetry. apply Ascii.eqb_neq. congruence.
Qed.

Lemma substring_append_l (p r : string) :
  substring 0 (String.length p) (p ++ r) = p.
Proof.
  induction p as [|a p IH].
  - now destruct r.
  - rewrite append_cons. cbn [String.length substring]. now rewrite IH.
Qed.

(** A string without the byte [c] has no last index of it. *)
Lemma LastIndex_absent (c : ascii) (s : string) :
  count_byte c s = 0 -> LastIndex s (String c "") = (-1)%Z.
Proof.
  induction s as [|a s IH]; intros Hc; [reflexivity|].
  cbn [LastIndex]. simpl in Hc. rewrite prefix_byte.
  destruct (Ascii.eqb a c); [discriminate|].
  rewrite IH by lia. reflexivity.
Qed.

Lemma LastIndex_ge (c : ascii) (s : string) :
  (-1 <= LastIndex s (String c ""))%Z.
Proof.
  induction s as [|a s IH]; cbn [LastIndex]; [simpl; lia|].
  destruct (0 <=? LastIndex s (String c ""))%Z eqn:E; [lia|].
  destruct (String.prefix _ _); lia.
Qed.

(** The last index of [c] in [p ++ c ++ q], [q] without [c], is the
    length of [p]. *)
Lemma LastIndex_last (c : ascii) (p q : string) :
  count_byte c q = 0 ->
  LastIndex (p ++ String c q) (String c "") = Z.of_nat (String.length p).
Proof.
  intros Hq. induction p as [|a p IH].
  - rewrite append_nil_l. cbn [LastIndex].
    rewrite (LastIndex_absent c q Hq), prefix_byte, Ascii.eqb_refl. reflexivity.
  - rewrite append_cons. cbn [LastIndex]. rewrite IH.
    replace (0 <=? Z.of_nat (String.length p))%Z with true
      by (symmetry; apply Z.leb_le; lia).
    cbn [String.length]. lia.
Qed.

(** A string with the byte [c] splits at its last occurrence. *)
Lemma split_at_last (c : ascii) (s : string) :
  count_byte c s <> 0 ->
  exists p q, s = p ++ String c q /\ count_byte c q = 0.
Proof.
  induction s as [|a s IH]; intros Hc; [easy|].
  destruct (Nat.eq_dec (count_byte c s) 0) as [Hz|Hnz].
  - simpl in Hc. destruct (Ascii.eqb a c) eqn:E; [|lia].
    apply Ascii.eqb_eq in E as ->. now exists "", s.
  - destruct (IH Hnz) as (p & q & -> & Hq).
    exists (String a p), q. now rewrite append_cons.
Qed.

(** A string with the byte [c] splits at its first occurrence. *)
Lemma split_at_first (c : ascii) (s : string) :
  count_byte c s <> 0 ->
  exists p q, s = p ++ String c q /\ count_byte c p = 0.
Proof.
  induction s as [|a s IH]; intros Hc; [easy|].
  simpl in Hc. destruct (Ascii.eqb a c) eqn:E.
  - apply Ascii.eqb_eq in E as ->. now exists "", s.
  - destruct IH as (p & q & -> & Hp); [lia|].
    exists (String a p), q. rewrite append_cons. simpl. now rewrite E.
Qed.

Lemma Split_length (c : ascii) (s : string) :
  List.length (Split s c) = S (count_byte c s).
Proof.
  induction s as [|a s IH]; [reflexivity|].
  simpl. destruct (Ascii.eqb a c); simpl; [now rewrite IH|].
  destruct (Split s c); simpl in *; lia.
Qed.

Lemma Split_absent (c : ascii) (s : string) :
  count_byte c s = 0 -> Split s c = [s].
Proof.
  induction s as [|a s IH]; intros Hc; [reflexivity|].
  simpl in *. destruct (Ascii.eqb a c); [discriminate|].
  now rewrite IH.
Qed.

(** The first field ends at the first separator. *)
Lemma Split_first (c : ascii) (p q : string) :
  count_byte c p = 0 -> Split (p ++ String c q) c = p :: Split q c.
Proof.
  induction p as [|a p IH]; intros Hc.
  - rewrite append_nil_l. simpl. now rewrite Ascii.eqb_refl.
  - rewrite append_cons. simpl in *.
    destruct (Ascii.eqb a c); [discriminate|]. now rewrite IH.
Qed.

Lemma concat_cons (sep x y : string) (l : list string) :
  String.concat sep (x :: y :: l) = x ++ sep ++ String.concat sep (y :: l).
Proof. reflexivity. Qed.

(** Joining the fields with the separator gives the string back. *)
Lemma Join_Split (c : ascii) (s : string) :
  Join (Split s c) (String c "") = s.
Proof.
  unfold Join. induction s as [|a s IH]; [reflexivity|].
  pose proof (Split_length c s) as Hl.
  cbn [Split]. destruct (Ascii.eqb a c) eqn:E.
  - apply Ascii.eqb_eq in E as ->.
    destruct (Split s c) as [|f fs]; [discriminate|].
    rewrite concat_cons, IH. reflexivity.
  - destruct (Split s c) as [|f [|g fs]]; [discriminate| |].
    + simpl in *. now rewrite IH.
    + rewrite concat_cons in *. rewrite <- IH. reflexivity.
Qed.

Lemma Split_fields (c : ascii) (s : string) :
  Forall (fun field => count_byte c field = 0) (Split s c).
Proof.
  induction s as [|a s IH]; [now constructor|].
  cbn [Split]. destruct (Ascii.eqb a c) eqn:E; [now constructor|].
  destruct (Split s c) as [|f fs].
  - constructor; [|constructor]. simpl. now rewrite E.
  - inversion IH; subst. constructor; [|assumption].
    simpl. now rewrite E.
Qed.

(** ** [extractProfileName] *)

(** C5. For every string [s]: either [s] holds no "-" and
    [extractProfileName s] fails, or [s] is [p ++ "-" ++ q] with no "-" in
    [q], and [extractProfileName s] returns [p], the prefix of [s] that
    ends before the last "-". *)
Theorem extractProfileName_last_dash (s : string) :
  (count_byte "-" s = 0 /\
   extractProfileName s = Err (errors_Errorf "malformed profile path: %s" [s]))
  \/
  (exists p q, s = p ++ "-" ++ q /\ count_byte "-" q = 0 /\
               extractProfileName s = Ok p).
Proof.
  unfold extractProfileName.
  destruct (Nat.eq_dec (count_byte "-" s) 0) as [Hz|Hnz].
  - left. split; [assumption|].
    change "-" with (String "-"%char ""). now rewrite LastIndex_absent.
  - right. destruct (split_at_last _ _ Hnz) as (p & q & -> & Hq).
    exists p, q. split; [reflexivity|]. split; [assumption|].
    change "-" with (String "-"%char "").
    rewrite (LastIndex_last _ p q Hq).
    replace (Z.of_nat (String.length p) =? -1)%Z with false
      by (symmetry; apply Z.eqb_neq; lia).
    now rewrite Nat2Z.id, substring_append_l.
Qed.

(** ** [ctxt2type] and [addAvc] *)

Lemma ctxt2type_malformed (ctx : string) :
  count_byte ":" ctx < 2 ->
  ctxt2type ctx = Err (errors_New "Malformed SELinux context").
Proof.
  intros Hc. unfold ctxt2type. rewrite Split_length.
  unfold seContextRequiredParts.
  destruct (Nat.ltb_spec (S (count_byte ":" ctx)) 3); [reflexivity|lia].
Qed.

(** A context with at least two ":" is [user:role:ty] followed by nothing
    or by ":" and more, and its type is [ty]. *)
Lemma ctxt2type_third_field (ctx : string) :
  2 <= count_byte ":" ctx ->
  exists user role ty rest,
    ctx = user ++ ":" ++ role ++ ":" ++ ty ++ rest /\
    count_byte ":" user = 0 /\ count_byte ":" role = 0 /\
    count_byte ":" ty = 0 /\
    (rest = "" \/ exists level, rest = ":" ++ level) /\
    ctxt2type ctx = Ok ty.
Proof.
  intros Hc.
  destruct (split_at_first ":" ctx) as (user & q1 & -> & Hu); [lia|].
  rewrite count_byte_append in Hc. cbn [count_byte] in Hc.
  rewrite Hu, Ascii.eqb_refl in Hc.
  destruct (split_at_first ":" q1) as (role & q2 & -> & Hr); [lia|].
  assert (exists ty rest, q2 = ty ++ rest /\ count_byte ":" ty = 0 /\
            (rest = "" \/ exists level, rest = ":" ++ level) /\
            nth 0 (Split q2 ":") "" = ty) as (ty & rest & -> & Ht & Hrest & Hn).
  { destruct (Nat.eq_dec (count_byte ":" q2) 0) as [Hz|Hnz].
    - exists q2, "". rewrite (Split_absent _ _ Hz).
      repeat split; auto. clear. induction q2 as [|a q IH]; [reflexivity|].
      rewrite append_cons. now rewrite <- IH.
    - destruct (split_at_first ":" q2 Hnz) as (ty & level & -> & Ht).
      exists ty, (":" ++ level). rewrite (Split_first _ _ _ Ht).
      repeat split; eauto. }
  exists user, role, ty, rest. repeat split; auto.
  unfold ctxt2type.
  change (":" ++ role ++ ":" ++ ty ++ rest)
    with (String ":"%char (role ++ String ":"%char (ty ++ rest))).
  rewrite (Split_first _ _ _ Hu), (Split_first _ _ _ Hr).
  cbn [List.length]. unfold seContextRequiredParts.
  destruct (Nat.ltb_spec (S (S (List.length (Split (ty ++ rest) ":")))) 3) as [Hl|_].
  - rewrite Split_length in Hl. lia.
  - cbn [nth]. now rewrite Hn.
Qed.

Lemma addAvc_ok (avc : AvcResponse_SelinuxAvc) (sb : seProfileBuilder) (ty : string) :
  ctxt2type (Tcontext avc) = Ok ty ->
  addAvc avc sb =
    (Ok tt,
     {| permMap :=
          <[(Tclass avc ++ " " ++ ty)%string :=
              match permMap sb !! (Tclass avc ++ " " ++ ty)%string with
              | Some perms => perms ∪ {[Perm avc]}
              | None => {[Perm avc]}
              end]> (permMap sb);
        keys := (keys sb ++ [(Tclass avc ++ " " ++ ty)%string])%list;
        usageCtx := usageCtx sb;
        policyBuilder := policyBuilder sb |}).
Proof.
  intros Ht. unfold addAvc, bind, wrap, lift, get, modify. rewrite Ht.
  cbn. now destruct (permMap sb !! _).
Qed.

Lemma addAvc_err (avc : AvcResponse_SelinuxAvc) (sb : seProfileBuilder) (e : error) :
  ctxt2type (Tcontext avc) = Err e ->
  addAvc avc sb = (Err (errors_Wrap e "converting context to type"), sb).
Proof.
  intros Ht. unfold addAvc, bind, wrap, lift. now rewrite Ht.
Qed.

(** C6. An AVC whose target context has fewer than three ":"-separated
    parts (fewer than two ":") is refused by [addAvc] with the wrapped
    error "Malformed SELinux context", the builder unchanged; for a target
    context with three parts or more, [user:role:ty] and what may follow,
    the type derived is the third field [ty], and [addAvc] succeeds and
    appends the key made of the class and [ty]. *)
Theorem addAvc_context_type (avc : AvcResponse_SelinuxAvc) (sb : seProfileBuilder) :
  List.length (Split (Tcontext avc) ":") = S (count_byte ":" (Tcontext avc)) /\
  ((List.length (Split (Tcontext avc) ":") < 3 /\
    ctxt2type (Tcontext avc) = Err (errors_New "Malformed SELinux context") /\
    addAvc avc sb =
      (Err (errors_Wrap (errors_New "Malformed SELinux context")
              "converting context to type"), sb))
   \/
   (3 <= List.length (Split (Tcontext avc) ":") /\
    exists user role ty rest,
      Tcontext avc = user ++ ":" ++ role ++ ":" ++ ty ++ rest /\
      count_byte ":" user = 0 /\ count_byte ":" role = 0 /\
      count_byte ":" ty = 0 /\
      (rest = "" \/ exists level, rest = ":" ++ level) /\
      ctxt2type (Tcontext avc) = Ok ty /\
      fst (addAvc avc sb) = Ok tt /\
      keys (snd (addAvc avc sb)) =
        (keys sb ++ [(Tclass avc ++ " " ++ ty)%string])%list)).
Proof.
  split; [apply Split_length|]. rewrite Split_length.
  destruct (Nat.lt_ge_cases (count_byte ":" (Tcontext avc)) 2) as [Hlt|Hge].
  - left. pose proof (ctxt2type_malformed _ Hlt) as He.
    split; [lia|]. split; [assumption|]. now apply addAvc_err.
  - right. split; [lia|].
    destruct (ctxt2type_third_field _ Hge)
      as (user & role & ty & rest & Hctx & Hu & Hr & Ht & Hrest & Hty).
    exists user, role, ty, rest. rewrite (addAvc_ok _ _ _ Hty).
    repeat split; assumption.
Qed.

(** ** [policyLine] *)

Lemma sort_Strings_Sorted (l : list string) : Sorted String.le (sort_Strings l).
Proof. apply (Sorted_merge_sort String.le). Qed.

Lemma sort_Strings_Permutation (l : list string) : sort_Strings l ≡ₚ l.
Proof. apply (merge_sort_Permutation String.le). Qed.

(** The sorted form of a list is determined by its elements and their
    multiplicities. *)
Lemma sort_Strings_unique (l1 l2 : list string) :
  l1 ≡ₚ l2 -> sort_Strings l1 = sort_Strings l2.
Proof.
  intros Hp. apply (Sorted_unique String.le); try apply sort_Strings_Sorted.
  now rewrite !sort_Strings_Permutation.
Qed.

Lemma sort_Strings_sorted_id (l : list string) :
  Sorted String.le l -> sort_Strings l = l.
Proof.
  intros Hs. apply (Sorted_unique String.le); auto using sort_Strings_Sorted.
  apply sort_Strings_Permutation.
Qed.

(** C8. For every class and context: from a nil or empty permission set
    [policyLine] fails; from a non-empty one it returns the allow line
    whose permissions are those of the set, each once, in increasing
    order and joined by single spaces. *)
Theorem policyLine_sorted_perms (tclass tcontext : string)
    (perms : option (gset string)) :
  ((perms = None \/ perms = Some ∅) /\
   policyLine tclass tcontext perms =
     Err (errors_New "nil permissions set or no permissions"))
  \/
  (exists (s : gset string) (l : list string),
     perms = Some s /\ s <> ∅ /\
     policyLine tclass tcontext perms =
       Ok ("(allow process " ++ tcontext ++ " ( " ++ tclass ++ " ( "
             ++ Join l " " ++ " )))" ++ LF) /\
     Sorted String.le l /\ NoDup l /\ forall p, p ∈ l <-> p ∈ s).
Proof.
  destruct perms as [s|]; [|left; auto].
  destruct (decide (s = ∅)) as [->|Hne]; [left; auto|].
  right. exists s, (sort_Strings (sets_List s)).
  split; [reflexivity|]. split; [assumption|]. split.
  - unfold policyLine.
    destruct (Nat.eqb_spec (size s) 0) as [Hz|_]; [|reflexivity].
    now apply size_empty_iff, leibniz_equiv in Hz.
  - assert (sort_Strings (sets_List s) ≡ₚ elements s) as Hp.
    { unfold sets_List. now rewrite !sort_Strings_Permutation. }
    split; [apply sort_Strings_Sorted|]. split.
    + rewrite Hp. apply NoDup_elements.
    + intros p. rewrite Hp. apply elem_of_elements.
Qed.

(** ** The policy builder as a function of the AVCs *)

Lemma same_content_refl (a : seProfileBuilder) : same_content a a.
Proof. now repeat split. Qed.

Lemma same_content_trans (a b c : seProfileBuilder) :
  same_content a b -> same_content b c -> same_content a c.
Proof.
  intros (? & ? & ? & ?) (? & ? & ? & ?).
  unfold same_content. split_and!; [congruence| |congruence|congruence].
  etrans; eassumption.
Qed.

Lemma ctxt2type_error (ctx : string) (e : error) :
  ctxt2type ctx = Err e -> e = errors_New "Malformed SELinux context".
Proof.
  unfold ctxt2type. destruct (_ <? _)%nat; congruence.
Qed.

Lemma added_same_content (avc : AvcResponse_SelinuxAvc) (a b : seProfileBuilder) :
  same_content a b -> same_content (added a avc) (added b avc).
Proof.
  intros (Hm & Hk & Hu & Hp). unfold added.
  destruct (ctxt2type (Tcontext avc)) as [ty|e] eqn:Ht.
  - rewrite !(addAvc_ok _ _ _ Ht). unfold same_content. cbn. rewrite Hm.
    split_and!; auto. now apply Permutation_app_tail.
  - rewrite !(addAvc_err _ _ _ Ht). cbn. unfold same_content. auto.
Qed.

(** Adding two AVCs in either order gives the same sets of permissions. *)
Lemma added_swap (x y : AvcResponse_SelinuxAvc) (sb : seProfileBuilder) :
  same_content (added (added sb x) y) (added (added sb y) x).
Proof.
  unfold added.
  destruct (ctxt2type (Tcontext x)) as [tx|ex] eqn:Hx;
    destruct (ctxt2type (Tcontext y)) as [ty|ey] eqn:Hy;
    rewrite ?(addAvc_ok _ _ _ Hx), ?(addAvc_ok _ _ _ Hy),
      ?(addAvc_err _ _ _ Hx), ?(addAvc_err _ _ _ Hy); cbn;
    rewrite ?(addAvc_ok _ _ _ Hx), ?(addAvc_ok _ _ _ Hy),
      ?(addAvc_err _ _ _ Hx), ?(addAvc_err _ _ _ Hy); cbn;
    try apply same_content_refl.
  remember (Tclass x ++ " " ++ tx)%string as kx eqn:Ex.
  remember (Tclass y ++ " " ++ ty)%string as ky eqn:Ey.
  clear Ex Ey Hx Hy.
  unfold same_content; cbn; split_and!; [| |reflexivity|reflexivity].
  - apply map_eq. intros k.
    destruct (decide (kx = ky)) as [Heq|Hne].
    + subst ky. rewrite !lookup_insert_eq.
      destruct (decide (kx = k)) as [Hk|Hk].
      * subst k. rewrite !lookup_insert_eq. f_equal.
        destruct (permMap sb !! kx) as [perms|].
        -- now rewrite <- !(assoc_L (∪)), (comm_L (∪) {[Perm x]}).
        -- apply (comm_L (∪)).
      * now rewrite !lookup_insert_ne.
    + rewrite !(lookup_insert_ne _ kx ky), !(lookup_insert_ne _ ky kx) by auto.
      destruct (decide (ky = k)) as [Hky|Hky];
        destruct (decide (kx = k)) as [Hkx|Hkx]; try congruence.
      * subst k. now rewrite !lookup_insert_eq, lookup_insert_ne, lookup_insert_eq.
      * subst k. now rewrite !lookup_insert_eq, lookup_insert_ne, lookup_insert_eq.
      * now rewrite !lookup_insert_ne.
  - rewrite <- !app_assoc. apply Permutation_app_head. cbn. apply perm_swap.
Qed.

Lemma added_all_same_content (avcs : list AvcResponse_SelinuxAvc)
    (a b : seProfileBuilder) :
  same_content a b -> same_content (added_all a avcs) (added_all b avcs).
Proof.
  revert a b. induction avcs as [|x l IH]; intros a b Hab; [assumption|].
  cbn. apply IH. now apply added_same_content.
Qed.

Lemma added_all_Permutation (l1 l2 : list AvcResponse_SelinuxAvc)
    (sb : seProfileBuilder) :
  l1 ≡ₚ l2 -> same_content (added_all sb l1) (added_all sb l2).
Proof.
  intros Hp. revert sb. induction Hp as [|x l l' _ IH|x y l|l l' l'' _ IH1 _ IH2];
    intros sb; cbn.
  - apply same_content_refl.
  - apply IH.
  - apply added_all_same_content, added_swap.
  - eapply same_content_trans; [apply IH1|apply IH2].
Qed.

(** [AddAvcList] succeeds exactly on the well-formed lists, and fails with
    one and the same error on the others. *)
Lemma AddAvcList_result (avcs : list AvcResponse_SelinuxAvc) (sb : seProfileBuilder) :
  if well_formed avcs
  then AddAvcList avcs sb = (Ok tt, added_all sb avcs)
  else fst (AddAvcList avcs sb) = Err errAddAvc.
Proof.
  revert sb. induction avcs as [|x l IH]; intros sb; [reflexivity|].
  cbn [well_formed forallb].
  destruct (ctxt2type (Tcontext x)) as [ty|e] eqn:Hx; cbn [is_ok andb].
  - assert (AddAvcList (x :: l) sb = AddAvcList l (added sb x)) as Hstep.
    { unfold AddAvcList, added. cbn [for_range]. unfold bind at 1, wrap.
      now rewrite (addAvc_ok _ _ _ Hx). }
    rewrite Hstep. change (added_all sb (x :: l)) with (added_all (added sb x) l).
    apply IH.
  - unfold AddAvcList. cbn [for_range]. unfold bind at 1, wrap.
    rewrite (addAvc_err _ _ _ Hx). cbn.
    apply ctxt2type_error in Hx as ->. reflexivity.
Qed.

Lemma well_formed_Permutation (l1 l2 : list AvcResponse_SelinuxAvc) :
  l1 ≡ₚ l2 -> well_formed l1 = well_formed l2.
Proof.
  unfold well_formed.
  induction 1 as [|x l l' _ IH|x y l|l l' l'' _ IH1 _ IH2]; cbn;
    try congruence.
  destruct (is_ok _), (is_ok _); reflexivity.
Qed.

(** [Format] does not depend on the order of the keys it is given. *)
Lemma Format_same_content (a b : seProfileBuilder) :
  same_content a b -> fst (Format a) = fst (Format b).
Proof.
  intros (Hm & Hk & Hu & Hp).
  assert (set_keys sort_Strings (WriteString ("(blockinherit container)" ++ LF) a)
          = set_keys sort_Strings (WriteString ("(blockinherit container)" ++ LF) b))
    as Heq.
  { unfold set_keys, WriteString. cbn [permMap keys usageCtx policyBuilder].
    rewrite Hm, Hu, Hp, (sort_Strings_unique _ _ Hk). reflexivity. }
  unfold Format, bind at 1 2, modify at 1 2. cbn beta iota. rewrite Heq.
  reflexivity.
Qed.

(** C2. The policy builder is a function of the usage context and of
    the multiset of AVCs: two runs on a fresh builder ([AddAvcList], then
    [Format]) over lists holding the same AVCs with the same
    multiplicities, in any order, give the same outcome, byte for byte. *)
Theorem formatSelinuxProfile_deterministic (policyUsage : string)
    (avcs1 avcs2 : list AvcResponse_SelinuxAvc) :
  Permutation avcs1 avcs2 ->
  formatSelinuxProfile policyUsage avcs1 = formatSelinuxProfile policyUsage avcs2.
Proof.
  intros Hp. unfold formatSelinuxProfile.
  pose proof (AddAvcList_result avcs1 (newSeProfileBuilder policyUsage)) as H1.
  pose proof (AddAvcList_result avcs2 (newSeProfileBuilder policyUsage)) as H2.
  rewrite (well_formed_Permutation _ _ Hp) in H1.
  destruct (well_formed avcs2).
  - rewrite H1, H2.
    pose proof (Format_same_content _ _
                  (added_all_Permutation _ _ (newSeProfileBuilder policyUsage) Hp))
      as Hf.
    destruct (Format (added_all _ avcs1)) as [r1 s1].
    destruct (Format (added_all _ avcs2)) as [r2 s2].
    cbn in Hf. now subst r2.
  - destruct (AddAvcList avcs1 _) as [r1 s1], (AddAvcList avcs2 _) as [r2 s2].
    cbn in H1, H2. now subst.
Qed.

(** ** One line for each AVC *)

Lemma policyLine_LF (tclass tcontext line : string) (perms : option (gset string)) :
  policyLine tclass tcontext perms = Ok line -> 1 <= count_byte "010" line.
Proof.
  unfold policyLine. destruct perms as [s|]; [|discriminate].
  destruct (size s =? 0)%nat; [discriminate|].
  intros [= <-]. rewrite !count_byte_append. cbn [LF count_byte Ascii.eqb].
  simpl. lia.
Qed.

Lemma writeLineFromKeyVal_LF (key : string) (val : option (gset string))
    (sb sb' : seProfileBuilder) :
  writeLineFromKeyVal key val sb = (Ok tt, sb') ->
  S (count_byte "010" (policyBuilder sb)) <= count_byte "010" (policyBuilder sb').
Proof.
  unfold writeLineFromKeyVal, bind, get, wrap, lift, modify, fail.
  destruct (targetClassCtx sb key) as [tclass tcontext].
  destruct (_ || _); [discriminate|].
  destruct (policyLine tclass tcontext val) as [line|e] eqn:Hl; [|discriminate].
  intros [= <-]. cbn. rewrite count_byte_append.
  apply policyLine_LF in Hl. lia.
Qed.

Lemma Format_range_LF (ks : list string) (sb sb' : seProfileBuilder) :
  for_range ks Format_body sb = (Ok tt, sb') ->
  List.length ks + count_byte "010" (policyBuilder sb)
    <= count_byte "010" (policyBuilder sb').
Proof.
  revert sb. induction ks as [|k ks IH]; intros sb.
  - intros [= <-]. simpl. lia.
  - cbn [for_range]. unfold bind at 1. unfold Format_body at 1.
    unfold bind at 1, get at 1, wrap at 1.
    destruct (writeLineFromKeyVal k _ sb) as [[[]|e] sb1] eqn:Hw; [|discriminate].
    intros Hrest. apply IH in Hrest. apply writeLineFromKeyVal_LF in Hw.
    cbn [List.length]. lia.
Qed.

Lemma Format_LF (sb sb' : seProfileBuilder) (out : string) :
  Format sb = (Ok out, sb') ->
  S (List.length (keys sb)) + count_byte "010" (policyBuilder sb)
    <= count_byte "010" out.
Proof.
  unfold Format. unfold bind at 1 2 3, modify at 1 2, get at 1.
  cbn beta iota.
  set (sb1 := set_keys sort_Strings (WriteString _ sb)).
  unfold bind at 1. 
  destruct (for_range _ _ sb1) as [[[]|e] sb2] eqn:Hloop; [|discriminate].
  unfold bind, get, ret. intros [= <- <-].
  apply Format_range_LF in Hloop. subst sb1.
  cbn [keys policyBuilder set_keys WriteString] in Hloop.
  rewrite (Permutation_length (sort_Strings_Permutation (keys sb))) in Hloop.
  rewrite !count_byte_append in Hloop.
  change (count_byte "010" LF) with 1 in Hloop. lia.
Qed.

Lemma added_all_keys_length (avcs : list AvcResponse_SelinuxAvc)
    (sb : seProfileBuilder) :
  well_formed avcs = true ->
  List.length (keys (added_all sb avcs)) = List.length (keys sb) + List.length avcs.
Proof.
  revert sb. induction avcs as [|x l IH]; intros sb Hwf; cbn; [lia|].
  cbn in Hwf. apply andb_prop in Hwf as [Hx Hl].
  change (fold_left added l (added sb x)) with (added_all (added sb x) l).
  rewrite (IH _ Hl). unfold added.
  destruct (ctxt2type (Tcontext x)) as [ty|e] eqn:Ht; [|discriminate].
  rewrite (addAvc_ok _ _ _ Ht). cbn. rewrite length_app. cbn. lia.
Qed.

(** A policy has the header line and at least one line for each AVC of the
    response, not for each key. *)
Lemma formatSelinuxProfile_lines (policyUsage out : string)
    (avcs : list AvcResponse_SelinuxAvc) :
  formatSelinuxProfile policyUsage avcs = Ok out ->
  S (List.length avcs) <= count_byte "010" out.
Proof.
  unfold formatSelinuxProfile.
  pose proof (AddAvcList_result avcs (newSeProfileBuilder policyUsage)) as Ha.
  destruct (well_formed avcs) eqn:Hwf.
  - rewrite Ha.
    destruct (Format _) as [[pol|e] sb'] eqn:Hf; [|discriminate].
    intros [= <-]. apply Format_LF in Hf.
    rewrite (added_all_keys_length _ _ Hwf) in Hf. cbn in Hf. lia.
  - destruct (AddAvcList avcs _) as [r s]. cbn in Ha. subst r. discriminate.
Qed.

(** ** The aggregation-and-formatting scenario *)

Lemma writeLineFromKeyVal_ok (key tclass tcontext line : string)
    (val : option (gset string)) (sb : seProfileBuilder) :
  targetClassCtx sb key = (tclass, tcontext) ->
  String.eqb tclass "" || String.eqb tcontext "" = false ->
  policyLine tclass tcontext val = Ok line ->
  writeLineFromKeyVal key val sb = (Ok tt, WriteString line sb).
Proof.
  intros Ht He Hl. unfold writeLineFromKeyVal, bind, get, wrap, lift, modify.
  now rewrite Ht, He, Hl.
Qed.

Lemma Format_body_ok (key tclass tcontext line : string) (sb : seProfileBuilder) :
  targetClassCtx sb key = (tclass, tcontext) ->
  String.eqb tclass "" || String.eqb tcontext "" = false ->
  policyLine tclass tcontext (permMap sb !! key) = Ok line ->
  Format_body key sb = (Ok tt, WriteString line sb).
Proof.
  intros Ht He Hl. unfold Format_body, bind, get, wrap.
  now rewrite (writeLineFromKeyVal_ok _ _ _ _ _ _ Ht He Hl).
Qed.

(** Every key [addAvc] stores has a class and a type field. *)
Lemma keys_have_two_fields (avc : AvcResponse_SelinuxAvc) (sb : seProfileBuilder) :
  Forall (fun key => 2 <= List.length (Split key " ")) (keys sb) ->
  Forall (fun key => 2 <= List.length (Split key " ")) (keys (added sb avc)).
Proof.
  intros Hk. unfold added.
  destruct (ctxt2type (Tcontext avc)) as [ty|e] eqn:Ht.
  - rewrite (addAvc_ok _ _ _ Ht). cbn [snd keys].
    apply Forall_app. split; [assumption|]. constructor; [|constructor].
    rewrite Split_length, count_byte_append.
    change (" " ++ ty) with (String " "%char ty). cbn [count_byte Ascii.eqb].
    simpl. lia.
  - now rewrite (addAvc_err _ _ _ Ht).
Qed.

(** So [targetClassCtx] never reads past the fields of a key of the
    builder that [formatSelinuxProfile] formats. *)
Lemma added_all_keys_two_fields (avcs : list AvcResponse_SelinuxAvc)
    (policyUsage : string) :
  Forall (fun key => 2 <= List.length (Split key " "))
    (sort_Strings (keys (added_all (newSeProfileBuilder policyUsage) avcs))).
Proof.
  rewrite sort_Strings_Permutation. unfold added_all.
  assert (Forall (fun key => 2 <= List.length (Split key " "))
            (keys (newSeProfileBuilder policyUsage))) as H0 by constructor.
  revert H0. generalize (newSeProfileBuilder policyUsage) as sb.
  induction avcs as [|x l IH]; intros sb H0; [assumption|].
  cbn [fold_left]. apply IH. now apply keys_have_two_fields.
Qed.

Lemma ctxt2type_permissive (s : string) :
  count_byte ":" s = 0 ->
  ctxt2type ("system_u:system_r:" ++ s ++ ":s0") = Ok s.
Proof.
  intros Hs. unfold ctxt2type.
  change ("system_u:system_r:" ++ s ++ ":s0")
    with ("system_u" ++ String ":"%char ("system_r" ++ String ":"%char
            (s ++ String ":"%char "s0"))).
  rewrite !Split_first by (assumption || reflexivity). reflexivity.
Qed.

Lemma ltb_neq (a b : string) : String.ltb a b = true -> String.eqb a b = false.
Proof.
  intros Hlt. apply String.eqb_neq. intros ->.
  unfold String.ltb in Hlt. pose proof (String.compare_antisym b b) as E.
  destruct (String.compare b b); discriminate.
Qed.

Lemma compare_same_head (c : ascii) (a b : string) :
  String.compare (String c a) (String c b) = String.compare a b.
Proof. cbn [String.compare]. unfold Ascii.compare. now rewrite N.compare_refl. Qed.

(** C1, amended. Given the usage context [my_usage_t] and three AVCs, two
    of class [file], target context [system_u:object_r:bin_t:s0] and
    permissions [read] and [execute], and one of class [file], permission
    [write] and a target context whose third ":"-separated field is the
    permissive-profile sentinel ([system_u:system_r:<sentinel>:s0]), the
    sentinel holding no ":" and no space and sorting after [bin_t]: the
    policy is the header line, then the line
    [(allow process bin_t ( file ( execute read )))] once or more, then
    the line [(allow process my_usage_t ( file ( write )))]. *)
Theorem scenario_policy :
  count_byte ":" SelinuxPermissiveProfile = 0 ->
  count_byte " " SelinuxPermissiveProfile = 0 ->
  String.ltb "bin_t" SelinuxPermissiveProfile = true ->
  exists n, 1 <= n /\
    formatSelinuxProfile "my_usage_t"
      (scenario_avcs ("system_u:system_r:" ++ SelinuxPermissiveProfile ++ ":s0"))
    = Ok (line_header ++ String.concat "" (repeat line_bin_t n)
            ++ line_my_usage_t).
Proof.
  intros Hc Hs Hlt. exists 2. split; [lia|].
  pose proof (ctxt2type_permissive _ Hc) as Ht3.
  assert (ctxt2type "system_u:object_r:bin_t:s0" = Ok "bin_t") as Ht1
    by reflexivity.
  pose proof (ltb_neq _ _ Hlt) as Hne.
  unfold formatSelinuxProfile.
  pose proof (AddAvcList_result
                (scenario_avcs ("system_u:system_r:" ++ SelinuxPermissiveProfile ++ ":s0"))
                (newSeProfileBuilder "my_usage_t")) as Ha.
  assert (well_formed
            (scenario_avcs ("system_u:system_r:" ++ SelinuxPermissiveProfile ++ ":s0"))
          = true) as Hwf.
  { cbn [well_formed scenario_avcs forallb mkAvc Tcontext]. now rewrite Ht3. }
  rewrite Hwf in Ha. rewrite Ha. clear Ha Hwf.
  unfold added_all, scenario_avcs. cbn [fold_left]. unfold added.
  rewrite (addAvc_ok (mkAvc "read" "file" _) _ "bin_t" Ht1). cbn [snd].
  rewrite (addAvc_ok (mkAvc "execute" "file" _) _ "bin_t" Ht1). cbn [snd].
  rewrite (addAvc_ok (mkAvc "write" "file" _) _ _ Ht3). cbn [snd].
  cbn [mkAvc Tclass Perm permMap keys usageCtx policyBuilder newSeProfileBuilder].
  change ("file" ++ " " ++ "bin_t") with "file bin_t".
  change ("file" ++ " " ++ SelinuxPermissiveProfile)
    with (String "f" (String "i" (String "l" (String "e"
            (String " " SelinuxPermissiveProfile))))).
  set (k1 := "file bin_t").
  set (k2 := String "f" (String "i" (String "l" (String "e"
                (String " " SelinuxPermissiveProfile))))).
  assert (k1 <> k2) as Hk.
  { subst k1 k2. intros [= E]. apply String.eqb_neq in Hne. congruence. }
  rewrite lookup_empty, lookup_insert_eq, !(lookup_insert_ne _ k1 k2), lookup_empty
    by assumption.
  cbn [app].
  assert (String.le k1 k2) as Hle.
  { subst k1 k2. unfold String.le, String.leb, String.ltb in *.
    rewrite !compare_same_head.
    destruct (String.compare "bin_t" SelinuxPermissiveProfile); easy. }
  assert (forall sb, targetClassCtx sb k1 = ("file", "bin_t")) as Hc1.
  { intros sb. unfold targetClassCtx. subst k1.
    change (Split "file bin_t" " ") with ["file"; "bin_t"].
    cbn [nth]. now rewrite Hne. }
  assert (forall sb, targetClassCtx sb k2 = ("file", usageCtx sb)) as Hc2.
  { intros sb. unfold targetClassCtx. subst k2.
    change (String "f" (String "i" (String "l" (String "e"
             (String " " SelinuxPermissiveProfile)))))
      with ("file" ++ String " "%char SelinuxPermissiveProfile).
    rewrite Split_first by reflexivity. rewrite (Split_absent _ _ Hs).
    cbn [nth]. now rewrite String.eqb_refl. }
  unfold Format. unfold bind at 1 2 3, modify at 1 2, get at 1.
  cbn [set_keys WriteString keys permMap usageCtx policyBuilder].
  rewrite (sort_Strings_sorted_id [k1; k1; k2]).
  2:{ apply Sorted_cons; [apply Sorted_cons; [apply Sorted_cons|]|].
      - apply Sorted_nil.
      - apply HdRel_nil.
      - apply HdRel_cons, Hle.
      - apply HdRel_cons. reflexivity. }
  cbn [for_range]. unfold bind, ret, get.
  assert (policyLine "file" "bin_t" (Some ({[ "read" ]} ∪ {[ "execute" ]}))
          = Ok line_bin_t) as Hp1 by (vm_compute; reflexivity).
  assert (policyLine "file" "my_usage_t" (Some {[ "write" ]})
          = Ok line_my_usage_t) as Hp2 by (vm_compute; reflexivity).
  rewrite (Format_body_ok k1 "file" "bin_t" line_bin_t);
    [|apply Hc1|reflexivity|].
  2:{ cbn [permMap set_keys WriteString].
      rewrite lookup_insert_ne, lookup_insert_eq by auto. exact Hp1. }
  rewrite (Format_body_ok k1 "file" "bin_t" line_bin_t);
    [|apply Hc1|reflexivity|].
  2:{ cbn [permMap set_keys WriteString].
      rewrite lookup_insert_ne, lookup_insert_eq by auto. exact Hp1. }
  rewrite (Format_body_ok k2 "file" "my_usage_t" line_my_usage_t);
    [|apply Hc2|reflexivity|].
  2:{ cbn [permMap set_keys WriteString].
      rewrite lookup_insert_eq. exact Hp2. }
  reflexivity.
Qed.

(** ** Tracking a pod *)

Lemma collectProfile_untracked (n : NamespacedName) (r : RecorderReconciler World) :
  podsToWatch r !! NamespacedName_String n = None ->
  collectProfile n r = (Ok tt, r).
Proof.
  intros Hn. unfold collectProfile, bind, get. now rewrite Hn.
Qed.

(** C7. When no [podsToWatch] entry exists for a pod, [collectProfile] is
    a no-op that returns nil; so [Reconcile] of such a pod, found in
    Succeeded phase or not found at all, returns nil after the one call
    that gets the pod: it makes no other call (no file read, no RPC, no
    create-or-update, no event) and leaves [podsToWatch] as it was. *)
Theorem Reconcile_untracked (req : NamespacedName) (r : RecorderReconciler World) :
  podsToWatch r !! NamespacedName_String req = None ->
  collectProfile req r = (Ok tt, r) /\
  forall (got : GetPodResult) (w : World),
    client_Get_Pod req (world r) = (got, w) ->
    match got with
    | GetFound pod => Phase pod = PodSucceeded
    | GetNotFound _ => True
    | GetError _ => False
    end ->
    Reconcile req r =
      (Ok tt,
       {| podsToWatch := podsToWatch r; world := w;
          trace := trace r ++ [(CallGetPod req,
                                match got with GetFound _ => true | _ => false end)] |}).
Proof.
  intros Hn. split; [now apply collectProfile_untracked|].
  intros got w Hget Hgot. unfold Reconcile. rewrite Hget.
  destruct got as [pod|err|err]; [| |easy].
  - rewrite Hgot. unfold wrap. now rewrite collectProfile_untracked.
  - unfold bind, wrap. now rewrite collectProfile_untracked.
Qed.

Lemma reconcilePending_tracked (req : NamespacedName) (pod : Pod)
    (r : RecorderReconciler World) :
  is_Some (podsToWatch r !! NamespacedName_String req) ->
  reconcilePending req pod r = (Ok tt, r).
Proof.
  intros [p Hp]. unfold reconcilePending, bind, get. now rewrite Hp.
Qed.

Lemma reconcilePending_untracked (req : NamespacedName) (pod : Pod)
    (r : RecorderReconciler World) (hookProfiles logProfiles : list profileToCollect) :
  podsToWatch r !! NamespacedName_String req = None ->
  parseHookAnnotations (Annotations pod) = Ok hookProfiles ->
  parseLogAnnotations (Annotations pod) = Ok logProfiles ->
  fst (reconcilePending req pod r) = Ok tt /\
  podsToWatch (snd (reconcilePending req pod r)) =
    match hookProfiles, logProfiles with
    | _ :: _, _ =>
        <[NamespacedName_String req :=
            {| recorder := ProfileRecorderHook; profiles := hookProfiles |}]>
          (podsToWatch r)
    | [], _ :: _ =>
        <[NamespacedName_String req :=
            {| recorder := ProfileRecorderLogs; profiles := logProfiles |}]>
          (podsToWatch r)
    | [], [] => podsToWatch r
    end.
Proof.
  intros Hn Hh Hl. unfold reconcilePending, bind, get. rewrite Hn, Hh, Hl.
  destruct hookProfiles as [|h hs]; [destruct logProfiles as [|l ls]|];
    split; reflexivity.
Qed.

(** C3. For a pod observed in Pending phase that is not tracked yet and
    whose annotations parse, [Reconcile] returns nil and chooses the
    recording mode there: the hook mode with the hook profiles when the
    hook annotations gave at least one profile; otherwise the log mode
    with the log profiles when the log annotations gave at least one;
    otherwise no entry is made.  The choice is made once: observing a
    tracked pod in Pending phase again leaves [podsToWatch] as it is. *)
Theorem Reconcile_pending_mode (req : NamespacedName) (pod : Pod)
    (r : RecorderReconciler World) (w : World)
    (hookProfiles logProfiles : list profileToCollect) :
  client_Get_Pod req (world r) = (GetFound pod, w) ->
  Phase pod = PodPending ->
  podsToWatch r !! NamespacedName_String req = None ->
  parseHookAnnotations (Annotations pod) = Ok hookProfiles ->
  parseLogAnnotations (Annotations pod) = Ok logProfiles ->
  fst (Reconcile req r) = Ok tt /\
  (hookProfiles <> [] ->
   podsToWatch (snd (Reconcile req r)) =
     <[NamespacedName_String req :=
         {| recorder := ProfileRecorderHook; profiles := hookProfiles |}]>
       (podsToWatch r)) /\
  (hookProfiles = [] -> logProfiles <> [] ->
   podsToWatch (snd (Reconcile req r)) =
     <[NamespacedName_String req :=
         {| recorder := ProfileRecorderLogs; profiles := logProfiles |}]>
       (podsToWatch r)) /\
  (hookProfiles = [] -> logProfiles = [] ->
   podsToWatch (snd (Reconcile req r)) = podsToWatch r) /\
  (forall (r' : RecorderReconciler World) (pod' : Pod) (w' : World),
     is_Some (podsToWatch r' !! NamespacedName_String req) ->
     client_Get_Pod req (world r') = (GetFound pod', w') ->
     Phase pod' = PodPending ->
     fst (Reconcile req r') = Ok tt /\
     podsToWatch (snd (Reconcile req r')) = podsToWatch r').
Proof.
  intros Hget Hphase Hn Hh Hl.
  assert (forall r0 : RecorderReconciler World,
            podsToWatch r0 = podsToWatch r ->
            podsToWatch r0 !! NamespacedName_String req = None) as Hn'
    by (intros r0 ->; exact Hn).
  unfold Reconcile. rewrite Hget, Hphase.
  match goal with |- context [reconcilePending req pod ?r0] =>
    destruct (reconcilePending_untracked req pod r0 _ _ (Hn' r0 eq_refl) Hh Hl)
      as [Hres Hpods]
  end.
  split; [exact Hres|]. rewrite Hpods. cbn [podsToWatch].
  split; [|split; [|split]].
  - now destruct hookProfiles.
  - intros ->. now destruct logProfiles.
  - now intros -> ->.
  - intros r' pod' w' Hs Hget' Hphase'. rewrite Hget', Hphase'.
    now rewrite reconcilePending_tracked.
Qed.

(** ** The order in which annotations are visited *)

Lemma parseHookAnnotations_range_entries (annotations : list (string * string))
    (res : list profileToCollect) :
  parseHookAnnotations_range annotations res
  = range_entries hook_entry annotations res.
Proof.
  revert res. induction annotations as [|[key value] l IH]; intros res;
    [reflexivity|].
  cbn [parseHookAnnotations_range range_entries hook_entry].
  destruct (negb (HasPrefix key _)); [apply IH|].
  destruct (negb (HasPrefix value _)); [reflexivity|].
  destruct (negb (IsAbs _)); [reflexivity|].
  destruct (String.eqb _ ""); [reflexivity|].
  destruct (negb (HasPrefix _ ProfileRecordingOutputPath)); apply IH.
Qed.

Lemma parseLogAnnotations_range_entries (annotations : list (string * string))
    (res : list profileToCollect) :
  parseLogAnnotations_range annotations res
  = range_entries log_entry annotations res.
Proof.
  revert res. induction annotations as [|[key profile] l IH]; intros res;
    [reflexivity|].
  cbn [parseLogAnnotations_range range_entries log_entry].
  destruct (HasPrefix key SeccompProfileRecordLogsAnnotationKey).
  - destruct (String.eqb profile ""); [reflexivity|apply IH].
  - destruct (HasPrefix key SelinuxProfileRecordLogsAnnotationKey);
      [|apply IH].
    destruct (String.eqb profile ""); [reflexivity|apply IH].
Qed.

Section Entries.

Variable entry : string * string -> option (result profileToCollect).

Lemma range_entries_acc (l : list (string * string)) (res : list profileToCollect) :
  range_entries entry l res
  = match range_entries entry l [] with
    | Ok out => Ok (res ++ out)%list
    | Err e => Err e
    end.
Proof.
  revert res. induction l as [|kv l IH]; intros res; cbn [range_entries].
  - now rewrite app_nil_r.
  - destruct (entry kv) as [[p|e]|]; [|reflexivity|apply IH].
    rewrite (IH (res ++ [p])%list), (IH ([] ++ [p])%list).
    destruct (range_entries entry l []); [|reflexivity].
    now rewrite <- app_assoc.
Qed.

(** What visiting [kv] first makes of the outcome of the rest. *)
Lemma range_entries_cons (kv : string * string) (l : list (string * string)) :
  range_entries entry (kv :: l) []
  = match entry kv with
    | None => range_entries entry l []
    | Some (Err e) => Err e
    | Some (Ok p) =>
        match range_entries entry l [] with
        | Ok out => Ok (p :: out)
        | Err e => Err e
        end
    end.
Proof.
  cbn [range_entries]. destruct (entry kv) as [[p|e]|]; try reflexivity.
  apply range_entries_acc.
Qed.

Lemma same_profiles_trans (a b c : result (list profileToCollect)) :
  same_profiles a b -> same_profiles b c -> same_profiles a c.
Proof.
  destruct a, b, c; cbn; try easy. apply Permutation_trans.
Qed.

(** Whether the annotations parse, and which profiles they give, does not
    depend on the order in which the map is visited. *)
Lemma range_entries_Permutation (l1 l2 : list (string * string)) :
  l1 ≡ₚ l2 ->
  same_profiles (range_entries entry l1 []) (range_entries entry l2 []).
Proof.
  induction 1 as [|x l l' _ IH|x y l|l l' l'' _ IH1 _ IH2].
  - cbn. constructor.
  - rewrite !range_entries_cons. destruct (entry x) as [[p|e]|]; cbn; auto.
    destruct (range_entries entry l []), (range_entries entry l' []); cbn in *;
      auto.
  - rewrite !range_entries_cons.
    destruct (entry x) as [[p|e]|], (entry y) as [[q|e']|]; cbn; auto;
      destruct (range_entries entry l []); cbn; auto.
    apply perm_swap.
  - eapply same_profiles_trans; eassumption.
Qed.

End Entries.

Lemma parseHookAnnotations_Permutation (l1 l2 : list (string * string)) :
  l1 ≡ₚ l2 ->
  same_profiles (parseHookAnnotations l1) (parseHookAnnotations l2).
Proof.
  intros Hp. unfold parseHookAnnotations.
  rewrite !parseHookAnnotations_range_entries.
  now apply range_entries_Permutation.
Qed.

Lemma parseLogAnnotations_Permutation (l1 l2 : list (string * string)) :
  l1 ≡ₚ l2 ->
  same_profiles (parseLogAnnotations l1) (parseLogAnnotations l2).
Proof.
  intros Hp. unfold parseLogAnnotations.
  rewrite !parseLogAnnotations_range_entries.
  now apply range_entries_Permutation.
Qed.

(** ** Hook profiles are seccomp profiles *)

Lemma parseHookAnnotations_range_kinds (annotations : list (string * string))
    (res out : list profileToCollect) :
  Forall is_seccomp res ->
  parseHookAnnotations_range annotations res = Ok out ->
  Forall is_seccomp out.
Proof.
  revert res. induction annotations as [|[key value] l IH]; intros res Hres.
  - now intros [= <-].
  - cbn [parseHookAnnotations_range].
    destruct (negb (HasPrefix key _)); [now apply IH|].
    destruct (negb (HasPrefix value _)); [discriminate|].
    destruct (negb (IsAbs _)); [discriminate|].
    destruct (String.eqb _ ""); [discriminate|].
    destruct (negb (HasPrefix _ ProfileRecordingOutputPath)); [now apply IH|].
    apply IH. apply Forall_app. split; [assumption|].
    now repeat constructor.
Qed.

(** On seccomp profiles, every error of [collectLocalProfiles] is a
    wrapped one. *)
Lemma collectLocalProfiles_errors (n : NamespacedName)
    (profiles : list profileToCollect) (r : RecorderReconciler World) (e : error) :
  Forall is_seccomp profiles ->
  fst (collectLocalProfiles n profiles r) = Err e ->
  exists e' msg, e = errors_Wrap e' msg.
Proof.
  revert r. induction profiles as [|prf l IH]; intros r Hall; [discriminate|].
  inversion Hall as [|? ? Hprf Hl]; subst.
  unfold collectLocalProfiles. cbn [for_range]. fold (collectLocalProfiles n l).
  unfold is_seccomp in Hprf. rewrite Hprf.
  unfold bind at 1 2 3, wrap at 1 2, lift, createOrUpdate.
  destruct (call (CallReadFile _) _ r) as [[data|e1] r1]; [|intros [= <-]; eauto].
  destruct (extractProfileName _) as [profileName|e2]; [|intros [= <-]; eauto].
  destruct (call (CallCreateOrUpdate _) _ r1) as [[[]|e3] r2];
    [|intros [= <-]; eauto].
  unfold recordEvent. now apply IH.
Qed.

(** C10. Every profile [parseHookAnnotations] returns has kind
    [SeccompProfile]; so [collectLocalProfiles], run on the profiles that
    [parseHookAnnotations] returned, never returns the error "only
    seccomp profiles supported via a hook". *)
Theorem hook_profiles_are_seccomp (annotations : list (string * string))
    (res : list profileToCollect) :
  parseHookAnnotations annotations = Ok res ->
  Forall (fun prf => kind prf = ProfileRecordingKindSeccompProfile) res /\
  forall (n : NamespacedName) (r : RecorderReconciler World),
    fst (collectLocalProfiles n res r)
    <> Err (errors_New "only seccomp profiles supported via a hook").
Proof.
  intros Hp.
  assert (Forall is_seccomp res) as Hall
    by (eapply parseHookAnnotations_range_kinds; [constructor|exact Hp]).
  split; [exact Hall|]. intros n r He.
  destruct (collectLocalProfiles_errors _ _ _ _ Hall He) as (e' & msg & [=]).
Qed.

(** ** What the collection leaves of [podsToWatch] *)

Lemma call_podsToWatch {A} (c : Call) (op : World -> result A * World)
    (r : RecorderReconciler World) :
  podsToWatch (snd (call c op r)) = podsToWatch r.
Proof. unfold call. now destruct (op (world r)). Qed.

Lemma createOrUpdate_podsToWatch (profile : Object) (wrapMsg createdMsg : string)
    (r : RecorderReconciler World) :
  podsToWatch (snd (createOrUpdate profile wrapMsg createdMsg r)) = podsToWatch r.
Proof.
  unfold createOrUpdate, call, recordEvent.
  now destruct (controllerutil_CreateOrUpdate profile (world r)) as [[[]|e] w].
Qed.

(** A loop whose body leaves [podsToWatch] alone leaves it alone. *)
Lemma for_range_podsToWatch {B} (l : list B)
    (body : B -> M (RecorderReconciler World) unit) (r : RecorderReconciler World) :
  (forall x r0, podsToWatch (snd (body x r0)) = podsToWatch r0) ->
  podsToWatch (snd (for_range l body r)) = podsToWatch r.
Proof.
  intros Hbody. revert r. induction l as [|x l IH]; intros r; [reflexivity|].
  cbn [for_range]. unfold bind. specialize (Hbody x r).
  destruct (body x r) as [[[]|e] r1]; cbn [snd] in *; [|assumption].
  now rewrite IH.
Qed.

Lemma collectLocalProfiles_podsToWatch (n : NamespacedName)
    (profiles : list profileToCollect) (r : RecorderReconciler World) :
  podsToWatch (snd (collectLocalProfiles n profiles r)) = podsToWatch r.
Proof.
  apply for_range_podsToWatch. intros prf r0.
  destruct (kind prf); try reflexivity.
  unfold bind, wrap, lift.
  pose proof (call_podsToWatch (CallReadFile (name prf))
                (ioutil_ReadFile (name prf)) r0) as Hread.
  destruct (call _ _ r0) as [[data|e] r1]; cbn [snd] in *; [|assumption].
  destruct (extractProfileName _) as [profileName|e]; [|assumption].
  now rewrite createOrUpdate_podsToWatch.
Qed.

Lemma collectLogSeccompProfile_podsToWatch (profileName namespace profileID : string)
    (r : RecorderReconciler World) :
  podsToWatch (snd (collectLogSeccompProfile profileName namespace profileID r))
  = podsToWatch r.
Proof.
  unfold collectLogSeccompProfile, createOrUpdate, call, recordEvent.
  destruct (enricherClient_Syscalls _ _) as [[names|e] w1]; [|reflexivity].
  cbn [world]. destruct (controllerutil_CreateOrUpdate _ _) as [[[]|e] w2];
    [|reflexivity].
  cbn [world]. now destruct (enricherClient_ResetSyscalls _ _) as [[[]|e] w3].
Qed.

Lemma collectLogSelinuxProfile_podsToWatch (profileName namespace profileID : string)
    (r : RecorderReconciler World) :
  podsToWatch (snd (collectLogSelinuxProfile profileName namespace profileID r))
  = podsToWatch r.
Proof.
  unfold collectLogSelinuxProfile, createOrUpdate, call, recordEvent.
  destruct (enricherClient_Avcs _ _) as [[avcs|e] w1]; [|reflexivity].
  destruct (formatSelinuxProfile _ _) as [policy|e]; [|reflexivity].
  cbn [world]. destruct (controllerutil_CreateOrUpdate _ _) as [[[]|e] w2];
    [|reflexivity].
  cbn [world]. now destruct (enricherClient_ResetAvcs _ _) as [[[]|e] w3].
Qed.

Lemma collectLogProfiles_podsToWatch (n : NamespacedName)
    (profiles : list profileToCollect) (r : RecorderReconciler World) :
  podsToWatch (snd (collectLogProfiles n profiles r)) = podsToWatch r.
Proof.
  unfold collectLogProfiles, bind, wrap, call, fail.
  destruct (client_Get_SPOD (world r)) as [[spod|e] w1]; [|reflexivity].
  destruct (negb (EnableLogEnricher spod)); [reflexivity|].
  cbn [world]. destruct (enricher_Dial w1) as [[[]|e] w2]; [|reflexivity].
  rewrite for_range_podsToWatch; [reflexivity|].
  intros prf r0. unfold collectLogProfiles_body, bind, wrap, lift, fail.
  destruct (extractProfileName (name prf)) as [profileName|e]; [|reflexivity].
  destruct (kind prf);
    auto using collectLogSeccompProfile_podsToWatch,
      collectLogSelinuxProfile_podsToWatch.
Qed.

(** [collectProfile] removes the entry of the pod, or changes nothing. *)
Lemma collectProfile_podsToWatch (n : NamespacedName) (r : RecorderReconciler World) :
  podsToWatch (snd (collectProfile n r)) = podsToWatch r \/
  podsToWatch (snd (collectProfile n r))
  = delete (NamespacedName_String n) (podsToWatch r).
Proof.
  enough (forall pods, podsToWatch (snd (collectProfile n r)) = pods ->
            pods = podsToWatch r \/
            pods = delete (NamespacedName_String n) (podsToWatch r)) by eauto.
  intros pods. unfold collectProfile. unfold bind at 1, get.
  destruct (podsToWatch r !! NamespacedName_String n) as [p|];
    [|intros <-; now left].
  unfold bind, wrap, modify, ret.
  destruct (recorder p).
  - pose proof (collectLocalProfiles_podsToWatch n (profiles p) r) as Hl.
    destruct (collectLocalProfiles n (profiles p) r) as [[[]|e] r1];
      cbn [snd set_podsToWatch podsToWatch] in *; intros <-; rewrite Hl; auto.
  - pose proof (collectLogProfiles_podsToWatch n (profiles p) r) as Hl.
    destruct (collectLogProfiles n (profiles p) r) as [[[]|e] r1];
      cbn [snd set_podsToWatch podsToWatch] in *; intros <-; rewrite Hl; auto.
Qed.

(** ** Hook entries hold seccomp profiles, always *)

Lemma hook_entries_seccomp_delete (key : string) (pods : gmap string podToWatch) :
  hook_entries_seccomp pods -> hook_entries_seccomp (delete key pods).
Proof.
  intros Hinv k p Hk. apply lookup_delete_Some in Hk as [_ Hk]. eauto.
Qed.

Lemma hook_entries_seccomp_insert (key : string) (p : podToWatch)
    (pods : gmap string podToWatch) :
  (recorder p = ProfileRecorderHook -> Forall is_seccomp (profiles p)) ->
  hook_entries_seccomp pods -> hook_entries_seccomp (<[key := p]> pods).
Proof.
  intros Hp Hinv k q Hk. apply lookup_insert_Some in Hk as [[_ <-]|[_ Hk]]; eauto.
Qed.

Lemma reconcilePending_nil (req : NamespacedName) (pod : Pod)
    (r : RecorderReconciler World) :
  fst (reconcilePending req pod r) = Ok tt.
Proof.
  unfold reconcilePending, bind, get, recordEvent, modify, ret.
  destruct (podsToWatch r !! _); [reflexivity|].
  destruct (parseHookAnnotations _); [|reflexivity].
  destruct (parseLogAnnotations _); [|reflexivity].
  destruct (0 <? _)%nat; [reflexivity|]. now destruct (0 <? _)%nat.
Qed.

Lemma reconcilePending_invariant (req : NamespacedName) (pod : Pod)
    (r : RecorderReconciler World) :
  hook_entries_seccomp (podsToWatch r) ->
  hook_entries_seccomp (podsToWatch (snd (reconcilePending req pod r))).
Proof.
  intros Hinv. unfold reconcilePending, bind, get.
  destruct (podsToWatch r !! _); [assumption|].
  destruct (parseHookAnnotations _) as [hookProfiles|e] eqn:Hh; [|assumption].
  destruct (parseLogAnnotations _) as [logProfiles|e]; [|assumption].
  destruct (0 <? List.length hookProfiles)%nat; [|destruct (0 <? _)%nat];
    cbn; try assumption; apply hook_entries_seccomp_insert; try assumption;
    cbn; [intros _|discriminate].
  eapply parseHookAnnotations_range_kinds; [constructor|exact Hh].
Qed.

Lemma wrap_snd {St A} (m : M St A) (msg : string) (st : St) :
  snd (wrap m msg st) = snd (m st).
Proof. unfold wrap. now destruct (m st) as [[a|e] st']. Qed.

Lemma bind_ret_snd {St A} (m : M St A) (st : St) :
  snd (bind m (fun _ => ret tt) st) = snd (m st).
Proof. unfold bind, ret. now destruct (m st) as [[a|e] st']. Qed.

Lemma collectProfile_invariant (n : NamespacedName) (r : RecorderReconciler World) :
  hook_entries_seccomp (podsToWatch r) ->
  hook_entries_seccomp (podsToWatch (snd (collectProfile n r))).
Proof.
  intros Hinv. destruct (collectProfile_podsToWatch n r) as [-> | ->];
    auto using hook_entries_seccomp_delete.
Qed.

(** [Reconcile] keeps the invariant. *)
Lemma Reconcile_invariant (req : NamespacedName) (r : RecorderReconciler World) :
  hook_entries_seccomp (podsToWatch r) ->
  hook_entries_seccomp (podsToWatch (snd (Reconcile req r))).
Proof.
  intros Hinv. unfold Reconcile.
  destruct (client_Get_Pod req (world r)) as [[pod|err|err] w]; [| |assumption].
  - destruct (Phase pod); try assumption.
    + now apply reconcilePending_invariant.
    + rewrite wrap_snd. now apply collectProfile_invariant.
  - cbn [zeroPod Phase]. rewrite bind_ret_snd, wrap_snd.
    now apply collectProfile_invariant.
Qed.

Lemma collectProfile_errors (n : NamespacedName) (r : RecorderReconciler World)
    (e : error) :
  hook_entries_seccomp (podsToWatch r) ->
  fst (collectProfile n r) = Err e ->
  e <> errors_Wrap (errors_New "only seccomp profiles supported via a hook")
         "collect local profile".
Proof.
  intros Hinv. unfold collectProfile. unfold bind at 1, get.
  destruct (podsToWatch r !! NamespacedName_String n) as [p|] eqn:Hp;
    [|discriminate].
  unfold bind, wrap, modify, ret.
  destruct (recorder p) eqn:Hrec.
  - pose proof (collectLocalProfiles_errors n (profiles p) r) as Hl.
    destruct (collectLocalProfiles n (profiles p) r) as [[[]|e1] r1];
      [discriminate|].
    intros [= <-] Heq. injection Heq as He.
    destruct (Hl e1 (Hinv _ _ Hp Hrec) eq_refl) as (? & ? & ->).
    discriminate.
  - destruct (collectLogProfiles n (profiles p) r) as [[[]|e1] r1];
      [discriminate|].
    intros [= <-]. discriminate.
Qed.

(** From a recorder that watches no pod, whatever requests are reconciled
    and whatever the outside answers, [Reconcile] never returns the error
    of the kind test of [collectLocalProfiles]. *)
Lemma Reconcile_never_kind_error (reqs : list NamespacedName)
    (req : NamespacedName) (r : RecorderReconciler World) (e : error) :
  podsToWatch r = ∅ ->
  fst (Reconcile req (reconciled r reqs)) = Err e ->
  forall msg : string,
    msg = "collect profile for succeeded pod" \/
    msg = "collect profile for removed pod" ->
    e <> errors_Wrap
           (errors_Wrap (errors_New "only seccomp profiles supported via a hook")
              "collect local profile") msg.
Proof.
  intros Hempty.
  assert (hook_entries_seccomp (podsToWatch (reconciled r reqs))) as Hinv.
  { assert (hook_entries_seccomp (podsToWatch r)) as H0
      by (rewrite Hempty; intros k p Hk; now rewrite lookup_empty in Hk).
    clear Hempty. revert r H0. unfold reconciled.
    induction reqs as [|q l IH]; intros r H0; [assumption|].
    cbn [fold_left]. apply IH. now apply Reconcile_invariant. }
  revert Hinv. generalize (reconciled r reqs) as r1. intros r1 Hinv.
  unfold Reconcile.
  destruct (client_Get_Pod req (world r1)) as [[pod|err|err] w].
  - destruct (Phase pod); try discriminate.
    + intros He. now rewrite reconcilePending_nil in He.
    + unfold wrap.
      match goal with |- context [collectProfile req ?r0] =>
        pose proof (collectProfile_errors req r0) as Hc;
        destruct (collectProfile req r0) as [[[]|e1] r2]
      end; [discriminate|].
      intros [= <-] msg _ Heq. apply (Hc e1 Hinv eq_refl). congruence.
  - unfold bind, wrap.
    match goal with |- context [collectProfile req ?r0] =>
      pose proof (collectProfile_errors req r0) as Hc;
      destruct (collectProfile req r0) as [[[]|e1] r2]
    end; cbn; [discriminate|].
    intros [= <-] msg _ Heq. apply (Hc e1 Hinv eq_refl). congruence.
  - cbn. intros [= <-] msg [-> | ->]; discriminate.
Qed.

(** ** Log mode: the reset follows the write *)

Lemma split_cons {A} (t1 t2 l : list A) (x a : A) :
  (t1 ++ x :: t2 = a :: l)%list ->
  (t1 = [] /\ x = a /\ t2 = l) \/
  (exists t1', t1 = a :: t1' /\ (t1' ++ x :: t2)%list = l).
Proof.
  destruct t1 as [|b t1]; cbn.
  - intros [= -> ->]. now left.
  - intros [= -> <-]. right. now exists t1.
Qed.

Lemma quiet_split (t1 t2 : list (Call * bool)) (x : Call * bool) :
  quiet (t1 ++ x :: t2) -> is_reset (fst x) = false /\ quiet t2.
Proof.
  unfold quiet. rewrite Forall_app, Forall_cons. now intros (_ & ? & ?).
Qed.

Lemma snapshot_not_reset (c : Call) : is_snapshot c = true -> is_reset c = false.
Proof. now destruct c. Qed.

(** Whether the element singled out of a trace is its head. *)
Ltac peel Heq Hx :=
  let t := fresh "t" in
  apply split_cons in Heq as [(-> & Hx & ->)|(t & -> & Heq)];
  [injection Hx as -> ->|].

(** In such a trace every reset comes directly after the successful write
    of the object it is for, and the event of that write. *)
Lemma rounds_reset_after_write (t : list (Call * bool)) :
  rounds t ->
  forall (t1 t2 : list (Call * bool)) (c : Call) (ok : bool),
    t = (t1 ++ (c, ok) :: t2)%list -> is_reset c = true ->
    exists (t0 : list (Call * bool)) (obj : Object),
      t1 = (t0 ++ [(CallCreateOrUpdate obj, true);
                   (CallRecordEvent Normal reasonProfileCreated, true)])%list /\
      written_for obj c.
Proof.
  induction 1 as [t Hq|c0 ok0 t Hr Hs _ IH|snapshot reset obj ok0 t Hs Hr Hw _ IH];
    intros t1 t2 c ok Heq Hc; symmetry in Heq.
  - subst t. apply quiet_split in Hq as [Hq _]. cbn in Hq. congruence.
  - peel Heq Hx; [congruence|].
    destruct (IH _ _ _ _ (eq_sym Heq) Hc) as (pre & obj & -> & Hw).
    now exists ((c0, ok0) :: pre), obj.
  - peel Heq Hx; [apply snapshot_not_reset in Hs; congruence|].
    peel Heq Hx; [discriminate|].
    peel Heq Hx; [discriminate|].
    peel Heq Hx; [now exists [(snapshot, true)], obj|].
    destruct (IH _ _ _ _ (eq_sym Heq) Hc) as (pre & obj' & -> & Hw').
    exists ((snapshot, true) :: (CallCreateOrUpdate obj, true)
              :: (CallRecordEvent Normal reasonProfileCreated, true)
              :: (reset, ok0) :: pre), obj'.
    now split.
Qed.

(** In such a trace no reset follows a snapshot or a write that failed. *)
Lemma rounds_quiet_after_failure (t : list (Call * bool)) :
  rounds t ->
  forall (t1 t2 : list (Call * bool)) (c : Call),
    t = (t1 ++ (c, false) :: t2)%list ->
    is_snapshot c || is_write c = true ->
    quiet t2.
Proof.
  induction 1 as [t Hq|c0 ok0 t Hr Hs _ IH|snapshot reset obj ok0 t Hs Hr Hw _ IH];
    intros t1 t2 c Heq Hc; symmetry in Heq.
  - subst t. now apply quiet_split in Hq.
  - apply split_cons in Heq as [(-> & [= -> <-] & ->)|(t' & -> & Heq)].
    { rewrite Hs in Hc. discriminate. }
    exact (IH _ _ _ (eq_sym Heq) Hc).
  - apply split_cons in Heq as [(-> & [=] & ->)|(ta & -> & Heq)].
    apply split_cons in Heq as [(-> & [=] & ->)|(tb & -> & Heq)].
    apply split_cons in Heq as [(-> & [=] & ->)|(tc & -> & Heq)].
    apply split_cons in Heq as [(-> & [= -> <-] & ->)|(td & -> & Heq)].
    { destruct reset; discriminate. }
    exact (IH _ _ _ (eq_sym Heq) Hc).
Qed.

Lemma rounds_nil : rounds [].
Proof. apply rounds_quiet. constructor. Qed.

Lemma collectLogSeccompProfile_round (profileName namespace profileID : string)
    (r : RecorderReconciler World) :
  extractProfileName profileID = Ok profileName ->
  adds_round (fst (collectLogSeccompProfile profileName namespace profileID r))
    (trace r) (trace (snd (collectLogSeccompProfile profileName namespace profileID r))).
Proof.
  intros Hname. unfold collectLogSeccompProfile, createOrUpdate, call, recordEvent.
  cbn [world trace podsToWatch].
  destruct (enricherClient_Syscalls profileID (world r)) as [[names|e] w1]; cbn.
  2:{ exists [(CallSyscalls profileID, false)]. split; [reflexivity|].
      apply rounds_quiet. now repeat constructor. }
  destruct (controllerutil_CreateOrUpdate _ w1) as [[[]|e] w2]; cbn.
  2:{ eexists. rewrite <- !app_assoc. split; [reflexivity|].
      apply rounds_quiet. now repeat constructor. }
  destruct (enricherClient_ResetSyscalls profileID _) as [[[]|e] w3]; cbn;
    eexists; rewrite <- !app_assoc; (split; [reflexivity|]); cbn.
  - intros t Ht. now apply rounds_round.
  - apply rounds_round; auto using rounds_nil.
Qed.

Lemma collectLogSelinuxProfile_round (profileName namespace profileID : string)
    (r : RecorderReconciler World) :
  extractProfileName profileID = Ok profileName ->
  adds_round (fst (collectLogSelinuxProfile profileName namespace profileID r))
    (trace r) (trace (snd (collectLogSelinuxProfile profileName namespace profileID r))).
Proof.
  intros Hname. unfold collectLogSelinuxProfile, createOrUpdate, call, recordEvent.
  cbn [world trace podsToWatch].
  destruct (enricherClient_Avcs profileID (world r)) as [[avcs|e] w1]; cbn.
  2:{ exists [(CallAvcs profileID, false)]. split; [reflexivity|].
      apply rounds_quiet. now repeat constructor. }
  destruct (formatSelinuxProfile _ avcs) as [policy|e]; cbn.
  2:{ eexists. rewrite <- !app_assoc. split; [reflexivity|].
      apply rounds_quiet. now repeat constructor. }
  destruct (controllerutil_CreateOrUpdate _ w1) as [[[]|e] w2]; cbn.
  2:{ eexists. rewrite <- !app_assoc. split; [reflexivity|].
      apply rounds_quiet. now repeat constructor. }
  destruct (enricherClient_ResetAvcs profileID _) as [[[]|e] w3]; cbn;
    eexists; rewrite <- !app_assoc; (split; [reflexivity|]); cbn.
  - intros t Ht. now apply rounds_round.
  - apply rounds_round; auto using rounds_nil.
Qed.

Lemma collectLogProfiles_body_round (n : NamespacedName) (prf : profileToCollect)
    (r : RecorderReconciler World) :
  adds_round (fst (collectLogProfiles_body n prf r))
    (trace r) (trace (snd (collectLogProfiles_body n prf r))).
Proof.
  unfold collectLogProfiles_body, bind, wrap, lift.
  destruct (extractProfileName (name prf)) as [profileName|e] eqn:Hname.
  - destruct (kind prf).
    + now apply collectLogSeccompProfile_round.
    + now apply collectLogSelinuxProfile_round.
    + exists []. cbn. rewrite app_nil_r. auto using rounds_nil.
  - exists []. cbn. rewrite app_nil_r. auto using rounds_nil.
Qed.

Lemma collectLogProfiles_range_rounds (n : NamespacedName)
    (profiles : list profileToCollect) (r : RecorderReconciler World) :
  exists d : list (Call * bool),
    trace (snd (for_range profiles (collectLogProfiles_body n) r))
    = (trace r ++ d)%list /\ rounds d.
Proof.
  revert r. induction profiles as [|prf l IH]; intros r.
  - exists []. cbn. rewrite app_nil_r. auto using rounds_nil.
  - cbn [for_range]. unfold bind at 1.
    destruct (collectLogProfiles_body_round n prf r) as (seg & Hseg & Hr).
    destruct (collectLogProfiles_body n prf r) as [[[]|e] r1]; cbn [fst snd] in *.
    + destruct (IH r1) as (d & Hd & Hrd). exists (seg ++ d)%list.
      rewrite Hd, Hseg, app_assoc. auto.
    + now exists seg.
Qed.

Lemma collectLogProfiles_rounds (n : NamespacedName)
    (profiles : list profileToCollect) (r : RecorderReconciler World) :
  exists d : list (Call * bool),
    trace (snd (collectLogProfiles n profiles r)) = (trace r ++ d)%list /\
    rounds d.
Proof.
  unfold collectLogProfiles. unfold bind at 1 2, wrap at 1 2, call at 1 2, fail.
  destruct (client_Get_SPOD (world r)) as [[spod|e] w1]; cbn.
  2:{ eexists. split; [reflexivity|]. apply rounds_quiet. now repeat constructor. }
  destruct (EnableLogEnricher spod); cbn.
  2:{ eexists. split; [reflexivity|]. apply rounds_quiet. now repeat constructor. }
  destruct (enricher_Dial w1) as [[[]|e] w2]; cbn.
  2:{ eexists. rewrite <- app_assoc. split; [reflexivity|].
      apply rounds_quiet. now repeat constructor. }
  match goal with |- context [for_range profiles _ ?r0] =>
    destruct (collectLogProfiles_range_rounds n profiles r0) as (d & Hd & Hr)
  end.
  rewrite Hd. cbn [trace]. eexists. rewrite <- !app_assoc. split; [reflexivity|].
  cbn. now repeat (apply rounds_other; [reflexivity..|]).
Qed.

(** C4. In log-mode materialization, a reset ([ResetSyscalls] or
    [ResetAvcs]) is only called directly after the create-or-update of
    the profile object it is for (same kind, named as the recording
    without its last "-" and what follows) has succeeded and its event is
    recorded; no reset follows a snapshot ([Syscalls], [Avcs]) or a
    create-or-update that failed; and when the policy cannot be formatted,
    the SELinux collection returns the wrapped error after the snapshot
    and one warning event, with no write and no reset. *)
Theorem log_mode_reset_after_write (n : NamespacedName)
    (profiles : list profileToCollect) (r : RecorderReconciler World) :
  (exists d : list (Call * bool),
     trace (snd (collectLogProfiles n profiles r)) = (trace r ++ d)%list /\
     (forall (t1 t2 : list (Call * bool)) (c : Call) (ok : bool),
        d = (t1 ++ (c, ok) :: t2)%list -> is_reset c = true ->
        exists (t0 : list (Call * bool)) (obj : Object),
          t1 = (t0 ++ [(CallCreateOrUpdate obj, true);
                       (CallRecordEvent Normal reasonProfileCreated, true)])%list /\
          written_for obj c) /\
     (forall (t1 t2 : list (Call * bool)) (c : Call),
        d = (t1 ++ (c, false) :: t2)%list ->
        is_snapshot c || is_write c = true ->
        Forall (fun x => is_reset (fst x) = false) t2)) /\
  (forall (profileName namespace profileID : string)
          (response : list AvcResponse_SelinuxAvc) (w : World) (e : error),
     enricherClient_Avcs profileID (world r) = (Ok response, w) ->
     formatSelinuxProfile (GetPolicyUsage profileName namespace) response = Err e ->
     fst (collectLogSelinuxProfile profileName namespace profileID r)
     = Err (errors_Wrap e "format selinuxprofile resource") /\
     trace (snd (collectLogSelinuxProfile profileName namespace profileID r))
     = (trace r ++ [(CallAvcs profileID, true);
                    (CallRecordEvent Warning reasonProfileCreationFailed, true)])%list).
Proof.
  split.
  - destruct (collectLogProfiles_rounds n profiles r) as (d & Hd & Hr).
    exists d. split; [exact Hd|]. split.
    + now apply rounds_reset_after_write.
    + now apply rounds_quiet_after_failure.
  - intros profileName namespace profileID response w e Havcs Hfmt.
    unfold collectLogSelinuxProfile, call. rewrite Havcs, Hfmt. cbn.
    now rewrite <- app_assoc.
Qed.

(** ** An empty profile name *)

(** C9. [extractProfileName] can succeed with an empty result: for every
    string whose only "-" is its first byte, such as "-1600000000", it
    returns the empty string and no error; so log-mode collection of a
    seccomp recording so named, once the enricher is enabled and dialled
    and has given its syscalls, calls create-or-update on a profile object
    whose name is empty. *)
Theorem extractProfileName_empty_name (q : string) :
  count_byte "-" q = 0 ->
  extractProfileName ("-" ++ q) = Ok "" /\
  forall (n : NamespacedName) (r : RecorderReconciler World)
         (spod : SecurityProfilesOperatorDaemon) (w1 w2 w3 : World)
         (names : list string),
    client_Get_SPOD (world r) = (Ok spod, w1) ->
    EnableLogEnricher spod = true ->
    enricher_Dial w1 = (Ok tt, w2) ->
    enricherClient_Syscalls ("-" ++ q) w2 = (Ok names, w3) ->
    exists ok : bool,
      In (CallCreateOrUpdate (SeccompProfileOfSyscalls "" (Namespace n) names), ok)
        (trace (snd (collectLogProfiles n
                       [{| kind := ProfileRecordingKindSeccompProfile;
                           name := "-" ++ q |}] r))).
Proof.
  intros Hq.
  assert (extractProfileName ("-" ++ q) = Ok "") as Hname.
  { unfold extractProfileName. change ("-" ++ q) with ("" ++ String "-"%char q).
    change "-" with (String "-"%char "") at 1 2.
    now rewrite (LastIndex_last "-" "" q Hq). }
  split; [exact Hname|].
  intros n r spod w1 w2 w3 names Hspod Hen Hdial Hsys.
  unfold collectLogProfiles, bind, wrap, call, fail. rewrite Hspod. cbn.
  rewrite Hen. cbn. rewrite Hdial. cbn.
  unfold collectLogProfiles_body, bind, wrap, lift. cbn [name kind].
  rewrite Hname.
  unfold collectLogSeccompProfile, createOrUpdate, call, recordEvent. cbn.
  rewrite Hsys. cbn.
  destruct (controllerutil_CreateOrUpdate _ w3) as [[[]|e] w4]; cbn.
  - exists true.
    destruct (enricherClient_ResetSyscalls _ _) as [[[]|e] w5]; cbn;
      rewrite !in_app_iff; cbn [In]; auto 7.
  - exists false. rewrite !in_app_iff; cbn [In]; auto 7.
Qed.

(** ** The permissions the builder holds *)

Lemma added_all_snoc (sb : seProfileBuilder) (avcs : list AvcResponse_SelinuxAvc)
    (avc : AvcResponse_SelinuxAvc) :
  added_all sb (avcs ++ [avc]) = added (added_all sb avcs) avc.
Proof. unfold added_all. now rewrite fold_left_app. Qed.

Lemma well_formed_snoc (avcs : list AvcResponse_SelinuxAvc)
    (avc : AvcResponse_SelinuxAvc) :
  well_formed (avcs ++ [avc]) = well_formed avcs && is_ok (ctxt2type (Tcontext avc)).
Proof.
  unfold well_formed. rewrite forallb_app. cbn. now rewrite andb_true_r.
Qed.

Lemma perms_of_snoc (avcs : list AvcResponse_SelinuxAvc)
    (avc : AvcResponse_SelinuxAvc) (key : string) :
  perms_of (avcs ++ [avc]) key
  = perms_of avcs key ∪ (if decide (avc_key avc = Some key) then {[Perm avc]} else ∅).
Proof.
  unfold perms_of. rewrite filter_app, fmap_app, list_to_set_app_L. f_equal.
  rewrite filter_cons, filter_nil.
  destruct (decide (avc_key avc = Some key)); cbn; [|reflexivity].
  apply (right_id_L ∅ (∪)).
Qed.

Lemma elem_of_perms_of (avcs : list AvcResponse_SelinuxAvc) (key perm : string) :
  perm ∈ perms_of avcs key <->
  exists avc, avc ∈ avcs /\ avc_key avc = Some key /\ Perm avc = perm.
Proof.
  unfold perms_of. rewrite elem_of_list_to_set, list_elem_of_fmap. split.
  - intros (avc & -> & Hin). apply list_elem_of_filter in Hin as [Hk Hin]. eauto.
  - intros (avc & Hin & Hk & <-). exists avc. split; [reflexivity|].
    now apply list_elem_of_filter.
Qed.

(** After the AVCs of a well-formed list, the builder has one key for
    each AVC, in their order, and maps a key to the permissions filed
    under it, or to nothing when there are none. *)
Lemma added_all_content (policyUsage : string) (avcs : list AvcResponse_SelinuxAvc) :
  well_formed avcs = true ->
  keys (added_all (newSeProfileBuilder policyUsage) avcs) = omap avc_key avcs /\
  usageCtx (added_all (newSeProfileBuilder policyUsage) avcs) = policyUsage /\
  policyBuilder (added_all (newSeProfileBuilder policyUsage) avcs) = "" /\
  forall key : string,
    permMap (added_all (newSeProfileBuilder policyUsage) avcs) !! key
    = if decide (perms_of avcs key = ∅) then None else Some (perms_of avcs key).
Proof.
  induction avcs as [|x l IH] using rev_ind; intros Hwf.
  - cbn. split_and!; try reflexivity; intros key; now rewrite lookup_empty.
  - rewrite well_formed_snoc in Hwf. apply andb_prop in Hwf as [Hl Hx].
    destruct (IH Hl) as (Hk & Hu & Hp & Hm). clear IH.
    rewrite added_all_snoc. unfold added.
    destruct (ctxt2type (Tcontext x)) as [ty|e] eqn:Ht; [|discriminate].
    rewrite (addAvc_ok _ _ _ Ht). cbn [snd keys usageCtx policyBuilder permMap].
    assert (avc_key x = Some (Tclass x ++ " " ++ ty)) as Hkx
      by (unfold avc_key; now rewrite Ht).
    split_and!; try assumption.
    + rewrite Hk, omap_app. cbn. now rewrite Hkx.
    + intros key. rewrite perms_of_snoc, Hkx.
      destruct (decide (Some (Tclass x ++ " " ++ ty) = Some key)) as [[= <-]|Hne].
      * rewrite lookup_insert_eq, Hm.
        destruct (decide (perms_of l _ = ∅)) as [->|Hnz].
        -- rewrite (left_id_L ∅ (∪)).
           destruct (decide (_ = ∅)) as [He|_]; [|reflexivity].
           now apply non_empty_singleton_L in He.
        -- destruct (decide (_ ∪ _ = ∅)) as [He|_]; [|reflexivity].
           apply empty_union_L in He as [He _]. contradiction.
      * rewrite lookup_insert_ne by congruence.
        now rewrite Hm, (right_id_L ∅ (∪)).
Qed.

Lemma AddAvcList_ok_well_formed (avcs : list AvcResponse_SelinuxAvc)
    (sb : seProfileBuilder) :
  fst (AddAvcList avcs sb) = Ok tt -> well_formed avcs = true.
Proof.
  intros Hok. pose proof (AddAvcList_result avcs sb) as Hr.
  destruct (well_formed avcs); [reflexivity|]. congruence.
Qed.

(** X1. When [AddAvcList] succeeds on a fresh builder, the builder's keys
    are the keys of the AVCs, one for each AVC and in their order, and a
    permission is in the set [permMap] holds for a key exactly when some
    AVC of the list with that key (class, space, type of the target
    context) carries it; a key of no AVC maps to nothing. *)
Theorem AddAvcList_permMap (policyUsage : string)
    (avcs : list AvcResponse_SelinuxAvc) :
  fst (AddAvcList avcs (newSeProfileBuilder policyUsage)) = Ok tt ->
  keys (snd (AddAvcList avcs (newSeProfileBuilder policyUsage)))
  = omap avc_key avcs /\
  forall key perm : string,
    (exists perms : gset string,
       permMap (snd (AddAvcList avcs (newSeProfileBuilder policyUsage))) !! key
       = Some perms /\ perm ∈ perms)
    <-> (exists avc, avc ∈ avcs /\ avc_key avc = Some key /\ Perm avc = perm).
Proof.
  intros Hok. pose proof (AddAvcList_ok_well_formed _ _ Hok) as Hwf.
  pose proof (AddAvcList_result avcs (newSeProfileBuilder policyUsage)) as Hr.
  rewrite Hwf in Hr. rewrite Hr. cbn [snd].
  destruct (added_all_content policyUsage avcs Hwf) as (Hk & _ & _ & Hm).
  split; [exact Hk|]. intros key perm. rewrite Hm, <- elem_of_perms_of.
  destruct (decide (perms_of avcs key = ∅)) as [He|Hne].
  - rewrite He. split; [now intros (? & [=] & _)|]. intros Hin.
    now apply not_elem_of_empty in Hin.
  - split; [now intros (? & [= <-] & ?)|]. eauto.
Qed.

(** ** What [Format] writes and how it fails *)

Lemma append_assoc (a b c : string) : (a ++ b) ++ c = a ++ (b ++ c).
Proof.
  induction a as [|x a IH]; [reflexivity|]. rewrite !append_cons. now rewrite IH.
Qed.

Lemma append_nil_r (a : string) : a ++ "" = a.
Proof.
  induction a as [|x a IH]; [reflexivity|]. rewrite append_cons. now rewrite IH.
Qed.

Lemma policyLine_allow_line (tclass tcontext : string) (perms : gset string) :
  perms <> ∅ ->
  policyLine tclass tcontext (Some perms) = Ok (allow_line tcontext tclass perms).
Proof.
  intros Hne. unfold policyLine, allow_line, sets_List.
  destruct (Nat.eqb_spec (size perms) 0) as [Hz|_].
  - now apply size_empty_iff, leibniz_equiv in Hz.
  - now rewrite (sort_Strings_sorted_id (sort_Strings _))
      by apply sort_Strings_Sorted.
Qed.

(** One turn of the loop of [Format] on a key that has permissions. *)
Lemma Format_body_cases (key : string) (perms : gset string) (sb : seProfileBuilder) :
  permMap sb !! key = Some perms -> perms <> ∅ ->
  Format_body key sb
  = if String.eqb (fst (targetClassCtx sb key)) ""
       || String.eqb (snd (targetClassCtx sb key)) ""
    then (Err errEmptyContextOrClass, sb)
    else (Ok tt, WriteString (allow_line (snd (targetClassCtx sb key))
                                (fst (targetClassCtx sb key)) perms) sb).
Proof.
  intros Hk Hne. unfold Format_body, writeLineFromKeyVal, bind, get, wrap, lift,
    modify, fail.
  rewrite Hk. destruct (targetClassCtx sb key) as [tclass tcontext]. cbn [fst snd].
  destruct (_ || _); [reflexivity|].
  now rewrite (policyLine_allow_line _ _ _ Hne).
Qed.

Lemma targetClassCtx_WriteString (line key : string) (sb : seProfileBuilder) :
  targetClassCtx (WriteString line sb) key = targetClassCtx sb key.
Proof. reflexivity. Qed.

(** The loop of [Format] over keys that have permissions: it fails only
    with the empty context or class error, and when it succeeds every key
    has a class and a context. *)
Lemma Format_range_outcome (ks : list string) (sb : seProfileBuilder) :
  keys_have_perms ks (permMap sb) ->
  match for_range ks Format_body sb with
  | (Ok _, sb') =>
      permMap sb' = permMap sb /\ usageCtx sb' = usageCtx sb /\
      Forall (fun key => String.eqb (fst (targetClassCtx sb key)) ""
                         || String.eqb (snd (targetClassCtx sb key)) "" = false) ks
  | (Err e, _) => e = errEmptyContextOrClass
  end.
Proof.
  revert sb. induction ks as [|k ks IH]; intros sb Hks.
  - cbn. auto.
  - cbn [for_range]. unfold bind.
    destruct (Hks k) as (perms & Hk & Hne); [left|].
    rewrite (Format_body_cases k perms sb Hk Hne).
    destruct (_ || _) eqn:Hempty; [reflexivity|].
    specialize (IH (WriteString (allow_line (snd (targetClassCtx sb k))
                                   (fst (targetClassCtx sb k)) perms) sb)).
    destruct (for_range ks Format_body _) as [[[]|e] sb'].
    + destruct IH as (Hm & Hu & Hall);
        [intros key Hin; apply Hks; now right|].
      split_and!; [exact Hm|exact Hu|]. constructor; assumption.
    + apply IH. intros key Hin. apply Hks. now right.
Qed.

Lemma added_all_keys_have_perms (policyUsage : string)
    (avcs : list AvcResponse_SelinuxAvc) :
  well_formed avcs = true ->
  keys_have_perms (sort_Strings (keys (added_all (newSeProfileBuilder policyUsage) avcs)))
    (permMap (added_all (newSeProfileBuilder policyUsage) avcs)).
Proof.
  intros Hwf key Hin. destruct (added_all_content policyUsage avcs Hwf)
    as (Hk & _ & _ & Hm).
  rewrite sort_Strings_Permutation, Hk in Hin.
  apply list_elem_of_omap in Hin as (avc & Hin & Hkey).
  assert (Perm avc ∈ perms_of avcs key) as Hp
    by (apply elem_of_perms_of; eauto).
  exists (perms_of avcs key). rewrite Hm.
  destruct (decide (perms_of avcs key = ∅)) as [He|Hne]; [|auto].
  rewrite He in Hp. now apply not_elem_of_empty in Hp.
Qed.

(** [Format] on the builder of a well-formed list. *)
Lemma Format_added_all (policyUsage : string) (avcs : list AvcResponse_SelinuxAvc) :
  well_formed avcs = true ->
  match fst (Format (added_all (newSeProfileBuilder policyUsage) avcs)) with
  | Ok _ =>
      Forall (fun key =>
                String.eqb (fst (targetClassCtx
                                   (newSeProfileBuilder policyUsage) key)) ""
                || String.eqb (snd (targetClassCtx
                                      (newSeProfileBuilder policyUsage) key)) ""
                = false)
        (omap avc_key avcs)
  | Err e => e = errEmptyContextOrClass
  end.
Proof.
  intros Hwf. pose proof (added_all_keys_have_perms policyUsage avcs Hwf) as Hks.
  destruct (added_all_content policyUsage avcs Hwf) as (Hk & Hu & _ & _).
  unfold Format. unfold bind at 1 2 3, modify at 1 2, get at 1.
  set (sb1 := set_keys sort_Strings (WriteString _ _)).
  pose proof (Format_range_outcome (keys sb1) sb1) as Hloop.
  unfold bind at 1.
  destruct (for_range (keys sb1) Format_body sb1) as [[[]|e] sb2];
    cbn [fst]; [|now apply Hloop].
  destruct Hloop as (_ & _ & Hall); [exact Hks|].
  unfold bind, get, ret. cbn [fst].
  subst sb1. cbn [keys set_keys WriteString] in Hall.
  rewrite Forall_forall in Hall. apply Forall_forall. intros key Hin.
  rewrite <- Hk in Hin. rewrite <- sort_Strings_Permutation in Hin.
  specialize (Hall key Hin). unfold targetClassCtx in *.
  cbn [usageCtx set_keys WriteString newSeProfileBuilder] in *.
  now rewrite Hu in Hall.
Qed.

(** X2. [formatSelinuxProfile] has two ways to fail and no other: an AVC
    whose target context has no type (the error of [AddAvcList]), or a
    key whose class or context is empty.  It never fails for want of
    permissions: every key the builder holds has some. *)
Theorem formatSelinuxProfile_errors (policyUsage : string)
    (avcs : list AvcResponse_SelinuxAvc) (e : error) :
  formatSelinuxProfile policyUsage avcs = Err e ->
  (well_formed avcs = false /\ e = errors_Wrap errAddAvc "consuming AVCs") \/
  (well_formed avcs = true /\
   e = errors_Wrap errEmptyContextOrClass "building policy").
Proof.
  unfold formatSelinuxProfile.
  pose proof (AddAvcList_result avcs (newSeProfileBuilder policyUsage)) as Ha.
  destruct (well_formed avcs) eqn:Hwf.
  - rewrite Ha. pose proof (Format_added_all policyUsage avcs Hwf) as Hf.
    destruct (Format _) as [[pol|e'] sb']; [discriminate|].
    cbn in Hf. subst e'. intros [= <-]. now right.
  - destruct (AddAvcList avcs _) as [r s]. cbn in Ha. subst r.
    intros [= <-]. now left.
Qed.

Lemma targetClassCtx_empty_class (sb : seProfileBuilder) (ty : string) :
  fst (targetClassCtx sb ("" ++ " " ++ ty)) = "".
Proof.
  unfold targetClassCtx. change ("" ++ " " ++ ty) with ("" ++ String " "%char ty).
  rewrite (Split_first " " "" ty eq_refl). cbn [nth].
  now destruct (String.eqb _ _).
Qed.

Lemma targetClassCtx_empty_type (sb : seProfileBuilder) (tclass : string) :
  count_byte " " tclass = 0 ->
  String.eqb SelinuxPermissiveProfile "" = false ->
  snd (targetClassCtx sb (tclass ++ " " ++ "")) = "".
Proof.
  intros Hc Hs. unfold targetClassCtx.
  change (tclass ++ " " ++ "") with (tclass ++ String " "%char "").
  rewrite (Split_first _ _ _ Hc). cbn [Split nth].
  rewrite String.eqb_sym, Hs. reflexivity.
Qed.

(** X3. Among AVCs that all have a three-part context, one with an empty
    class, or with an empty type and a class without a space when the
    sentinel is not empty, passes [AddAvcList] and makes [Format] fail:
    the policy is the empty context or class error. *)
Theorem formatSelinuxProfile_empty_field (policyUsage : string)
    (avcs : list AvcResponse_SelinuxAvc) (avc : AvcResponse_SelinuxAvc) :
  well_formed avcs = true ->
  avc ∈ avcs ->
  Tclass avc = "" \/
  (ctxt2type (Tcontext avc) = Ok "" /\ count_byte " " (Tclass avc) = 0 /\
   String.eqb SelinuxPermissiveProfile "" = false) ->
  fst (AddAvcList avcs (newSeProfileBuilder policyUsage)) = Ok tt /\
  formatSelinuxProfile policyUsage avcs
  = Err (errors_Wrap errEmptyContextOrClass "building policy").
Proof.
  intros Hwf Hin Hbad.
  pose proof (AddAvcList_result avcs (newSeProfileBuilder policyUsage)) as Ha.
  rewrite Hwf in Ha. split; [now rewrite Ha|].
  unfold formatSelinuxProfile. rewrite Ha.
  pose proof (Format_added_all policyUsage avcs Hwf) as Hf.
  destruct (Format _) as [[pol|e'] sb']; cbn [fst] in Hf; [|now subst e'].
  exfalso. rewrite Forall_forall in Hf.
  assert (exists ty, ctxt2type (Tcontext avc) = Ok ty) as [ty Hty].
  { unfold well_formed in Hwf. rewrite forallb_forall in Hwf.
    apply list_elem_of_In, Hwf in Hin.
    destruct (ctxt2type (Tcontext avc)); [eauto|discriminate]. }
  specialize (Hf (Tclass avc ++ " " ++ ty)).
  rewrite list_elem_of_omap in Hf.
  assert (avc_key avc = Some (Tclass avc ++ " " ++ ty)) as Hkey
    by (unfold avc_key; now rewrite Hty).
  specialize (Hf (ex_intro _ avc (conj Hin Hkey))).
  apply orb_false_elim in Hf as [Hc Ht].
  destruct Hbad as [Hclass|(Hty' & Hsp & Hs)].
  - rewrite Hclass, targetClassCtx_empty_class in Hc. discriminate.
  - rewrite Hty' in Hty. injection Hty as <-.
    rewrite (targetClassCtx_empty_type _ _ Hsp Hs) in Ht. discriminate.
Qed.

Lemma concat_empty_cons (x : string) (l : list string) :
  String.concat "" (x :: l) = x ++ String.concat "" l.
Proof.
  destruct l as [|y l]; [now rewrite append_nil_r|].
  now rewrite concat_cons, append_nil_l.
Qed.

Lemma WriteString_WriteString (a b : string) (sb : seProfileBuilder) :
  WriteString b (WriteString a sb) = WriteString (a ++ b) sb.
Proof. unfold WriteString. cbn. now rewrite append_assoc. Qed.

(** The loop of [Format] over keys that have permissions, a class and a
    context writes their lines one after the other. *)
Lemma Format_range_lines (ks : list string) (sb : seProfileBuilder) :
  keys_have_perms ks (permMap sb) ->
  Forall (fun key => String.eqb (fst (targetClassCtx sb key)) ""
                     || String.eqb (snd (targetClassCtx sb key)) "" = false) ks ->
  for_range ks Format_body sb
  = (Ok tt, WriteString (String.concat "" (key_line sb <$> ks)) sb).
Proof.
  intros Hks Hall. revert Hks.
  enough (forall pre, keys_have_perms ks (permMap sb) ->
            for_range ks Format_body (WriteString pre sb)
            = (Ok tt, WriteString (pre ++ String.concat "" (key_line sb <$> ks)) sb))
    as Hgen.
  { intros Hks. specialize (Hgen "" Hks). rewrite append_nil_l in Hgen.
    rewrite <- Hgen. f_equal. unfold WriteString. destruct sb; cbn.
    now rewrite append_nil_r. }
  induction Hall as [|k ks Hk Hall IH]; intros pre Hks.
  - cbn. now rewrite append_nil_r.
  - cbn [for_range]. unfold bind.
    destruct (Hks k) as (perms & Hp & Hne); [left|].
    rewrite (Format_body_cases k perms (WriteString pre sb) Hp Hne).
    rewrite targetClassCtx_WriteString, Hk, WriteString_WriteString.
    rewrite IH by (intros key Hin; apply Hks; now right).
    rewrite fmap_cons, concat_empty_cons, append_assoc.
    unfold key_line at 2. now rewrite Hp.
Qed.

Lemma plain_spec (s : string) :
  plain s = true -> String.eqb s "" = false /\ count_byte " " s = 0.
Proof.
  unfold plain. intros [H1 H2]%andb_true_iff.
  apply negb_true_iff in H1. now apply Nat.eqb_eq in H2.
Qed.

Lemma targetClassCtx_plain (sb : seProfileBuilder) (tclass ty : string) :
  count_byte " " tclass = 0 -> count_byte " " ty = 0 ->
  targetClassCtx sb (tclass ++ " " ++ ty)
  = (tclass, if String.eqb ty SelinuxPermissiveProfile then usageCtx sb else ty).
Proof.
  intros Hc Ht. unfold targetClassCtx.
  change (tclass ++ " " ++ ty) with (tclass ++ String " "%char ty).
  rewrite (Split_first _ _ _ Hc), (Split_absent _ _ Ht). cbn [nth].
  now destruct (String.eqb ty _).
Qed.

Lemma plain_well_formed (avcs : list AvcResponse_SelinuxAvc) :
  forallb plain_avc avcs = true -> well_formed avcs = true.
Proof.
  unfold well_formed. rewrite !forallb_forall. intros H avc Hin.
  specialize (H avc Hin). unfold plain_avc in H.
  now destruct (ctxt2type (Tcontext avc)).
Qed.

Lemma well_formed_keys (avcs : list AvcResponse_SelinuxAvc) :
  well_formed avcs = true -> omap avc_key avcs = key_of <$> avcs.
Proof.
  unfold well_formed. induction avcs as [|avc avcs IH]; [reflexivity|].
  cbn [forallb]. intros [Ha Hl]%andb_true_iff.
  rewrite fmap_cons, <- (IH Hl).
  change (omap avc_key (avc :: avcs))
    with (match avc_key avc with
          | Some key => key :: omap avc_key avcs
          | None => omap avc_key avcs
          end).
  unfold key_of. unfold is_ok in Ha.
  destruct (avc_key avc) as [key|] eqn:Hkey; [reflexivity|].
  unfold avc_key in Hkey. now destruct (ctxt2type (Tcontext avc)).
Qed.

(** Sorting the keys is sorting the AVCs by their keys. *)
Lemma sort_Strings_keys (avcs : list AvcResponse_SelinuxAvc) :
  sort_Strings (key_of <$> avcs) = key_of <$> merge_sort avc_le avcs.
Proof.
  apply (Sorted_unique String.le).
  - apply sort_Strings_Sorted.
  - apply (Sorted_fmap key_of avc_le String.le); [auto|].
    apply (Sorted_merge_sort avc_le).
  - rewrite sort_Strings_Permutation.
    now rewrite (merge_sort_Permutation avc_le avcs).
Qed.

(** X4. For AVCs that all have a three-part target context, a class and
    a type that are not empty and hold no space, and a usage context
    that is not empty, [formatSelinuxProfile] succeeds and the policy is
    the header line followed by one allow line per AVC (not per key), the
    AVCs taken in the order of their keys; the line of an AVC names the
    usage context when its type is the sentinel and its type otherwise,
    and lists every permission recorded under its key. *)
Theorem formatSelinuxProfile_policy (policyUsage : string)
    (avcs : list AvcResponse_SelinuxAvc) :
  forallb plain_avc avcs = true ->
  String.eqb policyUsage "" = false ->
  formatSelinuxProfile policyUsage avcs
  = Ok (line_header
        ++ String.concat "" (avc_line policyUsage avcs <$> merge_sort avc_le avcs)).
Proof.
  intros Hplain Husage. pose proof (plain_well_formed avcs Hplain) as Hwf.
  pose proof (AddAvcList_result avcs (newSeProfileBuilder policyUsage)) as Ha.
  rewrite Hwf in Ha. unfold formatSelinuxProfile. rewrite Ha.
  pose proof (added_all_keys_have_perms policyUsage avcs Hwf) as Hks.
  destruct (added_all_content policyUsage avcs Hwf) as (Hk & Hu & Hb & Hm).
  rewrite Hk, (well_formed_keys avcs Hwf), sort_Strings_keys in Hks.
  unfold Format. unfold bind at 1 2 3, modify at 1 2, get at 1.
  set (sb1 := set_keys sort_Strings (WriteString _ _)).
  assert (keys sb1 = key_of <$> merge_sort avc_le avcs) as Hkeys.
  { subst sb1. cbn [keys set_keys WriteString].
    now rewrite Hk, (well_formed_keys avcs Hwf), sort_Strings_keys. }
  assert (forall avc, avc ∈ merge_sort avc_le avcs ->
            exists ty, ctxt2type (Tcontext avc) = Ok ty /\
              key_of avc = Tclass avc ++ " " ++ ty /\
              targetClassCtx sb1 (key_of avc)
              = (Tclass avc,
                 if String.eqb ty SelinuxPermissiveProfile then policyUsage else ty) /\
              String.eqb (Tclass avc) "" = false /\ String.eqb ty "" = false)
    as Havc.
  { intros avc Hin. rewrite (merge_sort_Permutation avc_le avcs) in Hin.
    rewrite forallb_forall in Hplain. apply list_elem_of_In, Hplain in Hin.
    unfold plain_avc in Hin. unfold key_of, avc_key.
    destruct (ctxt2type (Tcontext avc)) as [ty|]; [|discriminate].
    apply andb_true_iff in Hin as [[Hc1 Hc2]%plain_spec [Ht1 Ht2]%plain_spec].
    exists ty. split_and!; try done. cbn [default].
    rewrite (targetClassCtx_plain _ _ _ Hc2 Ht2). subst sb1.
    cbn [usageCtx set_keys WriteString]. now rewrite Hu. }
  unfold bind at 1. rewrite Hkeys. rewrite Format_range_lines.
  - unfold bind, get, ret. cbn [fst snd policyBuilder WriteString].
    subst sb1. cbn [policyBuilder set_keys WriteString]. rewrite Hb.
    rewrite append_nil_l. f_equal. unfold line_header. f_equal.
    rewrite <- list_fmap_compose. f_equal. apply list_fmap_ext.
    intros i avc Hi. apply list_elem_of_lookup_2 in Hi.
    destruct (Havc avc Hi) as (ty & Hty & Hkey & Htc & _).
    cbn [compose]. unfold key_line, avc_line. rewrite Htc, Hty. cbn [fst snd].
    f_equal. rewrite <- Hkey. cbn [permMap set_keys WriteString]. rewrite Hm.
    now destruct (decide (perms_of avcs (key_of avc) = ∅)) as [->|].
  - subst sb1. cbn [permMap set_keys WriteString]. exact Hks.
  - apply Forall_fmap, Forall_forall. intros avc Hin.
    destruct (Havc avc Hin) as (ty & _ & _ & Htc & Hc & Ht).
    cbn [compose]. rewrite Htc. cbn [fst snd]. rewrite Hc. cbn [orb].
    now destruct (String.eqb ty SelinuxPermissiveProfile).
Qed.

(** ** What the annotations of a pod give *)

Lemma range_entries_ok (entry : string * string -> option (result profileToCollect))
    (l : list (string * string)) (res : list profileToCollect) :
  range_entries entry l [] = Ok res ->
  (forall kv e, kv ∈ l -> entry kv <> Some (Err e)) /\
  res = omap (fun kv => match entry kv with Some (Ok p) => Some p | _ => None end) l.
Proof.
  revert res. induction l as [|kv l IH]; intros res.
  - intros [= <-]. split; [|reflexivity]. intros kv e Hin.
    now apply elem_of_nil in Hin.
  - rewrite range_entries_cons.
    change (omap ?f (kv :: l))
      with (match f kv with Some y => y :: omap f l | None => omap f l end).
    cbv beta. destruct (entry kv) as [[p|e]|] eqn:Hkv.
    + destruct (range_entries entry l []) as [out|]; [|discriminate].
      intros [= <-]. destruct (IH out eq_refl) as [Hno ->]. split; [|reflexivity].
      intros kv' e [->|Hin]%elem_of_cons; [congruence|now apply Hno].
    + discriminate.
    + intros Hres. destruct (IH res Hres) as [Hno ->]. split; [|reflexivity].
      intros kv' e [->|Hin]%elem_of_cons; [congruence|now apply Hno].
Qed.

Lemma range_entries_err (entry : string * string -> option (result profileToCollect))
    (l : list (string * string)) (e : error) :
  range_entries entry l [] = Err e ->
  exists kv, kv ∈ l /\ entry kv = Some (Err e).
Proof.
  induction l as [|kv l IH]; [discriminate|].
  rewrite range_entries_cons. destruct (entry kv) as [[p|e']|] eqn:Hkv.
  - destruct (range_entries entry l []) as [out|e'']; [discriminate|].
    intros [= <-]. destruct (IH eq_refl) as (kv' & Hin & Hk).
    exists kv'. split; [now right|exact Hk].
  - intros [= <-]. exists kv. split; [left|exact Hkv].
  - intros Hres. destruct (IH Hres) as (kv' & Hin & Hk).
    exists kv'. split; [now right|exact Hk].
Qed.

(** X5. When [parseHookAnnotations] succeeds, every annotation under the
    hook key is valid (its value starts with "of:" and names an absolute,
    non-empty file), also those it leaves out; and the profiles returned
    are the seccomp profiles of the files under the recording output
    path, no other. *)
Theorem parseHookAnnotations_profiles (annotations : list (string * string))
    (res : list profileToCollect) :
  parseHookAnnotations annotations = Ok res ->
  (forall key value : string,
     (key, value) ∈ annotations ->
     HasPrefix key SeccompProfileRecordHookAnnotationKey = true ->
     HasPrefix value "of:" = true /\ IsAbs (TrimSpace (TrimPrefix value "of:")) = true /\
     TrimSpace (TrimPrefix value "of:") <> "") /\
  (forall prf : profileToCollect,
     prf ∈ res <->
     kind prf = ProfileRecordingKindSeccompProfile /\
     exists key value : string,
       (key, value) ∈ annotations /\
       HasPrefix key SeccompProfileRecordHookAnnotationKey = true /\
       name prf = TrimSpace (TrimPrefix value "of:") /\
       HasPrefix (name prf) ProfileRecordingOutputPath = true).
Proof.
  unfold parseHookAnnotations. rewrite parseHookAnnotations_range_entries.
  intros [Hno ->]%range_entries_ok. split.
  - intros key value Hin Hkey. specialize (Hno (key, value)).
    unfold hook_entry in Hno. rewrite Hkey in Hno. cbn [negb] in Hno.
    destruct (HasPrefix value "of:"); cbn [negb] in Hno;
      [|exfalso; eapply Hno; [exact Hin|reflexivity]].
    destruct (IsAbs _); cbn [negb] in Hno;
      [|exfalso; eapply Hno; [exact Hin|reflexivity]].
    destruct (String.eqb_spec (TrimSpace (TrimPrefix value "of:")) "") as [Heq|Hne];
      [exfalso; eapply Hno; [exact Hin|reflexivity]|].
    auto.
  - intros prf. rewrite list_elem_of_omap. split.
    + intros ([key value] & Hin & Hp). unfold hook_entry in Hp.
      destruct (HasPrefix key _) eqn:Hkey; cbn [negb] in Hp; [|discriminate].
      destruct (HasPrefix value "of:"); cbn [negb] in Hp; [|discriminate].
      destruct (IsAbs _); cbn [negb] in Hp; [|discriminate].
      destruct (String.eqb _ ""); [discriminate|].
      destruct (HasPrefix _ ProfileRecordingOutputPath) eqn:Hout;
        cbn [negb] in Hp; [|discriminate].
      injection Hp as <-. cbn [kind name]. split; [reflexivity|].
      exists key, value. auto.
    + intros (Hkind & key & value & Hin & Hkey & Hname & Hout).
      exists (key, value). split; [exact Hin|].
      pose proof (Hno (key, value)) as Hno'. unfold hook_entry in Hno' |- *.
      rewrite Hkey in Hno' |- *. cbn [negb] in Hno' |- *.
      destruct (HasPrefix value "of:"); cbn [negb] in Hno' |- *;
        [|exfalso; eapply Hno'; [exact Hin|reflexivity]].
      destruct (IsAbs _); cbn [negb] in Hno' |- *;
        [|exfalso; eapply Hno'; [exact Hin|reflexivity]].
      destruct (String.eqb _ "");
        [exfalso; eapply Hno'; [exact Hin|reflexivity]|].
      rewrite <- Hname, Hout. cbn [negb]. f_equal.
      destruct prf as [k nm]. cbn in *. now subst k.
Qed.

(** X6. The check for an empty output file in [parseHookAnnotations]
    comes after the check for an absolute path: when the empty path is
    not absolute, as with Go's [filepath.IsAbs], the parse never fails
    with "providing output file is mandatory"; it fails with one of the
    two other errors, for an annotation of the map under the hook key. *)
Theorem parseHookAnnotations_never_mandatory (annotations : list (string * string))
    (e : error) :
  IsAbs "" = false ->
  parseHookAnnotations annotations = Err e ->
  e <> errors_Wrap (errors_New errInvalidAnnotation)
         "providing output file is mandatory" /\
  exists key value : string,
    (key, value) ∈ annotations /\
    HasPrefix key SeccompProfileRecordHookAnnotationKey = true /\
    (e = errors_Wrapf (errors_New errInvalidAnnotation)
           "must start with %q prefix" ["of:"] \/
     e = errors_Wrapf (errors_New errInvalidAnnotation)
           "output file path must be absolute: %q" [TrimSpace (TrimPrefix value "of:")]).
Proof.
  intros Habs. unfold parseHookAnnotations.
  rewrite parseHookAnnotations_range_entries.
  intros ([key value] & Hin & He)%range_entries_err.
  unfold hook_entry in He.
  destruct (HasPrefix key _) eqn:Hkey; cbn [negb] in He; [|discriminate].
  assert (e = errors_Wrapf (errors_New errInvalidAnnotation)
                "must start with %q prefix" ["of:"] \/
          e = errors_Wrapf (errors_New errInvalidAnnotation)
                "output file path must be absolute: %q" [TrimSpace (TrimPrefix value "of:")])
    as Hcases.
  { destruct (HasPrefix value "of:"); cbn [negb] in He;
      [|injection He as <-; now left].
    destruct (IsAbs (TrimSpace (TrimPrefix value "of:"))) eqn:Ha;
      cbn [negb] in He; [|injection He as <-; now right].
    destruct (String.eqb_spec (TrimSpace (TrimPrefix value "of:")) "") as [Heq|Hne].
    - rewrite Heq in Ha. congruence.
    - now destruct (negb (HasPrefix _ ProfileRecordingOutputPath)). }
  split; [destruct Hcases as [-> | ->]; discriminate|].
  exists key, value. auto.
Qed.

(** The kind [parseLogAnnotations] gives to a key: seccomp first. *)
Lemma log_entry_cases (key profile : string) :
  log_entry (key, profile)
  = if HasPrefix key SeccompProfileRecordLogsAnnotationKey
       || HasPrefix key SelinuxProfileRecordLogsAnnotationKey
    then if String.eqb profile ""
         then Some (Err (errors_Wrap (errors_New errInvalidAnnotation)
                           "providing output profile is mandatory"))
         else Some (Ok {| kind :=
                            if HasPrefix key SeccompProfileRecordLogsAnnotationKey
                            then ProfileRecordingKindSeccompProfile
                            else ProfileRecordingKindSelinuxProfile;
                          name := profile |})
    else None.
Proof.
  unfold log_entry.
  destruct (HasPrefix key SeccompProfileRecordLogsAnnotationKey),
    (HasPrefix key SelinuxProfileRecordLogsAnnotationKey); reflexivity.
Qed.

(** X7. [parseLogAnnotations] fails exactly when some annotation under
    one of the two log keys has an empty value, and always with the same
    error.  When it succeeds, the profiles are those of the annotations
    under the log keys, named by their values; a key under both gives a
    seccomp profile; no name is empty and no kind is outside the two the
    collection handles. *)
Theorem parseLogAnnotations_profiles (annotations : list (string * string)) :
  match parseLogAnnotations annotations with
  | Err e =>
      e = errors_Wrap (errors_New errInvalidAnnotation)
            "providing output profile is mandatory" /\
      exists key : string,
        (key, "") ∈ annotations /\
        HasPrefix key SeccompProfileRecordLogsAnnotationKey
        || HasPrefix key SelinuxProfileRecordLogsAnnotationKey = true
  | Ok res =>
      (forall key : string,
         (key, "") ∈ annotations ->
         HasPrefix key SeccompProfileRecordLogsAnnotationKey
         || HasPrefix key SelinuxProfileRecordLogsAnnotationKey = false) /\
      (forall prf : profileToCollect,
         prf ∈ res <->
         name prf <> "" /\
         exists key : string,
           (key, name prf) ∈ annotations /\
           if HasPrefix key SeccompProfileRecordLogsAnnotationKey
           then kind prf = ProfileRecordingKindSeccompProfile
           else HasPrefix key SelinuxProfileRecordLogsAnnotationKey = true /\
                kind prf = ProfileRecordingKindSelinuxProfile)
  end.
Proof.
  unfold parseLogAnnotations. rewrite parseLogAnnotations_range_entries.
  destruct (range_entries log_entry annotations []) as [res|e] eqn:Hres.
  - apply range_entries_ok in Hres as [Hno ->]. split.
    + intros key Hin. specialize (Hno (key, "") (errors_Wrap
        (errors_New errInvalidAnnotation) "providing output profile is mandatory")
        Hin).
      rewrite log_entry_cases in Hno. destruct (_ || _); [|reflexivity].
      now cbn in Hno.
    + intros prf. rewrite list_elem_of_omap. split.
      * intros ([key profile] & Hin & Hp). rewrite log_entry_cases in Hp.
        destruct (HasPrefix key SeccompProfileRecordLogsAnnotationKey) eqn:Hs;
          cbn [orb] in Hp.
        -- destruct (String.eqb_spec profile "") as [|Hne]; [discriminate|].
           injection Hp as <-. cbn [name kind]. split; [exact Hne|].
           exists key. rewrite Hs. auto.
        -- destruct (HasPrefix key SelinuxProfileRecordLogsAnnotationKey) eqn:Hl;
             [|discriminate].
           destruct (String.eqb_spec profile "") as [|Hne]; [discriminate|].
           injection Hp as <-. cbn [name kind]. split; [exact Hne|].
           exists key. rewrite Hs. auto.
      * intros (Hne & key & Hin & Hkind). exists (key, name prf).
        split; [exact Hin|]. rewrite log_entry_cases.
        apply String.eqb_neq in Hne. rewrite Hne.
        destruct prf as [k nm]. cbn [kind name] in *.
        destruct (HasPrefix key SeccompProfileRecordLogsAnnotationKey);
          cbn [orb]; [now subst k|].
        destruct Hkind as [-> ->]. reflexivity.
  - apply range_entries_err in Hres as ([key profile] & Hin & He).
    rewrite log_entry_cases in He.
    destruct (_ || _) eqn:Hkey; [|discriminate].
    destruct (String.eqb_spec profile "") as [->|]; [|discriminate].
    injection He as <-. split; [reflexivity|]. exists key. auto.
Qed.

(** X8. The event filter on annotations lets through every pod that
    [Reconcile] could start to watch: for a pod it refuses, both parses
    succeed and give no profile, and the Pending branch of [Reconcile]
    returns nil without a change and without an event. *)
Theorem isPodWithTraceAnnotation_sound (pod : Pod) (HostIP : string) :
  isPodWithTraceAnnotation (Object_Pod pod HostIP) = false ->
  parseHookAnnotations (Annotations pod) = Ok [] /\
  parseLogAnnotations (Annotations pod) = Ok [] /\
  forall (req : NamespacedName) (r : RecorderReconciler World),
    reconcilePending req pod r = (Ok tt, r).
Proof.
  cbn [isPodWithTraceAnnotation]. intros Hnone.
  assert (parseHookAnnotations (Annotations pod) = Ok [] /\
          parseLogAnnotations (Annotations pod) = Ok []) as [Hh Hl].
  { unfold parseHookAnnotations, parseLogAnnotations.
    rewrite parseHookAnnotations_range_entries, parseLogAnnotations_range_entries.
    induction (Annotations pod) as [|[key value] l IH]; [now split|].
    cbn [existsb fst] in Hnone. apply orb_false_elim in Hnone as [Hk Hnone].
    apply orb_false_elim in Hk as [Hk Hk3]. apply orb_false_elim in Hk as [Hk1 Hk2].
    destruct (IH Hnone) as [IHh IHl]. rewrite !range_entries_cons.
    rewrite log_entry_cases, Hk3, Hk2. cbn [orb].
    unfold hook_entry. rewrite Hk1. cbn [negb]. now split. }
  split_and!; [exact Hh|exact Hl|].
  intros req r. unfold reconcilePending, bind, get.
  destruct (podsToWatch r !! _); [reflexivity|].
  now rewrite Hh, Hl.
Qed.

(** ** [Setup] and the filter on the node of a pod *)

Lemma Setup_range_first (addresses : list NodeAddress) :
  (Setup_range addresses [] = [] /\
   Forall (fun a => Type_ a <> NodeInternalIP) addresses) \/
  exists pre addr post,
    addresses = (pre ++ addr :: post)%list /\
    Forall (fun a => Type_ a <> NodeInternalIP) pre /\
    Type_ addr = NodeInternalIP /\
    Setup_range addresses [] = [Address addr].
Proof.
  induction addresses as [|a l IH]; [left; now split|].
  cbn [Setup_range]. destruct (String.eqb_spec (Type_ a) NodeInternalIP) as [Heq|Hne].
  - right. exists [], a, l. split_and!; auto.
  - destruct IH as [[Hnil Hall]|(pre & addr & post & -> & Hpre & Ht & Hr)].
    + left. split; [exact Hnil|]. now constructor.
    + right. exists (a :: pre), addr, post. split_and!; auto.
Qed.

(** X9. [Setup] returns nil without having built the controller in one
    case and no other: the client was made and the node could not be
    read.  The error it wraps there is the nil one of [client.New], so
    the failure to read the node is not reported. *)
Theorem Setup_unreported_failure (env : SetupEnv) :
  setup_error (Setup env) = None /\ controller_built (Setup env) = false
  <-> client_New env = None /\ is_ok (client_Get_Node env) = false.
Proof.
  unfold Setup. destruct (client_New env) as [e|]; cbn.
  - split; [now intros [? _]|now intros [? _]].
  - destruct (client_Get_Node env) as [addresses|e]; cbn; [|now split].
    destruct (List.length _ =? 0)%nat; cbn; split; intros [? ?]; discriminate.
Qed.

(** X10. When [Setup] assigns the node addresses, it has built the
    controller and returns the error of [Complete]; the addresses are
    one address, that of the first internal address of the node; and
    [isPodOnLocalNode] then accepts the pods whose host IP is that
    address, and nothing else. *)
Theorem Setup_nodeAddresses (env : SetupEnv) (addrs : list string) :
  nodeAddresses (Setup env) = Some addrs ->
  controller_built (Setup env) = true /\
  setup_error (Setup env) = Complete env /\
  exists (pre : list NodeAddress) (addr : NodeAddress) (post : list NodeAddress),
    client_Get_Node env = Ok (pre ++ addr :: post)%list /\
    Forall (fun a => Type_ a <> NodeInternalIP) pre /\
    Type_ addr = NodeInternalIP /\
    addrs = [Address addr] /\
    forall obj : runtime_Object,
      isPodOnLocalNode addrs obj = true
      <-> exists p : Pod, obj = Object_Pod p (Address addr).
Proof.
  unfold Setup. destruct (client_New env) as [e|]; [discriminate|].
  destruct (client_Get_Node env) as [addresses|e]; [|discriminate].
  destruct (Setup_range_first addresses)
    as [[Hnil _]|(pre & addr & post & -> & Hpre & Ht & Hr)].
  - rewrite Hnil. discriminate.
  - rewrite Hr. cbn. intros [= <-]. split_and!; try reflexivity.
    exists pre, addr, post. split_and!; auto.
    intros [p ip|]; cbn.
    + rewrite orb_false_r. split.
      * intros ->%String.eqb_eq. eauto.
      * intros (p' & [= _ ->]). apply String.eqb_refl.
    + split; [discriminate|]. now intros (p' & ?).
Qed.

(** ** What the recorder holds about the pods it watches *)

Lemma parseLogAnnotations_known (annotations : list (string * string))
    (res : list profileToCollect) :
  parseLogAnnotations annotations = Ok res -> Forall is_log_profile res.
Proof.
  unfold parseLogAnnotations. rewrite parseLogAnnotations_range_entries.
  intros [_ ->]%range_entries_ok. apply Forall_forall. intros prf.
  rewrite list_elem_of_omap. intros ([key profile] & _ & Hp).
  rewrite log_entry_cases in Hp. destruct (_ || _); [|discriminate].
  destruct (String.eqb_spec profile "") as [|Hne]; [discriminate|].
  injection Hp as <-. split; [|exact Hne]. cbn [kind].
  destruct (HasPrefix key _); auto.
Qed.

Lemma entries_sound_empty : entries_sound ∅.
Proof. intros key p Hk. now rewrite lookup_empty in Hk. Qed.

Lemma entries_sound_delete (key : string) (pods : gmap string podToWatch) :
  entries_sound pods -> entries_sound (delete key pods).
Proof.
  intros Hinv k p Hk. apply lookup_delete_Some in Hk as [_ Hk]. eauto.
Qed.

Lemma entries_sound_insert (key : string) (p : podToWatch)
    (pods : gmap string podToWatch) :
  profiles p <> [] ->
  match recorder p with
  | ProfileRecorderHook => Forall is_seccomp (profiles p)
  | ProfileRecorderLogs => Forall is_log_profile (profiles p)
  end ->
  entries_sound pods -> entries_sound (<[key := p]> pods).
Proof.
  intros Hne Hp Hinv k q Hk.
  apply lookup_insert_Some in Hk as [[_ <-]|[_ Hk]]; eauto.
Qed.

Lemma reconcilePending_sound (req : NamespacedName) (pod : Pod)
    (r : RecorderReconciler World) :
  entries_sound (podsToWatch r) ->
  entries_sound (podsToWatch (snd (reconcilePending req pod r))).
Proof.
  intros Hinv. unfold reconcilePending, bind, get.
  destruct (podsToWatch r !! _); [assumption|].
  destruct (parseHookAnnotations _) as [hookProfiles|e] eqn:Hh; [|assumption].
  destruct (parseLogAnnotations _) as [logProfiles|e] eqn:Hl; [|assumption].
  destruct hookProfiles as [|h hs]; [destruct logProfiles as [|p ps]|];
    cbn; try assumption; apply entries_sound_insert; try assumption;
    cbn; try discriminate.
  - now apply (parseLogAnnotations_known _ _ Hl).
  - eapply parseHookAnnotations_range_kinds; [constructor|exact Hh].
Qed.

Lemma Reconcile_sound (req : NamespacedName) (r : RecorderReconciler World) :
  entries_sound (podsToWatch r) ->
  entries_sound (podsToWatch (snd (Reconcile req r))).
Proof.
  intros Hinv.
  assert (forall r0 : RecorderReconciler World,
            entries_sound (podsToWatch r0) ->
            entries_sound (podsToWatch (snd (collectProfile req r0)))) as Hc.
  { intros r0 H0. destruct (collectProfile_podsToWatch req r0) as [-> | ->];
      auto using entries_sound_delete. }
  unfold Reconcile.
  destruct (client_Get_Pod req (world r)) as [[pod|err|err] w]; [| |assumption].
  - destruct (Phase pod); try assumption.
    + now apply reconcilePending_sound.
    + rewrite wrap_snd. now apply Hc.
  - cbn [zeroPod Phase]. rewrite bind_ret_snd, wrap_snd. now apply Hc.
Qed.

Lemma reconciled_sound (reqs : list NamespacedName) (r : RecorderReconciler World) :
  entries_sound (podsToWatch r) ->
  entries_sound (podsToWatch (reconciled r reqs)).
Proof.
  revert r. induction reqs as [|req reqs IH]; intros r Hinv; [assumption|].
  cbn [reconciled fold_left]. apply IH. now apply Reconcile_sound.
Qed.

(** X11. Whatever requests come and whatever the outside answers, a
    recorder that starts without a watched pod holds sound entries only:
    every watched pod has at least one profile to collect; in hook mode
    its profiles are seccomp profiles; in log mode they are seccomp or
    SELinux profiles with a name that is not empty. *)
Theorem reconciled_entries_sound (reqs : list NamespacedName)
    (r : RecorderReconciler World) :
  podsToWatch r = ∅ ->
  entries_sound (podsToWatch (reconciled r reqs)).
Proof.
  intros Hempty. apply reconciled_sound. rewrite Hempty.
  apply entries_sound_empty.
Qed.

Lemma collectLogProfiles_body_errors (n : NamespacedName) (prf : profileToCollect)
    (r : RecorderReconciler World) (e : error) :
  is_log_profile prf ->
  fst (collectLogProfiles_body n prf r) = Err e ->
  forall format args, e <> errors_Errorf format args.
Proof.
  intros [Hkind _]. unfold collectLogProfiles_body, bind, wrap, lift.
  destruct (extractProfileName (name prf)) as [profileName|e1];
    [|intros [= <-]; discriminate].
  destruct Hkind as [-> | ->].
  - unfold collectLogSeccompProfile, createOrUpdate, recordEvent.
    destruct (call (CallSyscalls _) _ r) as [[response|e1] r1];
      [|intros [= <-]; discriminate].
    destruct (call (CallCreateOrUpdate _) _ r1) as [[[]|e2] r2];
      [|intros [= <-]; discriminate].
    cbn [snd].
    destruct (call (CallResetSyscalls _) _ _) as [[[]|e3] r3];
      [discriminate|intros [= <-]; discriminate].
  - unfold collectLogSelinuxProfile, createOrUpdate, recordEvent.
    destruct (call (CallAvcs _) _ r) as [[response|e1] r1];
      [|intros [= <-]; discriminate].
    destruct (formatSelinuxProfile _ _) as [policy|e2];
      [|intros [= <-]; discriminate].
    destruct (call (CallCreateOrUpdate _) _ r1) as [[[]|e2] r2];
      [|intros [= <-]; discriminate].
    cbn [snd].
    destruct (call (CallResetAvcs _) _ _) as [[[]|e3] r3];
      [discriminate|intros [= <-]; discriminate].
Qed.

Lemma collectLogProfiles_errors (n : NamespacedName)
    (profiles : list profileToCollect) (r : RecorderReconciler World) (e : error) :
  Forall is_log_profile profiles ->
  fst (collectLogProfiles n profiles r) = Err e ->
  forall format args, e <> errors_Errorf format args.
Proof.
  intros Hall. unfold collectLogProfiles, bind, wrap, fail.
  destruct (call CallGetSPOD _ r) as [[spod|e1] r1];
    [|intros [= <-]; discriminate].
  destruct (negb (EnableLogEnricher spod)); [intros [= <-]; discriminate|].
  destruct (call CallDial _ r1) as [[[]|e2] r2]; [|intros [= <-]; discriminate].
  clear r r1. revert r2. induction Hall as [|prf l Hprf Hl IH]; intros r;
    [discriminate|].
  cbn [for_range]. unfold bind.
  pose proof (collectLogProfiles_body_errors n prf r) as Hbody.
  destruct (collectLogProfiles_body n prf r) as [[[]|e1] r1]; [apply IH|].
  cbn [fst] in *. intros [= <-]. now apply Hbody.
Qed.

Lemma collectProfile_log_errors (n : NamespacedName) (r : RecorderReconciler World)
    (e : error) :
  entries_sound (podsToWatch r) ->
  fst (collectProfile n r) = Err e ->
  forall k : string,
    e <> errors_Wrap (errors_Errorf "unrecognized kind %s" [k]) "collect log profile".
Proof.
  intros Hinv. unfold collectProfile. unfold bind at 1, get.
  destruct (podsToWatch r !! NamespacedName_String n) as [p|] eqn:Hp;
    [|discriminate].
  destruct (Hinv _ _ Hp) as [_ Hkinds].
  unfold bind, wrap, modify, ret.
  destruct (recorder p) eqn:Hrec.
  - destruct (collectLocalProfiles n (profiles p) r) as [[[]|e1] r1];
      [discriminate|].
    intros [= <-] k. discriminate.
  - pose proof (collectLogProfiles_errors n (profiles p) r) as Hl.
    destruct (collectLogProfiles n (profiles p) r) as [[[]|e1] r1];
      [discriminate|].
    cbn [fst] in Hl. intros [= <-] k Heq. injection Heq as Heq.
    now apply (Hl e1 Hkinds eq_refl "unrecognized kind %s" [k]).
Qed.

(** X12. The default case of the switch on the kind in
    [collectLogProfiles] is never taken for a pod that [Reconcile]
    started to watch: from a recorder without a watched pod, after any
    requests and any answers of the outside, [Reconcile] never returns
    the "unrecognized kind" error. *)
Theorem Reconcile_never_unrecognized_kind (reqs : list NamespacedName)
    (req : NamespacedName) (r : RecorderReconciler World) (e : error) :
  podsToWatch r = ∅ ->
  fst (Reconcile req (reconciled r reqs)) = Err e ->
  forall k msg : string,
    msg = "collect profile for succeeded pod" \/
    msg = "collect profile for removed pod" ->
    e <> errors_Wrap
           (errors_Wrap (errors_Errorf "unrecognized kind %s" [k])
              "collect log profile") msg.
Proof.
  intros Hempty.
  assert (entries_sound (podsToWatch (reconciled r reqs))) as Hinv
    by (apply reconciled_sound; rewrite Hempty; apply entries_sound_empty).
  generalize dependent (reconciled r reqs). clear r Hempty. intros r Hinv.
  assert (forall r0 : RecorderReconciler World,
            podsToWatch r0 = podsToWatch r ->
            forall e1, fst (collectProfile req r0) = Err e1 ->
            forall k, e1 <> errors_Wrap (errors_Errorf "unrecognized kind %s" [k])
                             "collect log profile") as Hc.
  { intros r0 Hr0 e1. apply collectProfile_log_errors. now rewrite Hr0. }
  unfold Reconcile.
  destruct (client_Get_Pod req (world r)) as [[pod|err|err] w].
  - destruct (Phase pod); try discriminate.
    + now rewrite reconcilePending_nil.
    + unfold wrap.
      match goal with |- context [collectProfile req ?r0] =>
        specialize (Hc r0 eq_refl); destruct (collectProfile req r0) as [[[]|e1] r1]
      end; [discriminate|].
      cbn [fst] in *. intros [= <-] k msg _ Heq. injection Heq as Heq _.
      now apply (Hc e1 eq_refl k).
  - cbn [zeroPod Phase]. unfold bind, wrap, ret.
    match goal with |- context [collectProfile req ?r0] =>
      specialize (Hc r0 eq_refl); destruct (collectProfile req r0) as [[[]|e1] r1]
    end; [discriminate|].
    cbn [fst] in *. intros [= <-] k msg _ Heq. injection Heq as Heq _.
    now apply (Hc e1 eq_refl k).
  - cbn [fst]. intros [= <-] k msg [-> | ->] Heq; discriminate.
Qed.

(** ** What [Reconcile] changes and what it calls *)

Lemma collectProfile_outcome (n : NamespacedName) (r : RecorderReconciler World) :
  match fst (collectProfile n r) with
  | Ok _ =>
      podsToWatch (snd (collectProfile n r))
      = delete (NamespacedName_String n) (podsToWatch r)
  | Err _ => podsToWatch (snd (collectProfile n r)) = podsToWatch r
  end.
Proof.
  enough (forall res r1, collectProfile n r = (res, r1) ->
            match res with
            | Ok _ => podsToWatch r1
                      = delete (NamespacedName_String n) (podsToWatch r)
            | Err _ => podsToWatch r1 = podsToWatch r
            end) as Hgen.
  { specialize (Hgen (fst (collectProfile n r)) (snd (collectProfile n r))).
    apply Hgen. now destruct (collectProfile n r). }
  intros res r1. unfold collectProfile. unfold bind at 1, get.
  destruct (podsToWatch r !! NamespacedName_String n) as [p|] eqn:Hp.
  - unfold bind, wrap, modify, ret. destruct (recorder p).
    + pose proof (collectLocalProfiles_podsToWatch n (profiles p) r) as Hl.
      destruct (collectLocalProfiles n (profiles p) r) as [[[]|e] r2];
        intros [= <- <-]; cbn [fst snd podsToWatch set_podsToWatch] in *;
        congruence.
    + pose proof (collectLogProfiles_podsToWatch n (profiles p) r) as Hl.
      destruct (collectLogProfiles n (profiles p) r) as [[[]|e] r2];
        intros [= <- <-]; cbn [fst snd podsToWatch set_podsToWatch] in *;
        congruence.
  - intros [= <- <-]. symmetry. now apply delete_id.
Qed.

(** X13. [Reconcile] of a pod that is gone or has succeeded forgets the
    pod when it returns nil, and only then: when the collection fails,
    the error is returned and the pod stays watched with the same
    profiles, so that a later [Reconcile] collects again. *)
Theorem Reconcile_forgets_after_collection (req : NamespacedName)
    (r : RecorderReconciler World) (got : GetPodResult) (w : World) :
  client_Get_Pod req (world r) = (got, w) ->
  match got with
  | GetFound pod => Phase pod = PodSucceeded
  | GetNotFound _ => True
  | GetError _ => False
  end ->
  match fst (Reconcile req r) with
  | Ok _ =>
      podsToWatch (snd (Reconcile req r))
      = delete (NamespacedName_String req) (podsToWatch r)
  | Err _ => podsToWatch (snd (Reconcile req r)) = podsToWatch r
  end.
Proof.
  intros Hget Hgot. unfold Reconcile. rewrite Hget.
  destruct got as [pod|err|err]; [rewrite Hgot| |contradiction].
  - unfold wrap.
    match goal with |- context [collectProfile req ?r0] =>
      pose proof (collectProfile_outcome req r0) as Hc;
      destruct (collectProfile req r0) as [[[]|e1] r1]
    end; exact Hc.
  - cbn [zeroPod Phase]. unfold bind, wrap, ret.
    match goal with |- context [collectProfile req ?r0] =>
      pose proof (collectProfile_outcome req r0) as Hc;
      destruct (collectProfile req r0) as [[[]|e1] r1]
    end; exact Hc.
Qed.

Lemma reconcilePending_podsToWatch (req : NamespacedName) (pod : Pod)
    (r : RecorderReconciler World) :
  podsToWatch (snd (reconcilePending req pod r)) = podsToWatch r \/
  exists p, podsToWatch (snd (reconcilePending req pod r))
            = <[NamespacedName_String req := p]> (podsToWatch r).
Proof.
  unfold reconcilePending, bind, get.
  destruct (podsToWatch r !! _); [now left|].
  destruct (parseHookAnnotations _) as [hookProfiles|e]; [|now left].
  destruct (parseLogAnnotations _) as [logProfiles|e]; [|now left].
  destruct (0 <? List.length hookProfiles)%nat; [|destruct (0 <? _)%nat];
    cbn; eauto.
Qed.

(** X14. [Reconcile] of a request touches the entry of that request
    only: whatever the outside answers and whether it fails or not, the
    other watched pods stay as they are. *)
Theorem Reconcile_other_pods (req : NamespacedName) (r : RecorderReconciler World)
    (key : string) :
  key <> NamespacedName_String req ->
  podsToWatch (snd (Reconcile req r)) !! key = podsToWatch r !! key.
Proof.
  intros Hkey.
  assert (forall r0 : RecorderReconciler World,
            podsToWatch (snd (collectProfile req r0)) !! key
            = podsToWatch r0 !! key) as Hc.
  { intros r0. destruct (collectProfile_podsToWatch req r0) as [-> | ->];
      [reflexivity|]. now apply lookup_delete_ne. }
  unfold Reconcile.
  destruct (client_Get_Pod req (world r)) as [[pod|err|err] w]; [| |reflexivity].
  - destruct (Phase pod); try reflexivity.
    + match goal with |- context [reconcilePending req pod ?r0] =>
        destruct (reconcilePending_podsToWatch req pod r0) as [-> | [p ->]]
      end; [reflexivity|]. now apply lookup_insert_ne.
    + rewrite wrap_snd. now rewrite Hc.
  - cbn [zeroPod Phase]. rewrite bind_ret_snd, wrap_snd. now rewrite Hc.
Qed.

Lemma recordEvent_trace (typ : EventType) (reason : string)
    (r : RecorderReconciler World) :
  trace (snd (recordEvent typ reason r))
  = (trace r ++ [(CallRecordEvent typ reason, true)])%list.
Proof. reflexivity. Qed.





(** X16. The log-mode collection asks for the configuration of the
    daemon first and goes no further when the log enricher is not
    enabled there or the configuration cannot be read: it returns an
    error having made that one call, without connecting to the enricher
    and without writing a profile. *)
Theorem collectLogProfiles_enricher_disabled (n : NamespacedName)
    (profiles : list profileToCollect) (r : RecorderReconciler World)
    (spod : result SecurityProfilesOperatorDaemon) (w : World) :
  client_Get_SPOD (world r) = (spod, w) ->
  match spod with
  | Ok spod => EnableLogEnricher spod = false
  | Err _ => True
  end ->
  collectLogProfiles n profiles r
  = (Err match spod with
         | Ok _ => errors_New "log enricher not enabled"
         | Err err => errors_Wrap err "getting SPOD config"
         end,
     {| podsToWatch := podsToWatch r; world := w;
        trace := trace r ++ [(CallGetSPOD, is_ok spod)] |}).
Proof.
  intros Hget Hspod. unfold collectLogProfiles, bind, wrap, call, fail.
  rewrite Hget. destruct spod as [spod|err]; [|reflexivity].
  now rewrite Hspod.
Qed.

(** X17. What the log-mode collection of one profile writes when it
    succeeds: the profile is named by the recording up to its last "-"
    and lies in the namespace of the pod; a seccomp profile allows
    exactly the syscalls the enricher returned for the recording, a
    SELinux profile holds the policy formatted from exactly the AVCs it
    returned; and the calls made are the snapshot, the write, the event
    and the reset of that recording, in this order, all successful. *)
Theorem collectLogProfiles_body_written (n : NamespacedName) (prf : profileToCollect)
    (r : RecorderReconciler World) :
  fst (collectLogProfiles_body n prf r) = Ok tt ->
  exists profileName : string,
    extractProfileName (name prf) = Ok profileName /\
    match kind prf with
    | ProfileRecordingKindSeccompProfile =>
        exists names : list string,
          fst (enricherClient_Syscalls (name prf) (world r)) = Ok names /\
          trace (snd (collectLogProfiles_body n prf r))
          = (trace r ++
             [(CallSyscalls (name prf), true);
              (CallCreateOrUpdate
                 (SeccompProfileOfSyscalls profileName (Namespace n) names), true);
              (CallRecordEvent Normal reasonProfileCreated, true);
              (CallResetSyscalls (name prf), true)])%list
    | ProfileRecordingKindSelinuxProfile =>
        exists (avcs : list AvcResponse_SelinuxAvc) (policy : string),
          fst (enricherClient_Avcs (name prf) (world r)) = Ok avcs /\
          formatSelinuxProfile (GetPolicyUsage profileName (Namespace n)) avcs
          = Ok policy /\
          trace (snd (collectLogProfiles_body n prf r))
          = (trace r ++
             [(CallAvcs (name prf), true);
              (CallCreateOrUpdate
                 (SelinuxProfileOfPolicy profileName (Namespace n) policy), true);
              (CallRecordEvent Normal reasonProfileCreated, true);
              (CallResetAvcs (name prf), true)])%list
    | ProfileRecordingKindOther _ => False
    end.
Proof.
  unfold collectLogProfiles_body, bind, wrap, lift, fail.
  destruct (extractProfileName (name prf)) as [profileName|e1]; [|discriminate].
  destruct (kind prf); [| |discriminate].
  - unfold collectLogSeccompProfile, createOrUpdate, recordEvent, call.
    destruct (enricherClient_Syscalls _ (world r)) as [[names|e1] w1];
      [|discriminate].
    cbn [world trace podsToWatch].
    destruct (controllerutil_CreateOrUpdate _ w1) as [[[]|e2] w2];
      [|discriminate].
    cbn [world trace podsToWatch snd].
    destruct (enricherClient_ResetSyscalls _ _) as [[[]|e3] w3]; [|discriminate].
    intros _. exists profileName. split; [reflexivity|]. exists names.
    split; [reflexivity|]. cbn [snd trace is_ok]. now rewrite <- !app_assoc.
  - unfold collectLogSelinuxProfile, createOrUpdate, recordEvent, call.
    destruct (enricherClient_Avcs _ (world r)) as [[avcs|e1] w1]; [|discriminate].
    cbn [world trace podsToWatch].
    destruct (formatSelinuxProfile _ avcs) as [policy|e2] eqn:Hpol;
      [|discriminate].
    destruct (controllerutil_CreateOrUpdate _ w1) as [[[]|e2] w2];
      [|discriminate].
    cbn [world trace podsToWatch snd].
    destruct (enricherClient_ResetAvcs _ _) as [[[]|e3] w3]; [|discriminate].
    intros _. exists profileName. split; [reflexivity|]. exists avcs, policy.
    split_and!; [reflexivity|exact Hpol|].
    cbn [snd trace is_ok]. now rewrite <- !app_assoc.
Qed.

(** X18. Annotations that do not parse are ignored without an error: for
    a pod in Pending phase that is not watched yet, when the hook
    annotations or the log annotations are malformed, [Reconcile] returns
    nil, records one warning event and does not start to watch the pod.
    One malformed annotation of either sort is enough, whatever the
    annotations of the other sort are. *)
Theorem Reconcile_malformed_annotations (req : NamespacedName) (pod : Pod)
    (r : RecorderReconciler World) (w : World) (e : error) :
  client_Get_Pod req (world r) = (GetFound pod, w) ->
  Phase pod = PodPending ->
  podsToWatch r !! NamespacedName_String req = None ->
  parseHookAnnotations (Annotations pod) = Err e \/
  parseLogAnnotations (Annotations pod) = Err e ->
  Reconcile req r
  = (Ok tt,
     {| podsToWatch := podsToWatch r;
        world := record_Event Warning reasonAnnotationParsing w;
        trace := trace r ++ [(CallGetPod req, true);
                             (CallRecordEvent Warning reasonAnnotationParsing, true)] |}).
Proof.
  intros Hget Hphase Hn Hparse. unfold Reconcile. rewrite Hget, Hphase.
  unfold reconcilePending, bind, get. cbn [podsToWatch]. rewrite Hn.
  assert (forall r0 : RecorderReconciler World,
            recordEvent Warning reasonAnnotationParsing
              {| podsToWatch := podsToWatch r0; world := w;
                 trace := trace r0 ++ [(CallGetPod req, true)] |}
            = (Ok tt,
               {| podsToWatch := podsToWatch r0;
                  world := record_Event Warning reasonAnnotationParsing w;
                  trace := trace r0 ++ [(CallGetPod req, true);
                                        (CallRecordEvent Warning
                                           reasonAnnotationParsing, true)] |}))
    as Hevent.
  { intros r0. unfold recordEvent. cbn. now rewrite <- app_assoc. }
  destruct Hparse as [Hh|Hl].
  - rewrite Hh. apply Hevent.
  - rewrite Hl. destruct (parseHookAnnotations _); apply Hevent.
Qed.

End Recorder.

(** * The log enricher *)

Section Enricher.

Context `{!enricher.Deps}.

Lemma LoadOrStore_Insert_lookup (key elem k : string) (m : gmap string (gset string)) :
  enricher.LoadOrStore_Insert key elem m !! k
  = if decide (k = key) then Some ({[elem]} ∪ default ∅ (m !! key)) else m !! k.
Proof.
  unfold enricher.LoadOrStore_Insert. destruct (decide (k = key)) as [->|Hne].
  - apply lookup_insert_eq.
  - now apply lookup_insert_ne.
Qed.

Lemma holds_snoc (elems : list string) (elem : string) :
  enricher.holds (elems ++ [elem])
  = Some ({[elem]} ∪ default ∅ (enricher.holds elems)).
Proof.
  unfold enricher.holds. destruct (elems ++ [elem])%list as [|x l] eqn:Hl.
  - now apply app_eq_nil in Hl as [_ ?].
  - rewrite <- Hl. f_equal. apply leibniz_equiv.
    rewrite list_to_set_app, (comm (∪)). cbn [list_to_set].
    rewrite (right_id ∅ (∪)).
    destruct elems as [|y elems]; [|reflexivity].
    cbn [default list_to_set]. reflexivity.
Qed.

Lemma omap_snoc {A B} (f : A -> option B) (l : list A) (x : A) :
  omap f (l ++ [x])%list
  = (omap f l ++ match f x with Some y => [y] | None => [] end)%list.
Proof. rewrite omap_app. cbn. now destruct (f x). Qed.

Lemma dispatched_snoc (nodeName : string)
    (lines : list (enricher.auditLine * enricher.containerInfo))
    (l : enricher.auditLine * enricher.containerInfo) (e : enricher.Enricher) :
  enricher.dispatched nodeName (lines ++ [l]) e
  = snd (enricher.dispatchAuditLine nodeName (fst l) (snd l)
           (enricher.dispatched nodeName lines e)).
Proof. unfold enricher.dispatched. now rewrite fold_left_app. Qed.

(** One line and the syscalls of a recording. *)
Lemma dispatch_syscalls_step (nodeName : string)
    (l : enricher.auditLine * enricher.containerInfo) (e : enricher.Enricher)
    (profile : string) :
  enricher.syscalls (snd (enricher.dispatchAuditLine nodeName (fst l) (snd l) e))
    !! profile
  = match enricher.syscall_for profile l with
    | Some name =>
        if String.eqb profile "" then enricher.syscalls e !! profile
        else Some ({[name]} ∪ default ∅ (enricher.syscalls e !! profile))
    | None => enricher.syscalls e !! profile
    end.
Proof.
  destruct l as [line info].
  unfold enricher.dispatchAuditLine, enricher.syscall_for, enricher.is_seccomp_line.
  cbn [fst snd].
  destruct (String.eqb (enricher.type_ line) enricher.auditTypeSelinux);
    cbn [negb andb modify fail snd].
  { unfold enricher.dispatchSelinuxLine.
    destruct (negb _); [|reflexivity]. now destruct (enricher.protojson_Marshal _). }
  destruct (String.eqb (enricher.type_ line) enricher.auditTypeSeccomp);
    cbn [modify fail snd]; [|reflexivity].
  unfold enricher.dispatchSeccompLine.
  destruct (enricher.syscallName _) as [name|err];
    [|now destruct (String.eqb _ profile)].
  destruct (String.eqb_spec (enricher.recordProfile info) "") as [Hrec|Hrec];
    cbn [negb enricher.syscalls].
  - destruct (String.eqb_spec (enricher.recordProfile info) profile) as [<-|];
      [|reflexivity].
    apply String.eqb_eq in Hrec. now rewrite Hrec.
  - rewrite LoadOrStore_Insert_lookup.
    destruct (String.eqb_spec (enricher.recordProfile info) profile) as [<-|Hne].
    + rewrite decide_True by reflexivity.
      apply String.eqb_neq in Hrec. now rewrite Hrec.
    + now rewrite decide_False by congruence.
Qed.

(** One line and the AVCs of a recording. *)
Lemma dispatch_avcs_step (nodeName : string)
    (l : enricher.auditLine * enricher.containerInfo) (e : enricher.Enricher)
    (profile : string) :
  enricher.avcs (snd (enricher.dispatchAuditLine nodeName (fst l) (snd l) e))
    !! profile
  = match enricher.avc_for profile l with
    | Some json =>
        if String.eqb profile "" then enricher.avcs e !! profile
        else Some ({[json]} ∪ default ∅ (enricher.avcs e !! profile))
    | None => enricher.avcs e !! profile
    end.
Proof.
  destruct l as [line info].
  unfold enricher.dispatchAuditLine, enricher.avc_for, enricher.is_selinux_line.
  cbn [fst snd].
  destruct (String.eqb (enricher.type_ line) enricher.auditTypeSelinux);
    cbn [andb modify fail snd].
  - unfold enricher.dispatchSelinuxLine.
    destruct (String.eqb_spec (enricher.recordProfile info) "") as [Hrec|Hrec];
      cbn [negb].
    + destruct (String.eqb_spec (enricher.recordProfile info) profile) as [<-|];
        [|reflexivity].
      apply String.eqb_eq in Hrec. now rewrite Hrec.
    + destruct (enricher.protojson_Marshal _) as [jsonBytes err].
      cbn [enricher.avcs fst]. rewrite LoadOrStore_Insert_lookup.
      destruct (String.eqb_spec (enricher.recordProfile info) profile) as [<-|Hne].
      * rewrite decide_True by reflexivity.
        apply String.eqb_neq in Hrec. now rewrite Hrec.
      * now rewrite decide_False by congruence.
  - destruct (String.eqb (enricher.type_ line) enricher.auditTypeSeccomp);
      cbn [modify fail snd]; [|reflexivity].
    unfold enricher.dispatchSeccompLine.
    destruct (enricher.syscallName _) as [name|err]; [|reflexivity].
    now destruct (negb _).
Qed.

(** One line and the metrics. *)
Lemma dispatch_sent_step (nodeName : string)
    (l : enricher.auditLine * enricher.containerInfo) (e : enricher.Enricher) :
  enricher.sent (snd (enricher.dispatchAuditLine nodeName (fst l) (snd l) e))
  = (enricher.sent e
     ++ match enricher.metric_of nodeName l with
        | Some request => [request]
        | None => []
        end)%list.
Proof.
  destruct l as [line info].
  unfold enricher.dispatchAuditLine, enricher.metric_of, enricher.is_seccomp_line.
  cbn [fst snd].
  destruct (String.eqb (enricher.type_ line) enricher.auditTypeSelinux);
    cbn [negb andb modify fail snd].
  { unfold enricher.dispatchSelinuxLine. rewrite app_nil_r.
    destruct (negb _); [|reflexivity]. now destruct (enricher.protojson_Marshal _). }
  destruct (String.eqb (enricher.type_ line) enricher.auditTypeSeccomp);
    cbn [modify fail snd]; [|now rewrite app_nil_r].
  unfold enricher.dispatchSeccompLine.
  destruct (enricher.syscallName _) as [name|err]; [|now rewrite app_nil_r].
  now destruct (negb _).
Qed.

(** What the enricher holds after any lines, from the start. *)
Lemma dispatched_content (nodeName : string)
    (lines : list (enricher.auditLine * enricher.containerInfo)) :
  (forall profile : string,
     enricher.syscalls (enricher.dispatched nodeName lines enricher.New) !! profile
     = if String.eqb profile "" then None
       else enricher.holds (omap (enricher.syscall_for profile) lines)) /\
  (forall profile : string,
     enricher.avcs (enricher.dispatched nodeName lines enricher.New) !! profile
     = if String.eqb profile "" then None
       else enricher.holds (omap (enricher.avc_for profile) lines)) /\
  enricher.sent (enricher.dispatched nodeName lines enricher.New)
  = omap (enricher.metric_of nodeName) lines.
Proof.
  induction lines as [|l lines IH] using rev_ind.
  - split_and!; try reflexivity; intros profile; cbn;
      rewrite lookup_empty; now destruct (String.eqb profile "").
  - destruct IH as (IHs & IHa & IHm). rewrite dispatched_snoc. split_and!.
    + intros profile. rewrite dispatch_syscalls_step, omap_snoc, IHs.
      destruct (enricher.syscall_for profile l) as [name|];
        [|now rewrite app_nil_r].
      destruct (String.eqb profile ""); [reflexivity|]. now rewrite holds_snoc.
    + intros profile. rewrite dispatch_avcs_step, omap_snoc, IHa.
      destruct (enricher.avc_for profile l) as [json|];
        [|now rewrite app_nil_r].
      destruct (String.eqb profile ""); [reflexivity|]. now rewrite holds_snoc.
    + now rewrite dispatch_sent_step, omap_snoc, IHm.
Qed.

Lemma elem_of_holds (elems : list string) (elem : string) :
  (exists s, enricher.holds elems = Some s /\ elem ∈ s) <-> elem ∈ elems.
Proof.
  unfold enricher.holds. destruct elems as [|x l].
  - split; [now intros (s & ? & _)|]. intros Hin. now apply elem_of_nil in Hin.
  - remember (x :: l) as xs. split.
    + intros (s & Hs & Hin). injection Hs as <-.
      now apply elem_of_list_to_set in Hin.
    + intros Hin. eexists. split; [reflexivity|]. now apply elem_of_list_to_set.
Qed.

(** X19. The syscalls the enricher holds for a recording, after any
    audit lines from the start, are exactly the names of the syscalls of
    the seccomp lines of containers that record under that name; lines
    whose syscall has no name, lines of containers that record nothing
    and lines of an unknown type add nothing, and the empty name is never
    a recording. *)
Theorem dispatched_syscalls (nodeName : string)
    (lines : list (enricher.auditLine * enricher.containerInfo))
    (profile name : string) :
  (exists names : gset string,
     enricher.syscalls (enricher.dispatched nodeName lines enricher.New) !! profile
     = Some names /\ name ∈ names)
  <-> profile <> "" /\
      exists (line : enricher.auditLine) (info : enricher.containerInfo),
        (line, info) ∈ lines /\
        enricher.type_ line <> enricher.auditTypeSelinux /\
        enricher.type_ line = enricher.auditTypeSeccomp /\
        enricher.recordProfile info = profile /\
        enricher.syscallName (enricher.systemCallID line) = Ok name.
Proof.
  destruct (dispatched_content nodeName lines) as (Hs & _ & _). rewrite Hs.
  destruct (String.eqb_spec profile "") as [->|Hp].
  - split; [now intros (s & ? & _)|now intros [? _]].
  - rewrite elem_of_holds, list_elem_of_omap. split.
    + intros ([line info] & Hin & Hsys). split; [exact Hp|].
      exists line, info. unfold enricher.syscall_for, enricher.is_seccomp_line in Hsys.
      cbn [fst snd] in Hsys.
      destruct (String.eqb_spec (enricher.type_ line) enricher.auditTypeSelinux);
        [discriminate|].
      destruct (String.eqb_spec (enricher.type_ line) enricher.auditTypeSeccomp);
        [|discriminate].
      destruct (String.eqb_spec (enricher.recordProfile info) profile);
        [|discriminate].
      destruct (enricher.syscallName _) as [name'|]; [|discriminate].
      injection Hsys as ->. auto.
    + intros (_ & line & info & Hin & Hsel & Hsec & Hrec & Hname).
      exists (line, info). split; [exact Hin|].
      unfold enricher.syscall_for, enricher.is_seccomp_line. cbn [fst snd].
      apply String.eqb_neq in Hsel. apply String.eqb_eq in Hsec, Hrec.
      now rewrite Hsel, Hsec, Hrec, Hname.
Qed.

(** X20. The AVCs the enricher holds for a recording are exactly the
    bytes that [Marshal] returned for the SELinux lines of containers
    that record under that name, whether [Marshal] failed or not; seccomp
    lines add none, and the empty name is never a recording. *)
Theorem dispatched_avcs (nodeName : string)
    (lines : list (enricher.auditLine * enricher.containerInfo))
    (profile json : string) :
  (exists jsons : gset string,
     enricher.avcs (enricher.dispatched nodeName lines enricher.New) !! profile
     = Some jsons /\ json ∈ jsons)
  <-> profile <> "" /\
      exists (line : enricher.auditLine) (info : enricher.containerInfo),
        (line, info) ∈ lines /\
        enricher.type_ line = enricher.auditTypeSelinux /\
        enricher.recordProfile info = profile /\
        fst (enricher.protojson_Marshal (enricher.avc_of line)) = json.
Proof.
  destruct (dispatched_content nodeName lines) as (_ & Ha & _). rewrite Ha.
  destruct (String.eqb_spec profile "") as [->|Hp].
  - split; [now intros (s & ? & _)|now intros [? _]].
  - rewrite elem_of_holds, list_elem_of_omap. split.
    + intros ([line info] & Hin & Havc). split; [exact Hp|].
      exists line, info. unfold enricher.avc_for, enricher.is_selinux_line in Havc.
      cbn [fst snd] in Havc.
      destruct (String.eqb_spec (enricher.type_ line) enricher.auditTypeSelinux);
        [|discriminate].
      destruct (String.eqb_spec (enricher.recordProfile info) profile);
        [|discriminate].
      injection Havc as <-. auto.
    + intros (_ & line & info & Hin & Hsel & Hrec & Hjson).
      exists (line, info). split; [exact Hin|].
      unfold enricher.avc_for, enricher.is_selinux_line. cbn [fst snd].
      apply String.eqb_eq in Hsel, Hrec. now rewrite Hsel, Hrec, Hjson.
Qed.

(** X21. The metrics sent are, in the order of the lines, one metric for
    each seccomp line whose syscall has a name, carrying the node, the
    container and the syscall name; SELinux lines send none; and whether
    the containers record a profile plays no part: with any other
    recording names, the empty one too, the same metrics are sent. *)
Theorem dispatched_sent (nodeName : string)
    (lines : list (enricher.auditLine * enricher.containerInfo)) :
  enricher.sent (enricher.dispatched nodeName lines enricher.New)
  = omap (enricher.metric_of nodeName) lines /\
  forall recording : enricher.auditLine * enricher.containerInfo -> string,
    enricher.sent
      (enricher.dispatched nodeName
         ((fun l =>
             (fst l,
              {| enricher.podName := enricher.podName (snd l);
                 enricher.containerName := enricher.containerName (snd l);
                 enricher.namespace := enricher.namespace (snd l);
                 enricher.recordProfile := recording l |})) <$> lines)
         enricher.New)
    = enricher.sent (enricher.dispatched nodeName lines enricher.New).
Proof.
  split; [apply dispatched_content|]. intros recording.
  destruct (dispatched_content nodeName lines) as (_ & _ & ->).
  match goal with |- context [enricher.dispatched nodeName ?ls _] =>
    destruct (dispatched_content nodeName ls) as (_ & _ & ->) end.
  induction lines as [|l lines IH]; [reflexivity|].
  rewrite fmap_cons.
  change (omap ?f (?x :: ?xs))
    with (match f x with Some y => y :: omap f xs | None => omap f xs end).
  now rewrite IH.
Qed.

Lemma holds_same_elements (l1 l2 : list string) :
  (forall x, x ∈ l1 <-> x ∈ l2) -> enricher.holds l1 = enricher.holds l2.
Proof.
  intros Hsame. unfold enricher.holds.
  destruct l1 as [|x1 l1], l2 as [|x2 l2]; [reflexivity| | |].
  - exfalso. eapply elem_of_nil, Hsame. left.
  - exfalso. eapply elem_of_nil, Hsame. left.
  - f_equal. apply leibniz_equiv. intros x.
    rewrite !elem_of_list_to_set. apply Hsame.
Qed.

(** X22. The syscalls and the AVCs the enricher holds depend on which
    lines were dispatched only, not on their order and not on how often
    a line came: two runs over the same set of lines hold the same. *)
Theorem dispatched_same_lines (nodeName : string)
    (lines1 lines2 : list (enricher.auditLine * enricher.containerInfo)) :
  (forall l, l ∈ lines1 <-> l ∈ lines2) ->
  enricher.syscalls (enricher.dispatched nodeName lines1 enricher.New)
  = enricher.syscalls (enricher.dispatched nodeName lines2 enricher.New) /\
  enricher.avcs (enricher.dispatched nodeName lines1 enricher.New)
  = enricher.avcs (enricher.dispatched nodeName lines2 enricher.New).
Proof.
  intros Hsame.
  destruct (dispatched_content nodeName lines1) as (Hs1 & Ha1 & _).
  destruct (dispatched_content nodeName lines2) as (Hs2 & Ha2 & _).
  split; apply map_eq; intros profile.
  - rewrite Hs1, Hs2. destruct (String.eqb profile ""); [reflexivity|].
    apply holds_same_elements. intros x. rewrite !list_elem_of_omap.
    split; intros (l & Hin & Hl); exists l; (split; [now apply Hsame|exact Hl]).
  - rewrite Ha1, Ha2. destruct (String.eqb profile ""); [reflexivity|].
    apply holds_same_elements. intros x. rewrite !list_elem_of_omap.
    split; intros (l & Hin & Hl); exists l; (split; [now apply Hsame|exact Hl]).
Qed.

End Enricher.

(** ** Examples

    The recorder with example values for the constants and simple
    stand-ins for the library functions, run against scripted outsides. *)

Definition example_permissive : string := "selinuxrecording.process".
Definition example_hookKey : string := "io.containers.trace-syscall".
Definition example_seccompLogsKey : string := "io.containers.trace-logs".
Definition example_selinuxLogsKey : string := "io.containers.trace-avcs".
Definition example_outputPath : string := "/tmp/recordings".
Definition example_TrimSpace (s : string) : string := s.
Definition example_IsAbs (s : string) : bool := HasPrefix s "/".
Definition example_Base (s : string) : string := s.
Definition example_GetPolicyUsage (name namespace : string) : string :=
  name ++ "_" ++ namespace ++ ".process".

Definition example_Reconcile
    : NamespacedName -> M (RecorderReconciler Script) unit :=
  Reconcile example_permissive example_hookKey example_seccompLogsKey
    example_selinuxLogsKey example_outputPath example_TrimSpace example_IsAbs
    example_Base example_GetPolicyUsage.

Definition example_collectLogProfiles
    : NamespacedName -> list profileToCollect -> M (RecorderReconciler Script) unit :=
  collectLogProfiles example_permissive example_GetPolicyUsage.

(** An outside where every call succeeds, the pod being [pod]. *)
Definition example_outside (pod : GetPodResult) : Script :=
  {| script_pod := pod;
     script_spod := Ok {| EnableLogEnricher := true |};
     script_file := Ok "{}";
     script_createOrUpdate := Ok tt;
     script_dial := Ok tt;
     script_syscalls := Ok ["read"; "write"];
     script_avcs := Ok [];
     script_reset := Ok tt |}.

(** The recorder at start: no pod watched, no call made. *)
Definition fresh (w : Script) : RecorderReconciler Script :=
  {| podsToWatch := ∅; world := w; trace := [] |}.

Definition example_req : NamespacedName :=
  {| Namespace := "default"; Name := "nginx" |}.

Definition example_hook_annotations : list (string * string) :=
  [("io.containers.trace-syscall/nginx", "of:/tmp/recordings/nginx-1600000000.json");
   ("app", "nginx")].

Definition example_hook_profiles : list profileToCollect :=
  [{| kind := ProfileRecordingKindSeccompProfile;
      name := "/tmp/recordings/nginx-1600000000.json" |}].

Definition example_pod (phase : PodPhase) : Pod :=
  {| Annotations := example_hook_annotations; Phase := phase |}.

Example parseHookAnnotations_ex1 :
  parseHookAnnotations example_hookKey example_outputPath example_TrimSpace
    example_IsAbs example_hook_annotations = Ok example_hook_profiles.
Proof. reflexivity. Qed.

Example parseLogAnnotations_ex1 :
  parseLogAnnotations example_seccompLogsKey example_selinuxLogsKey
    [("io.containers.trace-logs/nginx", "nginx-1600000000");
     ("io.containers.trace-avcs/nginx", "nginx-1600000001")]
  = Ok [{| kind := ProfileRecordingKindSeccompProfile; name := "nginx-1600000000" |};
        {| kind := ProfileRecordingKindSelinuxProfile; name := "nginx-1600000001" |}].
Proof. reflexivity. Qed.

(** The scenario as stated, at the example sentinel: the third AVC is
    refused. *)
Example scenario_as_stated_ex :
  formatSelinuxProfile example_permissive "my_usage_t"
    (scenario_avcs example_permissive)
  = Err (errors_Wrap errAddAvc "consuming AVCs").
Proof. vm_compute. reflexivity. Qed.

(** The scenario with a full context for the third AVC: the [bin_t] line
    comes twice. *)
Example scenario_full_context_ex :
  formatSelinuxProfile example_permissive "my_usage_t"
    (scenario_avcs "system_u:system_r:selinuxrecording.process:s0")
  = Ok (line_header ++ line_bin_t ++ line_bin_t ++ line_my_usage_t).
Proof. vm_compute. reflexivity. Qed.

(** Two orders of the same AVCs give the same policy. *)
Lemma formatSelinuxProfile_deterministic_witness :
  formatSelinuxProfile example_permissive "my_usage_t"
    [mkAvc "read" "file" "system_u:object_r:bin_t:s0";
     mkAvc "write" "dir" "system_u:object_r:etc_t:s0"]
  = formatSelinuxProfile example_permissive "my_usage_t"
      [mkAvc "write" "dir" "system_u:object_r:etc_t:s0";
       mkAvc "read" "file" "system_u:object_r:bin_t:s0"].
Proof.
  apply (formatSelinuxProfile_deterministic example_permissive "my_usage_t").
  apply perm_swap.
Defined.

(** A pending pod with a hook annotation is tracked in hook mode. *)
Lemma Reconcile_pending_mode_witness :
  podsToWatch
    (snd (example_Reconcile example_req
            (fresh (example_outside (GetFound (example_pod PodPending))))))
  = <["default/nginx" :=
        {| recorder := ProfileRecorderHook; profiles := example_hook_profiles |}]> ∅.
Proof.
  pose proof (Reconcile_pending_mode example_permissive example_hookKey
                example_seccompLogsKey example_selinuxLogsKey example_outputPath
                example_TrimSpace example_IsAbs example_Base example_GetPolicyUsage
                example_req (example_pod PodPending)
                (fresh (example_outside (GetFound (example_pod PodPending))))
                (example_outside (GetFound (example_pod PodPending)))
                example_hook_profiles []
                eq_refl eq_refl eq_refl eq_refl eq_refl) as (_ & Hhook & _).
  apply Hhook. discriminate.
Defined.

(** A succeeded pod that was never tracked: one call, nothing else. *)
Lemma Reconcile_untracked_witness :
  example_Reconcile example_req
    (fresh (example_outside (GetFound (example_pod PodSucceeded))))
  = (Ok tt,
     {| podsToWatch := ∅;
        world := example_outside (GetFound (example_pod PodSucceeded));
        trace := [(CallGetPod example_req, true)] |}).
Proof.
  pose proof (Reconcile_untracked example_permissive example_hookKey
                example_seccompLogsKey example_selinuxLogsKey example_outputPath
                example_TrimSpace example_IsAbs example_Base example_GetPolicyUsage
                example_req
                (fresh (example_outside (GetFound (example_pod PodSucceeded))))
                eq_refl) as [_ Hrec].
  exact (Hrec (GetFound (example_pod PodSucceeded))
           (example_outside (GetFound (example_pod PodSucceeded)))
           eq_refl eq_refl).
Defined.

(** The profiles of the example annotations are collected without the
    kind error. *)
Lemma hook_profiles_are_seccomp_witness :
  Forall (fun prf => kind prf = ProfileRecordingKindSeccompProfile)
    example_hook_profiles /\
  forall (n : NamespacedName) (r : RecorderReconciler Script),
    fst (collectLocalProfiles example_Base n example_hook_profiles r)
    <> Err (errors_New "only seccomp profiles supported via a hook").
Proof.
  apply (hook_profiles_are_seccomp example_hookKey example_outputPath
           example_TrimSpace example_IsAbs example_Base
           example_hook_annotations example_hook_profiles eq_refl).
Defined.

(** The recording "-1600000000" gives a profile object without a name. *)
Lemma extractProfileName_empty_name_witness :
  extractProfileName "-1600000000" = Ok "" /\
  exists ok : bool,
    In (CallCreateOrUpdate (SeccompProfileOfSyscalls "" "default" ["read"; "write"]), ok)
      (trace (snd (example_collectLogProfiles example_req
                     [{| kind := ProfileRecordingKindSeccompProfile;
                         name := "-1600000000" |}]
                     (fresh (example_outside (GetNotFound (errors_New "not found"))))))).
Proof.
  destruct (extractProfileName_empty_name example_permissive example_GetPolicyUsage
              "1600000000" eq_refl) as [Hname Hobj].
  split; [exact Hname|].
  exact (Hobj example_req
           (fresh (example_outside (GetNotFound (errors_New "not found"))))
           {| EnableLogEnricher := true |}
           (example_outside (GetNotFound (errors_New "not found")))
           (example_outside (GetNotFound (errors_New "not found")))
           (example_outside (GetNotFound (errors_New "not found")))
           ["read"; "write"] eq_refl eq_refl eq_refl eq_refl).
Defined.

(** A log-mode run where every call succeeds: the reset of the recording
    comes directly after the write of its profile object. *)
Lemma log_mode_reset_after_write_witness :
  exists (t0 : list (Call * bool)) (obj : Object),
    [(CallGetSPOD, true); (CallDial, true); (CallSyscalls "nginx-1600000000", true);
     (CallCreateOrUpdate
        (SeccompProfileOfSyscalls "nginx" "default" ["read"; "write"]), true);
     (CallRecordEvent Normal reasonProfileCreated, true)]
    = (t0 ++ [(CallCreateOrUpdate obj, true);
              (CallRecordEvent Normal reasonProfileCreated, true)])%list /\
    written_for obj (CallResetSyscalls "nginx-1600000000").
Proof.
  destruct (log_mode_reset_after_write example_permissive example_GetPolicyUsage
              example_req
              [{| kind := ProfileRecordingKindSeccompProfile;
                  name := "nginx-1600000000" |}]
              (fresh (example_outside (GetNotFound (errors_New "not found")))))
    as [(d & Hd & Hafter & _) _].
  apply (Hafter _ [] (CallResetSyscalls "nginx-1600000000") true);
    [|reflexivity].
  vm_compute in Hd. rewrite <- Hd. reflexivity.
Defined.


(** C1 as stated fails whatever the sentinel is: when the third AVC's
    target context is the sentinel itself, the policy is an error or has
    four lines or more, never the three lines expected. *)
Lemma scenario_policy_as_stated_fails :
  ~ exists sentinel : string,
      formatSelinuxProfile sentinel "my_usage_t" (scenario_avcs sentinel)
      = Ok (line_header ++ line_bin_t ++ line_my_usage_t).
Proof.
  intros [sentinel H]. apply formatSelinuxProfile_lines in H.
  vm_compute in H. lia.
Qed.

(** The amended scenario at the sentinel [selinuxrecording.process]. *)
Lemma scenario_policy_witness :
  exists n, 1 <= n /\
    formatSelinuxProfile "selinuxrecording.process" "my_usage_t"
      (scenario_avcs "system_u:system_r:selinuxrecording.process:s0")
    = Ok (line_header ++ String.concat "" (repeat line_bin_t n)
            ++ line_my_usage_t).
Proof.
  apply (scenario_policy "selinuxrecording.process"); reflexivity.
Defined.

Example extractProfileName_ex1 :
  extractProfileName "foo-bar-123" = Ok "foo-bar".
Proof. reflexivity. Qed.

Example ctxt2type_ex1 :
  ctxt2type "system_u:object_r:bin_t:s0" = Ok "bin_t".
Proof. reflexivity. Qed.

Example sort_Strings_ex1 :
  sort_Strings ["b"; "a"; "c"; "a"] = ["a"; "a"; "b"; "c"].
Proof. vm_compute. reflexivity. Qed.

(** ** Examples for the policy builder *)

Definition example_avcs : list AvcResponse_SelinuxAvc :=
  [mkAvc "read" "file" "system_u:object_r:bin_t:s0";
   mkAvc "write" "dir" "system_u:object_r:etc_t:s0";
   mkAvc "execute" "file" "system_u:object_r:bin_t:s0"].

(** An AVC without a class. *)
Definition example_classless : AvcResponse_SelinuxAvc :=
  mkAvc "read" "" "system_u:object_r:bin_t:s0".

(** The policy of the example AVCs: the [dir] line first, then the line
    of the two [file] AVCs, once for each. *)
Example formatSelinuxProfile_ex1 :
  formatSelinuxProfile example_permissive "my_usage_t" example_avcs
  = Ok (line_header
        ++ ("(allow process etc_t ( dir ( write )))" ++ LF)
        ++ line_bin_t ++ line_bin_t).
Proof. vm_compute. reflexivity. Qed.

Lemma AddAvcList_permMap_witness :
  keys (snd (AddAvcList example_avcs (newSeProfileBuilder "my_usage_t")))
  = omap avc_key example_avcs /\
  forall key perm : string,
    (exists perms : gset string,
       permMap (snd (AddAvcList example_avcs (newSeProfileBuilder "my_usage_t")))
         !! key = Some perms /\ perm ∈ perms)
    <-> (exists avc, avc ∈ example_avcs /\ avc_key avc = Some key /\ Perm avc = perm).
Proof.
  apply (AddAvcList_permMap "my_usage_t" example_avcs). vm_compute. reflexivity.
Defined.

(** The scenario as stated fails in [AddAvcList], and in no other way. *)
Lemma formatSelinuxProfile_errors_witness :
  (well_formed (scenario_avcs example_permissive) = false /\
   errors_Wrap errAddAvc "consuming AVCs" = errors_Wrap errAddAvc "consuming AVCs") \/
  (well_formed (scenario_avcs example_permissive) = true /\
   errors_Wrap errAddAvc "consuming AVCs"
   = errors_Wrap errEmptyContextOrClass "building policy").
Proof.
  apply (formatSelinuxProfile_errors example_permissive "my_usage_t"
           (scenario_avcs example_permissive)).
  vm_compute. reflexivity.
Defined.

Lemma formatSelinuxProfile_policy_witness :
  formatSelinuxProfile example_permissive "my_usage_t" example_avcs
  = Ok (line_header
        ++ String.concat ""
             (avc_line example_permissive "my_usage_t" example_avcs
                <$> merge_sort avc_le example_avcs)).
Proof.
  apply (formatSelinuxProfile_policy example_permissive "my_usage_t" example_avcs).
  - vm_compute. reflexivity.
  - reflexivity.
Defined.

Lemma formatSelinuxProfile_empty_field_witness :
  fst (AddAvcList [example_classless] (newSeProfileBuilder "my_usage_t")) = Ok tt /\
  formatSelinuxProfile example_permissive "my_usage_t" [example_classless]
  = Err (errors_Wrap errEmptyContextOrClass "building policy").
Proof.
  apply (formatSelinuxProfile_empty_field example_permissive "my_usage_t"
           [example_classless] example_classless).
  - vm_compute. reflexivity.
  - apply list_elem_of_here.
  - left. reflexivity.
Defined.

(** ** Examples for the annotations and the event filters *)

Lemma parseHookAnnotations_profiles_witness :
  (forall key value : string,
     (key, value) ∈ example_hook_annotations ->
     HasPrefix key example_hookKey = true ->
     HasPrefix value "of:" = true /\
     example_IsAbs (example_TrimSpace (TrimPrefix value "of:")) = true /\
     example_TrimSpace (TrimPrefix value "of:") <> "") /\
  (forall prf : profileToCollect,
     prf ∈ example_hook_profiles <->
     kind prf = ProfileRecordingKindSeccompProfile /\
     exists key value : string,
       (key, value) ∈ example_hook_annotations /\
       HasPrefix key example_hookKey = true /\
       name prf = example_TrimSpace (TrimPrefix value "of:") /\
       HasPrefix (name prf) example_outputPath = true).
Proof.
  apply (parseHookAnnotations_profiles example_hookKey example_outputPath
           example_TrimSpace example_IsAbs example_hook_annotations
           example_hook_profiles).
  reflexivity.
Defined.

(** A hook annotation that names no file: the path is refused as not
    absolute, not as missing. *)
Definition example_empty_file : list (string * string) :=
  [("io.containers.trace-syscall/nginx", "of:")].

Lemma parseHookAnnotations_never_mandatory_witness :
  errors_Wrapf (errors_New errInvalidAnnotation)
    "output file path must be absolute: %q" [EmptyString]
  <> errors_Wrap (errors_New errInvalidAnnotation)
       "providing output file is mandatory" /\
  exists key value : string,
    (key, value) ∈ example_empty_file /\
    HasPrefix key example_hookKey = true /\
    (errors_Wrapf (errors_New errInvalidAnnotation)
       "output file path must be absolute: %q" [EmptyString]
     = errors_Wrapf (errors_New errInvalidAnnotation)
         "must start with %q prefix" ["of:"] \/
     errors_Wrapf (errors_New errInvalidAnnotation)
       "output file path must be absolute: %q" [EmptyString]
     = errors_Wrapf (errors_New errInvalidAnnotation)
         "output file path must be absolute: %q"
         [example_TrimSpace (TrimPrefix value "of:")]).
Proof.
  apply (parseHookAnnotations_never_mandatory example_hookKey example_outputPath
           example_TrimSpace example_IsAbs example_empty_file).
  - reflexivity.
  - reflexivity.
Defined.

(** A pod without a recording annotation. *)
Definition example_plain_pod : Pod :=
  {| Annotations := [("app", "nginx")]; Phase := PodPending |}.

Lemma isPodWithTraceAnnotation_sound_witness :
  parseHookAnnotations example_hookKey example_outputPath example_TrimSpace
    example_IsAbs (Annotations example_plain_pod) = Ok [] /\
  parseLogAnnotations example_seccompLogsKey example_selinuxLogsKey
    (Annotations example_plain_pod) = Ok [] /\
  forall (req : NamespacedName) (r : RecorderReconciler Script),
    reconcilePending example_hookKey example_seccompLogsKey example_selinuxLogsKey
      example_outputPath example_TrimSpace example_IsAbs req example_plain_pod r
    = (Ok tt, r).
Proof.
  apply (isPodWithTraceAnnotation_sound example_hookKey example_seccompLogsKey
           example_selinuxLogsKey example_outputPath example_TrimSpace
           example_IsAbs example_plain_pod "10.0.0.7").
  reflexivity.
Defined.

(** A node with a host name and two internal addresses. *)
Definition example_env : SetupEnv :=
  {| client_New := None;
     client_Get_Node :=
       Ok [{| Type_ := "Hostname"; Address := "node-1" |};
           {| Type_ := "InternalIP"; Address := "10.0.0.7" |};
           {| Type_ := "InternalIP"; Address := "10.0.0.8" |}];
     Complete := None |}.

Example Setup_ex1 :
  Setup "InternalIP" example_env
  = {| setup_error := None; nodeAddresses := Some ["10.0.0.7"];
       controller_built := true |}.
Proof. reflexivity. Qed.

(** The node cannot be read: [Setup] returns nil all the same. *)
Example Setup_ex2 :
  Setup "InternalIP"
    {| client_New := None;
       client_Get_Node := Err (errors_New "nodes not found");
       Complete := None |}
  = {| setup_error := None; nodeAddresses := None; controller_built := false |}.
Proof. reflexivity. Qed.

Lemma Setup_nodeAddresses_witness :
  controller_built (Setup "InternalIP" example_env) = true /\
  setup_error (Setup "InternalIP" example_env) = Complete example_env /\
  exists (pre : list NodeAddress) (addr : NodeAddress) (post : list NodeAddress),
    client_Get_Node example_env = Ok (pre ++ addr :: post)%list /\
    Forall (fun a => Type_ a <> "InternalIP") pre /\
    Type_ addr = "InternalIP" /\
    ["10.0.0.7"] = [Address addr] /\
    forall obj : runtime_Object,
      isPodOnLocalNode ["10.0.0.7"] obj = true
      <-> exists p : Pod, obj = Object_Pod p (Address addr).
Proof.
  apply (Setup_nodeAddresses "InternalIP" example_env ["10.0.0.7"]).
  reflexivity.
Defined.

(** ** Examples for the reconciler *)

(** A pod with a log annotation for a seccomp profile. *)
Definition example_log_pod (phase : PodPhase) : Pod :=
  {| Annotations := [("io.containers.trace-logs/nginx", "nginx-1600000000")];
     Phase := phase |}.

Definition example_log_profile : profileToCollect :=
  {| kind := ProfileRecordingKindSeccompProfile; name := "nginx-1600000000" |}.

(** An outside where the pod with the log annotation is seen in Pending
    phase by the first [Get] and has succeeded afterwards; the other
    calls answer from the script. *)
#[global] Instance staged : Outside (nat * Script) := {|
  client_Get_Pod _ w :=
    (GetFound (example_log_pod (if (fst w =? 0)%nat then PodPending else PodSucceeded)),
     (S (fst w), snd w));
  client_Get_SPOD w := (script_spod (snd w), w);
  ioutil_ReadFile _ w := (script_file (snd w), w);
  controllerutil_CreateOrUpdate _ w := (script_createOrUpdate (snd w), w);
  record_Event _ _ w := w;
  enricher_Dial w := (script_dial (snd w), w);
  enricherClient_Syscalls _ w := (script_syscalls (snd w), w);
  enricherClient_ResetSyscalls _ w := (script_reset (snd w), w);
  enricherClient_Avcs _ w := (script_avcs (snd w), w);
  enricherClient_ResetAvcs _ w := (script_reset (snd w), w);
|}.

(** An outside where the log enricher is not enabled. *)
Definition example_disabled : Script :=
  {| script_pod := GetFound (example_log_pod PodSucceeded);
     script_spod := Ok {| EnableLogEnricher := false |};
     script_file := Ok "{}";
     script_createOrUpdate := Ok tt;
     script_dial := Ok tt;
     script_syscalls := Ok ["read"; "write"];
     script_avcs := Ok [];
     script_reset := Ok tt |}.

(** The recorder at the start of the staged outside. *)
Definition example_staged : RecorderReconciler (nat * Script) :=
  {| podsToWatch := ∅; world := (0, example_disabled); trace := [] |}.

Definition example_staged_Reconcile
    : NamespacedName -> M (RecorderReconciler (nat * Script)) unit :=
  Reconcile example_permissive example_hookKey example_seccompLogsKey
    example_selinuxLogsKey example_outputPath example_TrimSpace example_IsAbs
    example_Base example_GetPolicyUsage.

Definition example_staged_reconciled
    : RecorderReconciler (nat * Script) -> list NamespacedName ->
      RecorderReconciler (nat * Script) :=
  reconciled example_permissive example_hookKey example_seccompLogsKey
    example_selinuxLogsKey example_outputPath example_TrimSpace example_IsAbs
    example_Base example_GetPolicyUsage.

(** The error of the collection when the enricher is not enabled. *)
Definition example_disabled_error : error :=
  errors_Wrap
    (errors_Wrap (errors_New "log enricher not enabled") "collect log profile")
    "collect profile for succeeded pod".

(** The pod is watched in log mode after the first request. *)
Example reconciled_ex1 :
  podsToWatch (example_staged_reconciled example_staged [example_req])
  = <["default/nginx" :=
        {| recorder := ProfileRecorderLogs; profiles := [example_log_profile] |}]> ∅.
Proof. vm_compute. reflexivity. Qed.

Lemma reconciled_entries_sound_witness :
  entries_sound
    (podsToWatch (example_staged_reconciled example_staged [example_req])).
Proof.
  apply (reconciled_entries_sound example_permissive example_hookKey
           example_seccompLogsKey example_selinuxLogsKey example_outputPath
           example_TrimSpace example_IsAbs example_Base example_GetPolicyUsage
           [example_req] example_staged).
  reflexivity.
Defined.

(** The second request finds the pod succeeded and the enricher not
    enabled: the error is that one. *)
Lemma Reconcile_never_unrecognized_kind_witness :
  fst (example_staged_Reconcile example_req
         (example_staged_reconciled example_staged [example_req]))
  = Err example_disabled_error /\
  forall k msg : string,
    msg = "collect profile for succeeded pod" \/
    msg = "collect profile for removed pod" ->
    example_disabled_error
    <> errors_Wrap
         (errors_Wrap (errors_Errorf "unrecognized kind %s" [k])
            "collect log profile") msg.
Proof.
  assert (fst (example_staged_Reconcile example_req
                 (example_staged_reconciled example_staged [example_req]))
          = Err example_disabled_error) as Herr by (vm_compute; reflexivity).
  split; [exact Herr|].
  exact (Reconcile_never_unrecognized_kind example_permissive example_hookKey
           example_seccompLogsKey example_selinuxLogsKey example_outputPath
           example_TrimSpace example_IsAbs example_Base example_GetPolicyUsage
           [example_req] example_req example_staged example_disabled_error
           eq_refl Herr).
Defined.

(** A recorder that watches two pods in hook mode, the first of which
    has succeeded. *)
Definition example_watching : RecorderReconciler Script :=
  {| podsToWatch :=
       <["default/nginx" :=
           {| recorder := ProfileRecorderHook; profiles := example_hook_profiles |}]>
         (<["default/other" :=
              {| recorder := ProfileRecorderHook;
                 profiles := example_hook_profiles |}]> ∅);
     world := example_outside (GetFound (example_pod PodSucceeded));
     trace := [] |}.

Lemma Reconcile_forgets_after_collection_witness :
  match fst (example_Reconcile example_req example_watching) with
  | Ok _ =>
      podsToWatch (snd (example_Reconcile example_req example_watching))
      = delete (NamespacedName_String example_req) (podsToWatch example_watching)
  | Err _ =>
      podsToWatch (snd (example_Reconcile example_req example_watching))
      = podsToWatch example_watching
  end.
Proof.
  apply (Reconcile_forgets_after_collection example_permissive example_hookKey
           example_seccompLogsKey example_selinuxLogsKey example_outputPath
           example_TrimSpace example_IsAbs example_Base example_GetPolicyUsage
           example_req example_watching
           (GetFound (example_pod PodSucceeded))
           (example_outside (GetFound (example_pod PodSucceeded)))).
  - reflexivity.
  - reflexivity.
Defined.

(** The succeeded pod is collected and forgotten, the other one stays. *)
Example Reconcile_ex_collected :
  fst (example_Reconcile example_req example_watching) = Ok tt /\
  podsToWatch (snd (example_Reconcile example_req example_watching))
  = <["default/other" :=
        {| recorder := ProfileRecorderHook; profiles := example_hook_profiles |}]> ∅.
Proof. vm_compute. split; reflexivity. Qed.

Lemma Reconcile_other_pods_witness :
  podsToWatch (snd (example_Reconcile example_req example_watching))
    !! "default/other"
  = podsToWatch example_watching !! "default/other".
Proof.
  apply (Reconcile_other_pods example_permissive example_hookKey
           example_seccompLogsKey example_selinuxLogsKey example_outputPath
           example_TrimSpace example_IsAbs example_Base example_GetPolicyUsage
           example_req example_watching "default/other").
  intros Heq. vm_compute in Heq. discriminate Heq.
Defined.

Lemma collectLogProfiles_enricher_disabled_witness :
  example_collectLogProfiles example_req [example_log_profile]
    (fresh example_disabled)
  = (Err (errors_New "log enricher not enabled"),
     {| podsToWatch := ∅; world := example_disabled;
        trace := [(CallGetSPOD, true)] |}).
Proof.
  apply (collectLogProfiles_enricher_disabled example_permissive
           example_GetPolicyUsage example_req [example_log_profile]
           (fresh example_disabled) (Ok {| EnableLogEnricher := false |})
           example_disabled).
  - reflexivity.
  - reflexivity.
Defined.

Lemma collectLogProfiles_body_written_witness :
  exists profileName : string,
    extractProfileName "nginx-1600000000" = Ok profileName /\
    exists names : list string,
      fst (enricherClient_Syscalls "nginx-1600000000"
             (example_outside (GetFound (example_log_pod PodSucceeded))))
      = Ok names /\
      trace (snd (collectLogProfiles_body example_permissive example_GetPolicyUsage
                    example_req example_log_profile
                    (fresh (example_outside
                              (GetFound (example_log_pod PodSucceeded))))))
      = [(CallSyscalls "nginx-1600000000", true);
         (CallCreateOrUpdate
            (SeccompProfileOfSyscalls profileName "default" names), true);
         (CallRecordEvent Normal reasonProfileCreated, true);
         (CallResetSyscalls "nginx-1600000000", true)].
Proof.
  apply (collectLogProfiles_body_written example_permissive example_GetPolicyUsage
           example_req example_log_profile
           (fresh (example_outside (GetFound (example_log_pod PodSucceeded))))).
  vm_compute. reflexivity.
Defined.

(** A hook annotation whose value lacks the "of:" prefix. *)
Definition example_malformed_pod : Pod :=
  {| Annotations := [("io.containers.trace-syscall/nginx", "nginx.json");
                     ("io.containers.trace-logs/nginx", "nginx-1600000000")];
     Phase := PodPending |}.

Lemma Reconcile_malformed_annotations_witness :
  example_Reconcile example_req
    (fresh (example_outside (GetFound example_malformed_pod)))
  = (Ok tt,
     {| podsToWatch := ∅;
        world := example_outside (GetFound example_malformed_pod);
        trace := [(CallGetPod example_req, true);
                  (CallRecordEvent Warning reasonAnnotationParsing, true)] |}).
Proof.
  exact (Reconcile_malformed_annotations example_permissive example_hookKey
           example_seccompLogsKey example_selinuxLogsKey example_outputPath
           example_TrimSpace example_IsAbs example_Base example_GetPolicyUsage
           example_req example_malformed_pod
           (fresh (example_outside (GetFound example_malformed_pod)))
           (example_outside (GetFound example_malformed_pod))
           (errors_Wrapf (errors_New errInvalidAnnotation)
              "must start with %q prefix" ["of:"])
           eq_refl eq_refl eq_refl (or_introl eq_refl)).
Defined.

(** ** Examples for the enricher *)

(** Two audit line types, a table of two syscalls, and a [Marshal] that
    writes the fields one after the other. *)
#[global] Instance example_deps : enricher.Deps := {|
  enricher.auditTypeSelinux := "selinux";
  enricher.auditTypeSeccomp := "seccomp";
  enricher.syscallName id :=
    if (id =? 0)%Z then Ok "read"
    else if (id =? 1)%Z then Ok "write"
    else Err (errors_Errorf "no syscall name found for ID %s" []);
  enricher.protojson_Marshal avc :=
    (Perm avc ++ " " ++ Tclass avc ++ " " ++ Tcontext avc, None);
|}.

Definition example_seccomp_line (id : Z) : enricher.auditLine :=
  {| enricher.type_ := "seccomp"; enricher.timestampID := "1600000000.000:1";
     enricher.systemCallID := id; enricher.processID := 42;
     enricher.executable := "/usr/sbin/nginx"; enricher.perm := "";
     enricher.scontext := ""; enricher.tcontext := ""; enricher.tclass := "" |}.

Definition example_info (recording : string) : enricher.containerInfo :=
  {| enricher.podName := "nginx"; enricher.containerName := "nginx";
     enricher.namespace := "default"; enricher.recordProfile := recording |}.

Definition example_lines : list (enricher.auditLine * enricher.containerInfo) :=
  [(example_seccomp_line 0, example_info "nginx-1600000000");
   (example_seccomp_line 1, example_info "nginx-1600000000");
   (example_seccomp_line 7, example_info "nginx-1600000000");
   (example_seccomp_line 1, example_info "");
   (example_seccomp_line 0, example_info "nginx-1600000000")].

(** Two names recorded, three metrics sent for the recording and one for
    the container that records nothing. *)
Example dispatched_ex1 :
  enricher.syscalls (enricher.dispatched "node-1" example_lines enricher.New)
  = {["nginx-1600000000" := {["read"; "write"]}]} /\
  List.length (enricher.sent (enricher.dispatched "node-1" example_lines enricher.New))
  = 4.
Proof.
  split; [|reflexivity]. apply map_eq. intros profile.
  destruct (decide (profile = "nginx-1600000000")) as [->|Hne].
  - rewrite lookup_singleton_eq. vm_compute. reflexivity.
  - rewrite lookup_singleton_ne by congruence.
    unfold example_lines, enricher.dispatched. cbn.
    unfold enricher.LoadOrStore_Insert.
    now rewrite !lookup_insert_ne by congruence.
Qed.

Lemma dispatched_same_lines_witness :
  enricher.syscalls (enricher.dispatched "node-1" example_lines enricher.New)
  = enricher.syscalls
      (enricher.dispatched "node-1" (reverse example_lines) enricher.New) /\
  enricher.avcs (enricher.dispatched "node-1" example_lines enricher.New)
  = enricher.avcs
      (enricher.dispatched "node-1" (reverse example_lines) enricher.New).
Proof.
  apply (dispatched_same_lines "node-1" example_lines (reverse example_lines)).
  intros l. symmetry. apply elem_of_reverse.
Defined.
